(** * Attendance backend (server.js): QR codec, scan validator, reporting,
      sweep and roster listing

    A shallow embedding of the request handlers of [src/server.js] and of the
    platform functions they call ([JSON.parse], [JSON.stringify], the [Date]
    constructor and [setHours]/[getDate]), followed by the properties of the
    handlers.

    Conventions of the model.
    - A JavaScript string is the list of its UTF-16 code units.  The store
      keeps strings in UTF-8: a string that a request brings is written,
      and is looked up by registration and login, with every surrogate that
      stands alone replaced by U+FFFD ([toWellFormed]).  The scan looks a
      key up as it is written, which is the lookup of the store for a key
      that is well formed.
    - An instant is a number of milliseconds, read in the local time of the
      process; the process time zone is taken to have a fixed offset from UTC,
      so local readings and stored instants differ by a constant and every
      comparison of two instants is the same in both.
    - The two collections are lists in insertion order.  Fields that the
      document store maintains by itself ([_id], [__v], [createdAt],
      [updatedAt]) are left out, and store operations do not fail except
      where a filter cannot be cast; [scan_under] and [autoAbsent_under]
      are the scan and the sweep of a store whose operations can fail.
    - Every reading of the process clock is an explicit argument. *)

From Stdlib Require Import ZArith NArith List String Ascii Bool Lia.
Import ListNotations.

Ltac Zify.zify_post_hook ::= Z.to_euclidean_division_equations.

Set Warnings "-register-all".

(* ================================================================= *)
(** ** JavaScript values *)

(** A string: its UTF-16 code units. *)
Definition jsstring := list N.

(** The code units of an ASCII literal. *)
Definition str (s : string) : jsstring :=
  map N_of_ascii (list_ascii_of_string s).

Fixpoint jsstring_eqb (a b : jsstring) : bool :=
  match a, b with
  | [], [] => true
  | x :: a', y :: b' => N.eqb x y && jsstring_eqb a' b'
  | _, _ => false
  end.

(** Values that reach the handlers: what [JSON.parse] builds, and
    [undefined] for a property that is not there.  A number keeps the text
    of its literal; its floating-point value is the platform's business
    (see [Platform]).  An object is its own properties in insertion order. *)
Inductive JsValue : Type :=
| JUndefined
| JNull
| JBool (b : bool)
| JNum (literal : jsstring)
| JStr (s : jsstring)
| JArr (items : list JsValue)
| JObj (props : list (jsstring * JsValue)).

(** What the handlers leave to the platform: the floating-point reading of
    number literals, and the way the document store casts a filter on the
    String path [userId] whose value is not a string.  No property of these
    is assumed anywhere. *)
Class Platform : Type := {
  (** [ToBoolean] of the Number value of a literal. *)
  num_truthy : jsstring -> bool;
  (** [===] on the Number values of two literals. *)
  num_strict_eq : jsstring -> jsstring -> bool;
  (** [{ userId: v }] for a [v] that is not a string: [None] when casting
      throws, otherwise the condition the filter puts on a document's
      [userId]. *)
  cast_userId_filter : JsValue -> option (jsstring -> bool)
}.

Section Values.
Context `{Platform}.

(** [ToBoolean], as used by [!x]. *)
Definition truthy (v : JsValue) : bool :=
  match v with
  | JUndefined | JNull => false
  | JBool b => b
  | JNum n => num_truthy n
  | JStr s => match s with [] => false | _ => true end
  | JArr _ | JObj _ => true
  end.

(** [a === b] for two values of which neither is part of the other: two
    objects (or arrays) obtained from different places of a request are
    different references. *)
Definition strict_eq (a b : JsValue) : bool :=
  match a, b with
  | JUndefined, JUndefined => true
  | JNull, JNull => true
  | JBool x, JBool y => Bool.eqb x y
  | JNum x, JNum y => num_strict_eq x y
  | JStr x, JStr y => jsstring_eqb x y
  | _, _ => false
  end.

End Values.

(** [typeof v === "string"]. *)
Definition is_string (v : JsValue) : bool :=
  match v with JStr _ => true | _ => false end.

Fixpoint lookup_prop (k : jsstring) (props : list (jsstring * JsValue))
  : option JsValue :=
  match props with
  | [] => None
  | (k', v) :: rest => if jsstring_eqb k k' then Some v else lookup_prop k rest
  end.

(** [v.k] for a property name [k] that no built-in prototype defines and
    that is neither an index nor [length] (the handlers read [userId] and
    [bus]).  [None] is the [TypeError] of reading a property of [null] or
    [undefined]. *)
Definition get_prop (v : JsValue) (k : jsstring) : option JsValue :=
  match v with
  | JUndefined | JNull => None
  | JObj props =>
      match lookup_prop k props with
      | Some x => Some x
      | None => Some JUndefined
      end
  | _ => Some JUndefined
  end.

(** Defining a property: an existing key keeps its place and takes the new
    value, a new key goes last. *)
Fixpoint set_prop (props : list (jsstring * JsValue)) (k : jsstring)
  (v : JsValue) : list (jsstring * JsValue) :=
  match props with
  | [] => [(k, v)]
  | (k', v') :: rest =>
      if jsstring_eqb k k' then (k', v) :: rest
      else (k', v') :: set_prop rest k v
  end.

(* ================================================================= *)
(** ** JSON.parse *)

Local Open Scope N_scope.

Definition is_ws (c : N) : bool :=
  (c =? 32) || (c =? 9) || (c =? 10) || (c =? 13).

Definition is_digit (c : N) : bool := (48 <=? c) && (c <=? 57).

Fixpoint skip_ws (s : list N) : list N :=
  match s with
  | c :: r => if is_ws c then skip_ws r else s
  | [] => []
  end.

Definition hex_value (c : N) : option N :=
  if is_digit c then Some (c - 48)
  else if (97 <=? c) && (c <=? 102) then Some (c - 87)
  else if (65 <=? c) && (c <=? 70) then Some (c - 55)
  else None.

(** The character a one-letter escape stands for. *)
Definition unescape (c : N) : option N :=
  if c =? 34 then Some 34          (* quote *)
  else if c =? 92 then Some 92     (* backslash *)
  else if c =? 47 then Some 47     (* slash *)
  else if c =? 98 then Some 8      (* b: backspace *)
  else if c =? 102 then Some 12    (* f: form feed *)
  else if c =? 110 then Some 10    (* n: line feed *)
  else if c =? 114 then Some 13    (* r: carriage return *)
  else if c =? 116 then Some 9     (* t: tab *)
  else None.

Definition hex4 (a b c d : N) : option N :=
  match hex_value a, hex_value b, hex_value c, hex_value d with
  | Some x, Some y, Some z, Some w => Some (4096 * x + 256 * y + 16 * z + w)
  | _, _, _, _ => None
  end.

(** The rest of a string literal, after its opening quote: the string and
    what follows the closing quote. *)
Fixpoint lex_string (s : list N) : option (jsstring * list N) :=
  match s with
  | [] => None
  | c :: r =>
      if c =? 34 then Some ([], r)
      else if c =? 92 then
        match r with
        | [] => None
        | e :: r' =>
            if e =? 117 then
              match r' with
              | h1 :: h2 :: h3 :: h4 :: r'' =>
                  match hex4 h1 h2 h3 h4 with
                  | Some u =>
                      match lex_string r'' with
                      | Some (t, rest) => Some (u :: t, rest)
                      | None => None
                      end
                  | None => None
                  end
              | _ => None
              end
            else
              match unescape e with
              | Some u =>
                  match lex_string r' with
                  | Some (t, rest) => Some (u :: t, rest)
                  | None => None
                  end
              | None => None
              end
        end
      else if c <? 32 then None
      else
        match lex_string r with
        | Some (t, rest) => Some (c :: t, rest)
        | None => None
        end
  end.

Fixpoint span_digits (s : list N) : list N * list N :=
  match s with
  | c :: r =>
      if is_digit c then let (d, r') := span_digits r in (c :: d, r')
      else ([], s)
  | [] => ([], [])
  end.

(** [0], or a non-zero digit and more digits. *)
Definition lex_int (s : list N) : option (list N * list N) :=
  match s with
  | c :: r =>
      if c =? 48 then Some ([48], r)
      else if is_digit c then let (d, r') := span_digits r in Some (c :: d, r')
      else None
  | [] => None
  end.

(** An optional [.] and at least one digit. *)
Definition lex_frac (s : list N) : option (list N * list N) :=
  match s with
  | c :: r =>
      if c =? 46 then
        match span_digits r with
        | ([], _) => None
        | (d, r') => Some (c :: d, r')
        end
      else Some ([], s)
  | [] => Some ([], [])
  end.

(** An optional [e] or [E], an optional sign and at least one digit. *)
Definition lex_exp (s : list N) : option (list N * list N) :=
  match s with
  | c :: r =>
      if (c =? 101) || (c =? 69) then
        let (sign, r1) :=
          match r with
          | x :: r' => if (x =? 43) || (x =? 45) then ([x], r') else ([], r)
          | [] => ([], r)
          end in
        match span_digits r1 with
        | ([], _) => None
        | (d, r2) => Some (c :: sign ++ d, r2)
        end
      else Some ([], s)
  | [] => Some ([], [])
  end.

(** A number literal and what follows it. *)
Definition lex_number (s : list N) : option (jsstring * list N) :=
  let (sign, r0) :=
    match s with
    | c :: r => if c =? 45 then ([c], r) else ([], s)
    | [] => ([], s)
    end in
  match lex_int r0 with
  | None => None
  | Some (i, r1) =>
      match lex_frac r1 with
      | None => None
      | Some (f, r2) =>
          match lex_exp r2 with
          | None => None
          | Some (e, r3) => Some (sign ++ i ++ f ++ e, r3)
          end
      end
  end.

Fixpoint strip_prefix (p s : list N) : option (list N) :=
  match p, s with
  | [], _ => Some s
  | x :: p', y :: s' => if x =? y then strip_prefix p' s' else None
  | _ :: _, [] => None
  end.

(** Outcome of parsing a value at the head of a text. *)
Inductive PResult : Type :=
| POk (v : JsValue) (rest : list N)
| PSyntaxError
| PFuel.

(** Recursive descent over the JSON grammar, one function per
    non-terminal, each written over the parsers it calls. *)

(** A value, white space before it included. *)
Definition value_body
  (members : list (jsstring * JsValue) -> list N -> PResult)
  (elements : list JsValue -> list N -> PResult)
  (s : list N) : PResult :=
  match skip_ws s with
  | [] => PSyntaxError
  | c :: r =>
      if c =? 123 then                       (* opening brace *)
        match skip_ws r with
        | [] => PSyntaxError
        | d :: r' =>
            if d =? 125 then POk (JObj []) r'
            else members [] (d :: r')
        end
      else if c =? 91 then                   (* opening bracket *)
        match skip_ws r with
        | [] => PSyntaxError
        | d :: r' =>
            if d =? 93 then POk (JArr []) r'
            else elements [] (d :: r')
        end
      else if c =? 34 then
        match lex_string r with
        | Some (t, rest) => POk (JStr t) rest
        | None => PSyntaxError
        end
      else if c =? 116 then
        match strip_prefix (str "rue") r with
        | Some rest => POk (JBool true) rest
        | None => PSyntaxError
        end
      else if c =? 102 then
        match strip_prefix (str "alse") r with
        | Some rest => POk (JBool false) rest
        | None => PSyntaxError
        end
      else if c =? 110 then
        match strip_prefix (str "ull") r with
        | Some rest => POk JNull rest
        | None => PSyntaxError
        end
      else
        match lex_number (c :: r) with
        | Some (n, rest) => POk (JNum n) rest
        | None => PSyntaxError
        end
  end.

(** The members of an object, from the opening quote of a key on; [acc]
    holds the members read so far.  A key met again overwrites. *)
Definition members_body
  (value : list N -> PResult)
  (members : list (jsstring * JsValue) -> list N -> PResult)
  (acc : list (jsstring * JsValue)) (s : list N) : PResult :=
  match s with
  | [] => PSyntaxError
  | c :: r =>
      if c =? 34 then
        match lex_string r with
        | None => PSyntaxError
        | Some (k, r1) =>
            match skip_ws r1 with
            | [] => PSyntaxError
            | d :: r2 =>
                if d =? 58 then
                  match value r2 with
                  | POk v r3 =>
                      match skip_ws r3 with
                      | [] => PSyntaxError
                      | e :: r4 =>
                          if e =? 44 then
                            members (set_prop acc k v) (skip_ws r4)
                          else if e =? 125 then
                            POk (JObj (set_prop acc k v)) r4
                          else PSyntaxError
                      end
                  | PSyntaxError => PSyntaxError
                  | PFuel => PFuel
                  end
                else PSyntaxError
            end
        end
      else PSyntaxError
  end.

(** The elements of an array, from the first one on. *)
Definition elements_body
  (value : list N -> PResult)
  (elements : list JsValue -> list N -> PResult)
  (acc : list JsValue) (s : list N) : PResult :=
  match value s with
  | POk v r =>
      match skip_ws r with
      | [] => PSyntaxError
      | e :: r' =>
          if e =? 44 then elements (acc ++ [v]) r'
          else if e =? 93 then POk (JArr (acc ++ [v])) r'
          else PSyntaxError
      end
  | PSyntaxError => PSyntaxError
  | PFuel => PFuel
  end.

(** The knot, tied on a bound on the nesting of calls. *)
Fixpoint parse_value (fuel : nat) (s : list N) : PResult :=
  match fuel with
  | O => PFuel
  | S f => value_body (parse_members f) (parse_elements f) s
  end
with parse_members (fuel : nat) (acc : list (jsstring * JsValue))
  (s : list N) : PResult :=
  match fuel with
  | O => PFuel
  | S f => members_body (parse_value f) (parse_members f) acc s
  end
with parse_elements (fuel : nat) (acc : list JsValue) (s : list N)
  : PResult :=
  match fuel with
  | O => PFuel
  | S f => elements_body (parse_value f) (parse_elements f) acc s
  end.

(** [JSON.parse(text)]: [None] is the [SyntaxError] it throws.  The bound
    handed to the parser is never reached ([JSON_parse_fuel]). *)
Definition JSON_parse (text : jsstring) : option JsValue :=
  match parse_value (S (2 * List.length text)) text with
  | POk v rest =>
      match skip_ws rest with
      | [] => Some v
      | _ :: _ => None
      end
  | _ => None
  end.

(* ================================================================= *)
(** ** JSON.stringify of the QR data *)

Definition hex_digit (n : N) : N := if n <? 10 then 48 + n else 87 + n.

(** [\uXXXX] with lower-case digits. *)
Definition unicode_escape (c : N) : list N :=
  [92; 117; hex_digit (c / 4096 mod 16); hex_digit (c / 256 mod 16);
   hex_digit (c / 16 mod 16); hex_digit (c mod 16)].

Definition is_lead_surrogate (c : N) : bool := (55296 <=? c) && (c <=? 56319).
Definition is_trail_surrogate (c : N) : bool := (56320 <=? c) && (c <=? 57343).

(** One code point that is a single code unit, as [QuoteJSONString] writes
    it: the two-character escapes, [\uXXXX] for the other control
    characters and for a surrogate that stands alone, itself otherwise. *)
Definition quote_unit (c : N) : list N :=
  if c =? 8 then [92; 98]
  else if c =? 9 then [92; 116]
  else if c =? 10 then [92; 110]
  else if c =? 12 then [92; 102]
  else if c =? 13 then [92; 114]
  else if c =? 34 then [92; 34]
  else if c =? 92 then [92; 92]
  else if (c <? 32) || is_lead_surrogate c || is_trail_surrogate c
       then unicode_escape c
  else [c].

(** The characters between the quotes.  A lead surrogate followed by a
    trail surrogate is one code point and is written as it is. *)
Fixpoint quote_body (s : jsstring) : list N :=
  match s with
  | [] => []
  | c :: r =>
      if is_lead_surrogate c then
        match r with
        | d :: r' =>
            if is_trail_surrogate d then c :: d :: quote_body r'
            else quote_unit c ++ quote_body r
        | [] => quote_unit c
        end
      else quote_unit c ++ quote_body r
  end.

Definition QuoteJSONString (s : jsstring) : list N :=
  34 :: quote_body s ++ [34].

(** [JSON.stringify({ userId, name, bus, role })] for four strings: the
    members in the order of the literal, no white space
    (server.js, lines 78-79). *)
Definition encode (userId name bus role : jsstring) : jsstring :=
  [123] ++ QuoteJSONString (str "userId") ++ [58] ++ QuoteJSONString userId
  ++ [44] ++ QuoteJSONString (str "name") ++ [58] ++ QuoteJSONString name
  ++ [44] ++ QuoteJSONString (str "bus") ++ [58] ++ QuoteJSONString bus
  ++ [44] ++ QuoteJSONString (str "role") ++ [58] ++ QuoteJSONString role
  ++ [125].

(** The object the QR data is: what [encode] serialises. *)
Definition qrData (userId name bus role : jsstring) : JsValue :=
  JObj [(str "userId", JStr userId); (str "name", JStr name);
        (str "bus", JStr bus); (str "role", JStr role)].

Local Close Scope N_scope.

(* ================================================================= *)
(** ** Dates (ECMA-262, Date objects) *)

Local Open Scope Z_scope.

Definition msPerDay : Z := 86400000.
Definition msPerHour : Z := 3600000.
Definition msPerMinute : Z := 60000.
Definition msPerSecond : Z := 1000.

Definition Day (t : Z) : Z := t / msPerDay.
Definition TimeWithinDay (t : Z) : Z := t mod msPerDay.

Definition DaysInYear (y : Z) : Z :=
  if negb (y mod 4 =? 0) then 365
  else if negb (y mod 100 =? 0) then 366
  else if negb (y mod 400 =? 0) then 365
  else 366.

Definition DayFromYear (y : Z) : Z :=
  365 * (y - 1970) + (y - 1969) / 4 - (y - 1901) / 100 + (y - 1601) / 400.

Definition TimeFromYear (y : Z) : Z := msPerDay * DayFromYear y.

(** The year a day number falls in: an estimate from the mean length of a
    year, corrected by one where needed ([YearFromTime_largest] shows it
    is the year the standard asks for). *)
Definition YearFromDay (d : Z) : Z :=
  let y := 1970 + (d * 400) / 146097 in
  if DayFromYear (y + 1) <=? d then y + 1
  else if DayFromYear y <=? d then y
  else y - 1.

(** The largest [y] with [TimeFromYear y <= t]. *)
Definition YearFromTime (t : Z) : Z := YearFromDay (Day t).

Definition InLeapYear (t : Z) : Z :=
  if DaysInYear (YearFromTime t) =? 366 then 1 else 0.

Definition DayWithinYear (t : Z) : Z := Day t - DayFromYear (YearFromTime t).

Definition MonthFromTime (t : Z) : Z :=
  let d := DayWithinYear t in
  let l := InLeapYear t in
  if d <? 31 then 0
  else if d <? 59 + l then 1
  else if d <? 90 + l then 2
  else if d <? 120 + l then 3
  else if d <? 151 + l then 4
  else if d <? 181 + l then 5
  else if d <? 212 + l then 6
  else if d <? 243 + l then 7
  else if d <? 273 + l then 8
  else if d <? 304 + l then 9
  else if d <? 334 + l then 10
  else 11.

Definition DateFromTime (t : Z) : Z :=
  let d := DayWithinYear t in
  let l := InLeapYear t in
  match MonthFromTime t with
  | 0 => d + 1
  | 1 => d - 30
  | 2 => d - 58 - l
  | 3 => d - 89 - l
  | 4 => d - 119 - l
  | 5 => d - 150 - l
  | 6 => d - 180 - l
  | 7 => d - 211 - l
  | 8 => d - 242 - l
  | 9 => d - 272 - l
  | 10 => d - 303 - l
  | _ => d - 333 - l
  end.

Definition MakeTime (hour min sec ms : Z) : Z :=
  hour * msPerHour + min * msPerMinute + sec * msPerSecond + ms.

(** Days of the year before month [mn] (0 is January, 12 stands for the
    whole year); [l] is 1 in a leap year. *)
Definition DaysBeforeMonth (mn l : Z) : Z :=
  match mn with
  | 0 => 0
  | 1 => 31
  | 2 => 59 + l
  | 3 => 90 + l
  | 4 => 120 + l
  | 5 => 151 + l
  | 6 => 181 + l
  | 7 => 212 + l
  | 8 => 243 + l
  | 9 => 273 + l
  | 10 => 304 + l
  | 11 => 334 + l
  | _ => 365 + l
  end.

(** [MakeDay(year, month, date)]: the day number of the first of month
    [month mod 12] in year [year + month / 12], moved by [date - 1] days.
    (Where that first day has no time value the standard answers NaN; the
    handlers pass [date] 0 or 1, and [TimeClip] then rejects the result
    anyway.) *)
Definition MakeDay (year month date : Z) : Z :=
  let ym := year + month / 12 in
  let mn := month mod 12 in
  DayFromYear ym
  + DaysBeforeMonth mn (if DaysInYear ym =? 366 then 1 else 0)
  + date - 1.

Definition MakeDate (day time : Z) : Z := day * msPerDay + time.

(** [None] is NaN, the time value of an invalid date. *)
Definition TimeClip (t : Z) : option Z :=
  if Z.abs t <=? 8640000000000000 then Some t else None.

(** The year argument of the constructor: 0 to 99 mean 1900 to 1999. *)
Definition MakeFullYear (y : Z) : Z :=
  if (0 <=? y) && (y <=? 99) then 1900 + y else y.

(** The arguments for which the engine of Node (V8) computes [MakeDay]:
    it answers NaN for a year beyond 1,000,000 or a month beyond
    10,000,000 in absolute value, where the standard sets no bound of its
    own on the two. *)
Definition MakeDay_in_range (year month : Z) : bool :=
  (Z.abs year <=? 1000000) && (Z.abs month <=? 10000000).

(** [new Date(year, month, date, hours, minutes, seconds)] for integer
    arguments; [None] is an invalid date. *)
Definition Date_new (year month date hours minutes seconds : Z) : option Z :=
  if MakeDay_in_range (MakeFullYear year) month then
    TimeClip (MakeDate (MakeDay (MakeFullYear year) month date)
                       (MakeTime hours minutes seconds 0))
  else None.

(** [d.setHours(hour, min, sec, ms)] on a valid date [t]: the new time
    value, which the call also returns. *)
Definition Date_setHours (t hour min sec ms : Z) : option Z :=
  TimeClip (MakeDate (Day t) (MakeTime hour min sec ms)).

(** [d.getDate()]. *)
Definition Date_getDate (t : Z) : Z := DateFromTime t.

(** Lines 140-142 and 185-187: [today.setHours(0, 0, 0, 0)] moves [today]
    to the start of its day and [start] copies it; the second call works on
    the moved [today].  [None] when one of the two dates is invalid. *)
Definition day_window (today : Z) : option (Z * Z) :=
  match Date_setHours today 0 0 0 0 with
  | None => None
  | Some today' =>
      match Date_setHours today' 23 59 59 999 with
      | None => None
      | Some e => Some (today', e)
      end
  end.

(* ================================================================= *)
(** ** The two collections *)

Inductive Role : Type := RoleUser | RoleAdmin.

Inductive Status : Type := Present | Absent.

Definition Role_eqb (a b : Role) : bool :=
  match a, b with
  | RoleUser, RoleUser | RoleAdmin, RoleAdmin => true
  | _, _ => false
  end.

Definition Status_eqb (a b : Status) : bool :=
  match a, b with
  | Present, Present | Absent, Absent => true
  | _, _ => false
  end.

(** Position and value of the first element that satisfies [p]: the
    document a [findOne] returns. *)
Fixpoint find_first {A : Type} (p : A -> bool) (l : list A)
  : option (nat * A) :=
  match l with
  | [] => None
  | x :: r =>
      if p x then Some (O, x)
      else match find_first p r with
           | Some (i, y) => Some (S i, y)
           | None => None
           end
  end.

(** Writing a document back at its position. *)
Fixpoint replace_at {A : Type} (i : nat) (x : A) (l : list A) : list A :=
  match l, i with
  | [], _ => []
  | _ :: r, O => x :: r
  | y :: r, S j => y :: replace_at j x r
  end.

Module User.

(** [userSchema]. *)
Record Doc : Type := {
  name : jsstring;
  userId : jsstring;
  bus : jsstring;
  role : Role;
  password : jsstring;
  qrCode : option jsstring;
  attendance : jsstring
}.

Definition set_attendance (u : Doc) (a : jsstring) : Doc :=
  {| name := name u; userId := userId u; bus := bus u; role := role u;
     password := password u; qrCode := qrCode u; attendance := a |}.

(** [User.findOne({ userId: ... })], the filter already cast to a
    condition on [userId]. *)
Definition findOne (cond : jsstring -> bool) (coll : list Doc)
  : option (nat * Doc) :=
  find_first (fun u => cond (userId u)) coll.

(** [User.find({ role: "user" })]. *)
Definition find_role_user (coll : list Doc) : list Doc :=
  filter (fun u => Role_eqb (role u) RoleUser) coll.

(** [User.find({ bus: busNumber, role: "user" })]. *)
Definition find_bus_role_user (busNumber : jsstring) (coll : list Doc)
  : list Doc :=
  filter (fun u => jsstring_eqb (bus u) busNumber
                   && Role_eqb (role u) RoleUser) coll.

Definition Role_toJSON (r : Role) : JsValue :=
  match r with
  | RoleUser => JStr (str "user")
  | RoleAdmin => JStr (str "admin")
  end.

(** The fields of a document, as [res.json] sends them. *)
Definition fields (u : Doc) : list (jsstring * JsValue) :=
  [(str "name", JStr (name u)); (str "userId", JStr (userId u));
   (str "bus", JStr (bus u)); (str "role", Role_toJSON (role u));
   (str "password", JStr (password u))]
  ++ match qrCode u with
     | Some q => [(str "qrCode", JStr q)]
     | None => []
     end
  ++ [(str "attendance", JStr (attendance u))].

(** A document under a projection that excludes the listed paths. *)
Definition project (excluded : list jsstring) (u : Doc) : JsValue :=
  JObj (filter (fun kv => negb (existsb (jsstring_eqb (fst kv)) excluded))
               (fields u)).

End User.

Module Attendance.

(** [attendanceSchema]. *)
Record Doc : Type := {
  userId : jsstring;
  bus : jsstring;
  date : Z;
  status : Status
}.

(** [new Attendance({ userId: id, bus: b, status: s })]: the date takes its
    default, the reading [now] of the clock. *)
Definition create (id b : jsstring) (s : Status) (now : Z) : Doc :=
  {| userId := id; bus := b; date := now; status := s |}.

(** [{ userId: id, date: { $gte: lo, $lt: hi } }]. *)
Definition in_day (id : jsstring) (lo hi : Z) (a : Doc) : bool :=
  jsstring_eqb (userId a) id && (lo <=? date a) && (date a <? hi).

(** [{ userId: id, date: { $gte: lo, $lte: hi } }]. *)
Definition in_range (id : jsstring) (lo hi : Z) (a : Doc) : bool :=
  jsstring_eqb (userId a) id && (lo <=? date a) && (date a <=? hi).

(** [Attendance.findOne] with the filter of lines 144-147 and 191-194. *)
Definition findOne (id : jsstring) (lo hi : Z) (coll : list Doc)
  : option Doc :=
  find (in_day id lo hi) coll.

(** [Attendance.find] with the filter of line 164. *)
Definition find_range (id : jsstring) (lo hi : Z) (coll : list Doc)
  : list Doc :=
  filter (in_range id lo hi) coll.

End Attendance.

Record Store : Type := {
  users : list User.Doc;
  attendances : list Attendance.Doc
}.

(* ================================================================= *)
(** ** The handlers *)

(** Responses of [POST /api/qr/scan], under the names of the error
    taxonomy. *)
Inductive ScanResponse : Type :=
| BadRequest            (* 400, missing scanned data or admin bus *)
| MalformedPayload      (* 400, invalid QR format *)
| MissingIdentityField  (* 400, QR missing userId field *)
| IdentityNotFound      (* 404, user not found *)
| GroupMismatch         (* 400, invalid user for this bus *)
| ScanSuccess (user bus : jsstring)   (* 200, attendance marked present *)
| ScanFailure.          (* 500, from the outer catch *)

(** Outcome of lines 121-128. *)
Inductive Decoded : Type :=
| DecodedOk (parsed : JsValue)
| DecodeMalformed         (* JSON.parse threw *)
| DecodeMissingIdentity   (* parsed.userId is falsy *)
| DecodeThrows.           (* reading parsed.userId threw *)

(** Result of [GET /api/attendance/:userId/:month/:year]. *)
Record Summary : Type := {
  totalDays : Z;
  presentDays : Z;
  absentDays : Z;
  details : list Attendance.Doc
}.

Section Handlers.
Context `{Platform}.

(** Lines 121-128. *)
Definition decode (scannedData : JsValue) : Decoded :=
  match (match scannedData with
         | JStr text => JSON_parse text
         | _ => Some scannedData
         end) with
  | None => DecodeMalformed
  | Some parsed =>
      match get_prop parsed (str "userId") with
      | None => DecodeThrows
      | Some uid => if truthy uid then DecodedOk parsed
                    else DecodeMissingIdentity
      end
  end.

(** The filter [{ userId: v }] as a condition on a document's [userId].
    A string is looked up as it is written: this is the filter of a key
    that is well formed, which the store takes as it is
    ([key_well_formed]). *)
Definition userId_filter (v : JsValue) : option (jsstring -> bool) :=
  match v with
  | JStr s => Some (fun id => jsstring_eqb id s)
  | _ => cast_userId_filter v
  end.

(** [POST /api/qr/scan] (lines 115-155).  [today] is the clock at line 140
    and [stamp] the clock when the new attendance document takes its
    default date. *)
Definition scan (today stamp : Z) (scannedData adminBus : JsValue)
  (st : Store) : ScanResponse * Store :=
  if negb (truthy scannedData) || negb (truthy adminBus) then (BadRequest, st)
  else
    match decode scannedData with
    | DecodeMalformed => (MalformedPayload, st)
    | DecodeMissingIdentity => (MissingIdentityField, st)
    | DecodeThrows => (ScanFailure, st)
    | DecodedOk parsed =>
        match get_prop parsed (str "userId"), get_prop parsed (str "bus") with
        | Some uid, Some pbus =>
            match userId_filter uid with
            | None => (ScanFailure, st)
            | Some cond =>
                match User.findOne cond (users st) with
                | None => (IdentityNotFound, st)
                | Some (i, user) =>
                    if negb (strict_eq pbus adminBus) then (GroupMismatch, st)
                    else
                      let user' := User.set_attendance user (str "Present") in
                      let st1 := {| users := replace_at i user' (users st);
                                    attendances := attendances st |} in
                      match day_window today with
                      | None => (ScanFailure, st1)
                      | Some (start, end_) =>
                          let ok := ScanSuccess (User.name user')
                                                (User.bus user') in
                          match Attendance.findOne (User.userId user')
                                  start end_ (attendances st1) with
                          | Some _ => (ok, st1)
                          | None =>
                              (ok,
                               {| users := users st1;
                                  attendances :=
                                    attendances st1
                                    ++ [Attendance.create (User.userId user')
                                          (User.bus user') Present stamp] |})
                          end
                      end
                end
            end
        | _, _ => (ScanFailure, st)
        end
    end.

(** The loop of lines 190-196 over the remaining identities; [k] counts
    the iterations and [stamp k] is the clock when iteration [k] builds its
    document. *)
Fixpoint sweep (start end_ : Z) (stamp : nat -> Z) (k : nat)
  (roster : list User.Doc) (coll : list Attendance.Doc)
  : list Attendance.Doc :=
  match roster with
  | [] => coll
  | user :: rest =>
      match Attendance.findOne (User.userId user) start end_ coll with
      | Some _ => sweep start end_ stamp (S k) rest coll
      | None =>
          sweep start end_ stamp (S k) rest
            (coll ++ [Attendance.create (User.userId user) (User.bus user)
                        Absent (stamp k)])
      end
  end.

(** [POST /api/auto-absent] (lines 183-202): [None] is the 500 response.
    With an empty roster no query is made, so an invalid window goes
    unnoticed. *)
Definition autoAbsent (today : Z) (stamp : nat -> Z) (st : Store)
  : option Store :=
  match User.find_role_user (users st) with
  | [] => Some st
  | roster =>
      match day_window today with
      | None => None
      | Some (start, end_) =>
          Some {| users := users st;
                  attendances :=
                    sweep start end_ stamp O roster (attendances st) |}
      end
  end.

End Handlers.

(** [GET /api/attendance/:userId/:month/:year] (lines 158-180) for route
    parameters whose numeric values are the integers [month] and [year];
    [None] is the 500 response, sent when a bound of the query is an
    invalid date.  The date read at line 166 lies between the two bounds,
    so it is valid when they are ([monthlySummary_last_valid]). *)
Definition monthlySummary (userId : jsstring) (month year : Z) (st : Store)
  : option Summary :=
  match Date_new year (month - 1) 1 0 0 0,
        Date_new year month 0 23 59 59,
        Date_new year month 0 0 0 0 with
  | Some start, Some end_, Some last =>
      let records := Attendance.find_range userId start end_ (attendances st) in
      let present :=
        Z.of_nat (List.length
          (filter (fun r => Status_eqb (Attendance.status r) Present) records)) in
      let total := Date_getDate last in
      Some {| totalDays := total;
              presentDays := present;
              absentDays := total - present;
              details := records |}
  | _, _, _ => None
  end.

(** [GET /api/users/:bus] (lines 205-213): the documents sent, and the
    store after the request. *)
Definition listByGroup (busNumber : jsstring) (st : Store)
  : list JsValue * Store :=
  (map (User.project [str "password"; str "qrCode"])
       (User.find_bus_role_user busNumber (users st)),
   st).

(* ================================================================= *)
(** ** Registration and login *)

(** What registration and login leave to the platform: bcrypt, the cast of
    a value that is not a string at a String path of a schema, and
    [JSON.stringify] of a value that is not a string.  No property of these
    is assumed anywhere. *)
Class Accounts : Type := {
  (** [bcrypt.hash(password, 10)], given the salt it draws. *)
  bcrypt_hash : jsstring -> jsstring -> jsstring;
  (** [bcrypt.compare(password, hash)]. *)
  bcrypt_compare : jsstring -> jsstring -> bool;
  (** The String cast of a value that is not a string: [None] when it
      throws. *)
  cast_String : JsValue -> option jsstring;
  (** [JSON.stringify(v)] for a [v] of a request body that is not a
      string. *)
  stringify_value : JsValue -> jsstring
}.

(** White space and line terminators, as [String.prototype.trim] strips
    them. *)
Definition is_trim_space (c : N) : bool :=
  ((9 <=? c) && (c <=? 13) || (c =? 32) || (c =? 160) || (c =? 5760)
   || (8192 <=? c) && (c <=? 8202) || (c =? 8232) || (c =? 8233)
   || (c =? 8239) || (c =? 8287) || (c =? 12288) || (c =? 65279))%N.

Fixpoint trim_start (s : jsstring) : jsstring :=
  match s with
  | c :: r => if is_trim_space c then trim_start r else s
  | [] => []
  end.

(** [s.trim()]. *)
Definition trim (s : jsstring) : jsstring :=
  rev (trim_start (rev (trim_start s))).

(** A string of a request as the store takes it.  The store keeps its
    strings in UTF-8 and the driver writes a surrogate that is not part
    of a pair as U+FFFD: the string written, and the string a filter looks
    for, is [s.toWellFormed()].  A string read from the store is well
    formed and goes back to it as it is. *)
Fixpoint toWellFormed (s : jsstring) : jsstring :=
  match s with
  | [] => []
  | c :: r =>
      if is_lead_surrogate c then
        match r with
        | d :: r' =>
            if is_trail_surrogate d then c :: d :: toWellFormed r'
            else 65533%N :: toWellFormed r
        | [] => [65533%N]
        end
      else if is_trail_surrogate c then 65533%N :: toWellFormed r
      else c :: toWellFormed r
  end.

(** A document as [save()] writes it. *)
Definition as_stored (u : User.Doc) : User.Doc :=
  {| User.name := toWellFormed (User.name u);
     User.userId := toWellFormed (User.userId u);
     User.bus := toWellFormed (User.bus u);
     User.role := User.role u;
     User.password := toWellFormed (User.password u);
     User.qrCode := option_map toWellFormed (User.qrCode u);
     User.attendance := toWellFormed (User.attendance u) |}.

(** Responses of [POST /api/users/register]. *)
Inductive RegisterResponse : Type :=
| RegisterBadRequest                             (* 400, all fields are required *)
| Registered (userId : jsstring) (role : JsValue)  (* 201 *)
| RegisterFailure.                               (* 500, from the catch *)

(** Responses of [POST /api/users/login]. *)
Inductive LoginResponse : Type :=
| LoginBadRequest         (* 400, enter both ID and password *)
| LoginNotFound           (* 404, user not found *)
| LoginInvalidPassword    (* 400, invalid password *)
| LoginOk (name userId bus : jsstring) (role : Role)
          (qrCode : option jsstring)            (* 200 *)
| LoginFailure.           (* 500, from the catch *)

Section AccountHandlers.
Context `{Platform} `{Accounts}.

(** A value at a String path of a schema. *)
Definition String_path (v : JsValue) : option jsstring :=
  match v with
  | JStr s => Some s
  | _ => cast_String v
  end.

(** The validator of a required String path: the cast went through and
    the string is not empty. *)
Definition required_String (v : JsValue) : option jsstring :=
  match String_path v with
  | Some (c :: s) => Some (c :: s)
  | _ => None
  end.

(** The path [role]: required, and one of the two values of the enum. *)
Definition role_path (v : JsValue) : option Role :=
  match required_String v with
  | Some s =>
      if jsstring_eqb s (str "user") then Some RoleUser
      else if jsstring_eqb s (str "admin") then Some RoleAdmin
      else None
  | None => None
  end.

(** [new User({ name, bus, role, userId, password })], the document in
    memory, as validation lets it through at [save()]: [None] is a
    validation error.  The strings are those of the request;
    [attendance] takes its default. *)
Definition new_User (name bus role userId : JsValue) (password : jsstring)
  : option User.Doc :=
  match required_String name, required_String userId, required_String bus,
        role_path role, password with
  | Some n, Some i, Some b, Some r, c :: p =>
      Some {| User.name := n; User.userId := i; User.bus := b;
              User.role := r; User.password := c :: p;
              User.qrCode := None; User.attendance := str "Absent" |}
  | _, _, _, _, _ => None
  end.

(** A member value of the QR data under [JSON.stringify]. *)
Definition stringify_member (v : JsValue) : jsstring :=
  match v with
  | JStr s => QuoteJSONString s
  | _ => stringify_value v
  end.

(** [JSON.stringify({ userId: newUser.userId, name, bus, role })]
    (lines 78-79): [userId] is the document's, the three others are the
    values of the request. *)
Definition stringify_qrData (userId : jsstring) (name bus role : JsValue)
  : jsstring :=
  ([123] ++ QuoteJSONString (str "userId") ++ [58] ++ QuoteJSONString userId
   ++ [44] ++ QuoteJSONString (str "name") ++ [58] ++ stringify_member name
   ++ [44] ++ QuoteJSONString (str "bus") ++ [58] ++ stringify_member bus
   ++ [44] ++ QuoteJSONString (str "role") ++ [58] ++ stringify_member role
   ++ [125])%N.

Definition set_qrCode (u : User.Doc) (q : jsstring) : User.Doc :=
  {| User.name := User.name u; User.userId := User.userId u;
     User.bus := User.bus u; User.role := User.role u;
     User.password := User.password u; User.qrCode := Some q;
     User.attendance := User.attendance u |}.

(** [POST /api/users/register] (lines 65-87).  [salt] is what
    [bcrypt.hash] draws and [uuid] what [uuidv4()] would answer.  A
    password that is not a string makes [bcrypt.hash] throw.  [save()]
    writes the document as the store takes it, and the unique index on
    [userId] refuses a key that a stored identity carries; the answer
    shows the key of the document in memory. *)
Definition register (salt uuid : jsstring)
  (name userId bus role password : JsValue) (st : Store)
  : RegisterResponse * Store :=
  if negb (truthy name) || negb (truthy bus) || negb (truthy role)
     || negb (truthy password) || negb (truthy userId)
  then (RegisterBadRequest, st)
  else
    match password with
    | JStr pw =>
        let hashedPassword := bcrypt_hash salt pw in
        let finalUserId := if truthy userId then userId else JStr uuid in
        match new_User name bus role finalUserId hashedPassword with
        | None => (RegisterFailure, st)
        | Some newUser0 =>
            let newUser :=
              if strict_eq role (JStr (str "user")) then
                set_qrCode newUser0
                  (stringify_qrData (User.userId newUser0) name bus role)
              else newUser0 in
            let written := as_stored newUser in
            if existsb (fun u => jsstring_eqb (User.userId u)
                                   (User.userId written)) (users st)
            then (RegisterFailure, st)
            else (Registered (User.userId newUser) role,
                  {| users := users st ++ [written];
                     attendances := attendances st |})
        end
    | _ => (RegisterFailure, st)
    end.

(** [POST /api/users/login] (lines 90-112).  [userId.trim()] throws for a
    [userId] that is not a string, [bcrypt.compare] for a password that is
    not one; the filter looks for the trimmed ID as the store takes it;
    the handler writes nothing. *)
Definition login (userId password : JsValue) (st : Store) : LoginResponse :=
  if negb (truthy userId) || negb (truthy password) then LoginBadRequest
  else
    match userId with
    | JStr id =>
        match User.findOne
                (fun k => jsstring_eqb k (toWellFormed (trim id)))
                (users st) with
        | None => LoginNotFound
        | Some (_, user) =>
            match password with
            | JStr pw =>
                if bcrypt_compare pw (User.password user)
                then LoginOk (User.name user) (User.userId user)
                       (User.bus user) (User.role user) (User.qrCode user)
                else LoginInvalidPassword
            | _ => LoginFailure
            end
        end
    | _ => LoginFailure
    end.

End AccountHandlers.

(* ================================================================= *)
(** ** Scan and sweep when the store fails *)

(** The handlers above are those of a store that serves every operation.
    Here the operations a request asks of the store are numbered from 0
    in the order the handler awaits them, and [fault] is the one that
    fails, if any: it has no effect on the store, the handler stops there
    and its catch answers 500. *)
Definition fails (fault : option nat) (n : nat) : bool :=
  match fault with
  | Some m => Nat.eqb m n
  | None => false
  end.

Section StoreFailures.
Context `{Platform}.

(** [POST /api/qr/scan] (lines 115-155).  The operations are the lookup
    of the identity (line 130), [user.save()] (line 138), the query of the
    ledger (line 144) and the insertion (line 149). *)
Definition scan_under (fault : option nat) (today stamp : Z)
  (scannedData adminBus : JsValue) (st : Store) : ScanResponse * Store :=
  if negb (truthy scannedData) || negb (truthy adminBus) then (BadRequest, st)
  else
    match decode scannedData with
    | DecodeMalformed => (MalformedPayload, st)
    | DecodeMissingIdentity => (MissingIdentityField, st)
    | DecodeThrows => (ScanFailure, st)
    | DecodedOk parsed =>
        match get_prop parsed (str "userId"), get_prop parsed (str "bus") with
        | Some uid, Some pbus =>
            match userId_filter uid with
            | None => (ScanFailure, st)
            | Some cond =>
                if fails fault 0 then (ScanFailure, st)
                else
                match User.findOne cond (users st) with
                | None => (IdentityNotFound, st)
                | Some (i, user) =>
                    if negb (strict_eq pbus adminBus) then (GroupMismatch, st)
                    else if fails fault 1 then (ScanFailure, st)
                    else
                      let user' := User.set_attendance user (str "Present") in
                      let st1 := {| users := replace_at i user' (users st);
                                    attendances := attendances st |} in
                      match day_window today with
                      | None => (ScanFailure, st1)
                      | Some (start, end_) =>
                          let ok := ScanSuccess (User.name user')
                                                (User.bus user') in
                          if fails fault 2 then (ScanFailure, st1)
                          else
                          match Attendance.findOne (User.userId user')
                                  start end_ (attendances st1) with
                          | Some _ => (ok, st1)
                          | None =>
                              if fails fault 3 then (ScanFailure, st1)
                              else
                              (ok,
                               {| users := users st1;
                                  attendances :=
                                    attendances st1
                                    ++ [Attendance.create (User.userId user')
                                          (User.bus user') Present stamp] |})
                          end
                      end
                end
            end
        | _, _ => (ScanFailure, st)
        end
    end.

(** The loop of lines 190-196: each iteration asks one query and, when it
    finds nothing, one insertion; [n] is the number of the next
    operation.  [false] says that the loop was left by a failure. *)
Fixpoint sweep_under (fault : option nat) (n : nat) (start end_ : Z)
  (stamp : nat -> Z) (k : nat) (roster : list User.Doc)
  (coll : list Attendance.Doc) : bool * list Attendance.Doc :=
  match roster with
  | [] => (true, coll)
  | user :: rest =>
      if fails fault n then (false, coll)
      else
        match Attendance.findOne (User.userId user) start end_ coll with
        | Some _ => sweep_under fault (S n) start end_ stamp (S k) rest coll
        | None =>
            if fails fault (S n) then (false, coll)
            else
              sweep_under fault (S (S n)) start end_ stamp (S k) rest
                (coll ++ [Attendance.create (User.userId user) (User.bus user)
                            Absent (stamp k)])
        end
  end.

(** [POST /api/auto-absent] (lines 183-202): [true] is the answer 200,
    [false] the 500.  Operation 0 is the query of the roster
    (line 188). *)
Definition autoAbsent_under (fault : option nat) (today : Z)
  (stamp : nat -> Z) (st : Store) : bool * Store :=
  if fails fault 0 then (false, st)
  else
    match User.find_role_user (users st) with
    | [] => (true, st)
    | roster =>
        match day_window today with
        | None => (false, st)
        | Some (start, end_) =>
            (fst (sweep_under fault 1 start end_ stamp O roster
                    (attendances st)),
             {| users := users st;
                attendances :=
                  snd (sweep_under fault 1 start end_ stamp O roster
                         (attendances st)) |})
        end
    end.

End StoreFailures.

(* ================================================================= *)
(** ** Vocabulary of the statements *)

Section Vocabulary.
Context `{Platform}.

(** The group field of the decoded payload, when decoding succeeds. *)
Definition decoded_group (scannedData : JsValue) : option JsValue :=
  match decode scannedData with
  | DecodedOk parsed => get_prop parsed (str "bus")
  | _ => None
  end.

(** The identity the decoded payload names in the store, with its
    position, when decoding succeeds and there is one. *)
Definition scanned_identity (scannedData : JsValue) (st : Store)
  : option (nat * User.Doc) :=
  match decode scannedData with
  | DecodedOk parsed =>
      match get_prop parsed (str "userId") with
      | Some uid =>
          match userId_filter uid with
          | Some cond => User.findOne cond (users st)
          | None => None
          end
      | None => None
      end
  | _ => None
  end.

(** The condition the decoded identity key puts on the key of a stored
    identity, when decoding succeeds and the store can cast the key to a
    filter. *)
Definition decoded_filter (scannedData : JsValue)
  : option (jsstring -> bool) :=
  match decode scannedData with
  | DecodedOk parsed =>
      match get_prop parsed (str "userId") with
      | Some uid => userId_filter uid
      | None => None
      end
  | _ => None
  end.

End Vocabulary.

(** The attendance document a scan inserts for identity [u]. *)
Definition present_entry (u : User.Doc) (stamp : Z) : Attendance.Doc :=
  Attendance.create (User.userId u) (User.bus u) Present stamp.

(** The attendance document the sweep inserts for identity [u]. *)
Definition absent_entry (u : User.Doc) (stamp : Z) : Attendance.Doc :=
  Attendance.create (User.userId u) (User.bus u) Absent stamp.

(** The entries of identity [id] dated within the calendar day of [today]:
    from its midnight up to, and excluding, the next midnight. *)
Definition entries_of_day (id : jsstring) (today : Z)
  (coll : list Attendance.Doc) : list Attendance.Doc :=
  filter (fun a => jsstring_eqb (Attendance.userId a) id
                   && (Day (Attendance.date a) =? Day today)) coll.

(** An identity key that some Identity record carries. *)
Definition known_identity (id : jsstring) (st : Store) : Prop :=
  exists u, In u (users st) /\ User.userId u = id.

(** Every LedgerEntry belongs to a registered identity. *)
Definition ledger_refers_to_identities (st : Store) : Prop :=
  forall a, In a (attendances st) -> known_identity (Attendance.userId a) st.

(** An instant of the day of [today], before its last millisecond. *)
Definition before_last_ms (today t : Z) : Prop :=
  Day t = Day today /\ TimeWithinDay t < msPerDay - 1.

(** The standard leap-year rule. *)
Definition spec_leap_year (y : Z) : bool :=
  (y mod 4 =? 0) && (negb (y mod 100 =? 0) || (y mod 400 =? 0)).

(** The number of days of month [month] (1 to 12) of [year]. *)
Definition spec_days_in_month (year month : Z) : Z :=
  match month with
  | 1 | 3 | 5 | 7 | 8 | 10 | 12 => 31
  | 4 | 6 | 9 | 11 => 30
  | 2 => if spec_leap_year year then 29 else 28
  | _ => 0
  end.

(** The month window of the summary, in calendar terms: the instants whose
    date is in month [month] of [year], up to 23:59:59 of its last day. *)
Definition spec_in_month_window (year month t : Z) : bool :=
  (YearFromTime t =? year) && (MonthFromTime t =? month - 1)
  && ((DateFromTime t <? spec_days_in_month year month)
      || (TimeWithinDay t <=? MakeTime 23 59 59 0)).

(** The Present rows of [id] in the month window, counted. *)
Definition spec_present_count (id : jsstring) (month year : Z)
  (coll : list Attendance.Doc) : Z :=
  Z.of_nat (List.length
    (filter (fun a => jsstring_eqb (Attendance.userId a) id
                      && spec_in_month_window year month (Attendance.date a)
                      && Status_eqb (Attendance.status a) Present) coll)).

(** Years the [Date] constructor reads as written and whose months all
    have time values. *)
Definition valid_year (year : Z) : Prop :=
  (year < 0 \/ 99 < year) /\ -271820 <= year <= 275759.

(** 1 in a leap year, as [InLeapYear] has it. *)
Definition leap_flag (y : Z) : Z := if DaysInYear y =? 366 then 1 else 0.

(** What a roster listing shows of an identity. *)
Definition public_view (u : User.Doc) : JsValue :=
  JObj [(str "name", JStr (User.name u)); (str "userId", JStr (User.userId u));
        (str "bus", JStr (User.bus u));
        (str "role", User.Role_toJSON (User.role u));
        (str "attendance", JStr (User.attendance u))].

(** Two identities that differ at most in credential hash and QR payload. *)
Definition same_public (u v : User.Doc) : Prop :=
  User.name u = User.name v /\ User.userId u = User.userId v /\
  User.bus u = User.bus v /\ User.role u = User.role v /\
  User.attendance u = User.attendance v.

(** A parser call that stays within its bound and, when it succeeds,
    leaves less text than it was given. *)
Definition consumes (p : list N -> PResult) (s : list N) : Prop :=
  p s <> PFuel /\
  forall v r, p s = POk v r -> (List.length r < List.length s)%nat.

(** One more character in front of a lexed string. *)
Definition lex_cons (c : N) (o : option (jsstring * list N))
  : option (jsstring * list N) :=
  match o with
  | Some (t, rest) => Some (c :: t, rest)
  | None => None
  end.

(** A platform to evaluate examples on.  The handlers consult the platform
    for numbers and for identity filters that are not strings; the examples
    contain neither.  It reads a number as zero when its mantissa has no
    other digit than 0, compares numbers by their text, and casts no
    filter. *)
Definition literal_nonzero (lit : jsstring) : bool :=
  existsb (fun c => (49 <=? c)%N && (c <=? 57)%N)
    ((fix mantissa (s : list N) : list N :=
        match s with
        | [] => []
        | c :: r => if ((c =? 101) || (c =? 69))%N then [] else c :: mantissa r
        end) lit).

Definition example_platform : Platform := {|
  num_truthy := literal_nonzero;
  num_strict_eq := jsstring_eqb;
  cast_userId_filter := fun _ => None
|}.


(* ================================================================= *)
(** ** Vocabulary of the further statements *)

(** A string without a surrogate that stands alone: the store takes it
    as it is. *)
Definition well_formed (s : jsstring) : Prop := toWellFormed s = s.

(** A string that [trim] leaves as it is. *)
Definition trimmed (s : jsstring) : Prop := trim s = s.

(** A string that does not begin with white space. *)
Definition no_space_ahead (s : jsstring) : Prop :=
  match s with
  | [] => True
  | c :: _ => is_trim_space c = false
  end.

(** The answers of a scan that reject the request. *)
Definition is_rejection (r : ScanResponse) : bool :=
  match r with
  | BadRequest | MalformedPayload | MissingIdentityField
  | IdentityNotFound | GroupMismatch => true
  | ScanSuccess _ _ | ScanFailure => false
  end.

(** No two identities carry the same key. *)
Definition identity_keys_unique (st : Store) : Prop :=
  NoDup (map User.userId (users st)).

(** The identity an entry is of, and the day it is dated. *)
Definition entry_key (a : Attendance.Doc) : jsstring * Z :=
  (Attendance.userId a, Day (Attendance.date a)).

(** No identity has two entries dated the same day. *)
Definition one_entry_per_day (coll : list Attendance.Doc) : Prop :=
  NoDup (map entry_key coll).

(** No entry is dated in the last millisecond of a day. *)
Definition none_in_last_ms (coll : list Attendance.Doc) : Prop :=
  Forall (fun a => TimeWithinDay (Attendance.date a) < msPerDay - 1) coll.

(** Two identity records that differ at most in the attendance flag. *)
Definition same_identity (u v : User.Doc) : Prop :=
  User.name u = User.name v /\ User.userId u = User.userId v /\
  User.bus u = User.bus v /\ User.role u = User.role v /\
  User.password u = User.password v /\ User.qrCode u = User.qrCode v.

(** [v] is a later state of the record [u]: the same identity, its flag
    either as it was or Present. *)
Definition follows (u v : User.Doc) : Prop :=
  same_identity u v /\
  (User.attendance v = User.attendance u \/
   User.attendance v = str "Present").

(** [st'] comes after [st]: the identities of [st] are still there, in
    place, and the ledger of [st] is the beginning of the ledger of
    [st']. *)
Definition evolves (st st' : Store) : Prop :=
  exists kept more_users more_entries,
    Forall2 follows (users st) kept /\
    users st' = kept ++ more_users /\
    attendances st' = attendances st ++ more_entries.

(** A request to one of the six routes, with the readings of the clock
    and the draws its handler makes. *)
Inductive Request : Type :=
| ReqRegister (salt uuid : jsstring) (name userId bus role password : JsValue)
| ReqLogin (userId password : JsValue)
| ReqScan (today stamp : Z) (scannedData adminBus : JsValue)
| ReqSummary (userId : jsstring) (month year : Z)
| ReqAutoAbsent (today : Z) (stamp : nat -> Z)
| ReqListByGroup (busNumber : jsstring).

(** The clock readings of a request that writes entries are of one day,
    before its last millisecond. *)
Definition timely (r : Request) : Prop :=
  match r with
  | ReqScan today stamp _ _ => before_last_ms today stamp
  | ReqAutoAbsent today stamp => forall k, before_last_ms today (stamp k)
  | _ => True
  end.

Section Server.
Context `{Platform} `{Accounts}.

(** The store after a request is handled.  Login, summary and listing
    write nothing; a sweep that answers 500 has written nothing. *)
Definition serve (r : Request) (st : Store) : Store :=
  match r with
  | ReqRegister salt uuid name userId bus role password =>
      snd (register salt uuid name userId bus role password st)
  | ReqLogin _ _ => st
  | ReqScan today stamp scannedData adminBus =>
      snd (scan today stamp scannedData adminBus st)
  | ReqSummary _ _ _ => st
  | ReqAutoAbsent today stamp =>
      match autoAbsent today stamp st with
      | Some st' => st'
      | None => st
      end
  | ReqListByGroup busNumber => snd (listByGroup busNumber st)
  end.

(** Requests handled one after the other. *)
Definition serve_all (rs : list Request) (st : Store) : Store :=
  fold_left (fun s r => serve r s) rs st.

End Server.

(** A reading of the clock that is a time value, the last one apart: the
    day it lies in has a first and a last millisecond that are time
    values too. *)
Definition valid_clock (t : Z) : Prop :=
  -8640000000000000 <= t < 8640000000000000.

Section PayloadKey.
Context `{Platform}.

(** The identity key of the decoded payload, when it is a string, is well
    formed: the store then looks it up as it is written, which is what
    [userId_filter] does. *)
Definition key_well_formed (scannedData : JsValue) : Prop :=
  forall parsed s,
    decode scannedData = DecodedOk parsed ->
    get_prop parsed (str "userId") = Some (JStr s) ->
    well_formed s.

End PayloadKey.

(* ================================================================= *)
(** ** Example data *)

(** The QR payload of identity U1, Alice, of group B1. *)
Definition alice_qr : jsstring :=
  encode (str "U1") (str "Alice") (str "B1") (str "user").

(** Alice as registered, and Alice after a move to group B2, her QR code
    still the one issued for B1. *)
Definition alice : User.Doc :=
  {| User.name := str "Alice"; User.userId := str "U1";
     User.bus := str "B1"; User.role := RoleUser;
     User.password := str "$2a$10$N9qo8uLOickgx2ZMRZoMye";
     User.qrCode := Some alice_qr; User.attendance := str "Absent" |}.

Definition alice_moved : User.Doc :=
  {| User.name := str "Alice"; User.userId := str "U1";
     User.bus := str "B2"; User.role := RoleUser;
     User.password := str "$2a$10$N9qo8uLOickgx2ZMRZoMye";
     User.qrCode := Some alice_qr; User.attendance := str "Absent" |}.

(** Midnight, 06:00, noon and the last millisecond of 1 January 2024. *)
Definition jan1_midnight : Z := 1704067200000.
Definition jan1_morning : Z := 1704088800000.
Definition jan1_noon : Z := 1704110400000.
Definition jan1_last_ms : Z := 1704153599999.

Definition entry_of (u : User.Doc) (t : Z) (s : Status) : Attendance.Doc :=
  Attendance.create (User.userId u) (User.bus u) s t.

Definition store_of (us : list User.Doc) (es : list Attendance.Doc) : Store :=
  {| users := us; attendances := es |}.

(* ================================================================= *)
(** ** Further example data *)

(** Accounts to evaluate examples on.  The hash is the salt followed by
    the password, the comparison looks for the password at the end of the
    hash, and no value that is not a string casts to one. *)
Definition example_accounts : Accounts := {|
  bcrypt_hash := fun salt pw => salt ++ pw;
  bcrypt_compare := fun pw h =>
    jsstring_eqb (skipn (List.length h - List.length pw)%nat h) pw;
  cast_String := fun _ => None;
  stringify_value := fun _ => str "null"
|}.

(** Bob registers as a user of group B1 under the key U2; Carol does the
    same under a key with a space at its end. *)
Definition bob_registers : Request :=
  ReqRegister (str "salt") (str "uuid") (JStr (str "Bob")) (JStr (str "U2"))
    (JStr (str "B1")) (JStr (str "user")) (JStr (str "secret")).

Definition carol_registers : Request :=
  ReqRegister (str "salt") (str "uuid") (JStr (str "Carol"))
    (JStr (str "U3 ")) (JStr (str "B1")) (JStr (str "user"))
    (JStr (str "secret")).

Definition bob_qr : jsstring :=
  encode (str "U2") (str "Bob") (str "B1") (str "user").

(** Kay registers under a key that ends with a surrogate standing alone:
    K followed by U+DC00. *)
Definition kay_key : jsstring := [75; 56320]%N.

Definition kay_registers : Request :=
  ReqRegister (str "salt") (str "uuid") (JStr (str "Kay")) (JStr kay_key)
    (JStr (str "B1")) (JStr (str "user")) (JStr (str "secret")).

(** The stamps of a sweep that starts at 06:00 of 1 January 2024 and
    writes a document per millisecond, for at most a second. *)
Definition morning_stamps (k : nat) : Z :=
  jan1_morning + Z.of_nat (Nat.min k 999).

(* ================================================================= *)
(** * Properties *)

(** Case analysis on the tests of a definition, and the reading of
    boolean comparisons. *)
Ltac split_ifs :=
  repeat match goal with
  | |- context [if ?c then _ else _] => destruct c eqn:?
  | H : context [if ?c then _ else _] |- _ => destruct c eqn:?
  end.

Ltac zbool :=
  repeat match goal with
  | H : (_ <? _) = true |- _ => apply Z.ltb_lt in H
  | H : (_ <? _) = false |- _ => apply Z.ltb_ge in H
  | H : (_ <=? _) = true |- _ => apply Z.leb_le in H
  | H : (_ <=? _) = false |- _ => apply Z.leb_gt in H
  | H : (_ =? _) = true |- _ => apply Z.eqb_eq in H
  | H : (_ =? _) = false |- _ => apply Z.eqb_neq in H
  end.

Ltac eval_consts :=
  repeat match goal with
  | |- context [Z.pos ?p - 1] =>
      let v := eval compute in (Z.pos p - 1) in change (Z.pos p - 1) with v
  end.

Ltac month_cases mon :=
  let Hc := fresh "Hc" in
  assert (mon = 1 \/ mon = 2 \/ mon = 3 \/ mon = 4 \/ mon = 5 \/ mon = 6 \/
          mon = 7 \/ mon = 8 \/ mon = 9 \/ mon = 10 \/ mon = 11 \/ mon = 12)
    as Hc by lia;
  repeat (destruct Hc as [-> | Hc]); try subst mon.

Ltac split_matches :=
  repeat match goal with
  | |- context [match ?x with _ => _ end] => destruct x
  end.

(* ================================================================= *)
(** ** JSON.parse: the bound is never reached, and quoted strings read
       back *)

Local Open Scope N_scope.

(** The lexers never give back more text than they were given. *)
Lemma skip_ws_length s : (List.length (skip_ws s) <= List.length s)%nat.
Proof.
  induction s as [|c r IH]; simpl; [lia|].
  destruct (is_ws c); simpl; lia.
Qed.

Lemma lex_string_length s : forall t rest,
  lex_string s = Some (t, rest) -> (List.length rest < List.length s)%nat.
Proof.
  remember (List.length s) as n eqn:Hn.
  revert s Hn. induction n as [n IH] using lt_wf_ind. intros s Hn t rest.
  destruct s as [|c r]; simpl; [discriminate|].
  destruct (c =? 34).
  { intros E; inversion E; subst. simpl. lia. }
  destruct (c =? 92).
  { destruct r as [|e r']; [discriminate|].
    destruct (e =? 117).
    - destruct r' as [|h1 [|h2 [|h3 [|h4 r'']]]]; try discriminate.
      destruct (hex4 h1 h2 h3 h4); [|discriminate].
      destruct (lex_string r'') as [[t' rest']|] eqn:E; [|discriminate].
      intros E'; inversion E'; subst.
      eapply IH in E; [| |reflexivity]; simpl in *; lia.
    - destruct (unescape e); [|discriminate].
      destruct (lex_string r') as [[t' rest']|] eqn:E; [|discriminate].
      intros E'; inversion E'; subst.
      eapply IH in E; [| |reflexivity]; simpl in *; lia. }
  destruct (c <? 32); [discriminate|].
  destruct (lex_string r) as [[t' rest']|] eqn:E; [|discriminate].
  intros E'; inversion E'; subst.
  eapply IH in E; [| |reflexivity]; simpl in *; lia.
Qed.

Lemma strip_prefix_length p : forall s rest,
  strip_prefix p s = Some rest -> (List.length rest <= List.length s)%nat.
Proof.
  induction p as [|x p IH]; intros s rest; simpl.
  - intros E; inversion E; lia.
  - destruct s as [|y s']; [discriminate|].
    destruct (x =? y); [|discriminate]. intros E. apply IH in E. simpl. lia.
Qed.

Lemma span_digits_length s : forall d r,
  span_digits s = (d, r) -> (List.length r <= List.length s)%nat.
Proof.
  induction s as [|c s IH]; intros d r; simpl.
  - intros E; inversion E; simpl; lia.
  - destruct (is_digit c).
    + destruct (span_digits s) as [d' r'] eqn:E'. intros E; inversion E; subst.
      specialize (IH _ _ eq_refl). lia.
    + intros E; inversion E; subst. simpl. lia.
Qed.

Lemma lex_number_length s : forall n rest,
  lex_number s = Some (n, rest) -> (List.length rest < List.length s)%nat.
Proof.
  intros n rest. unfold lex_number.
  assert (Hint : forall r0 i r1, lex_int r0 = Some (i, r1) ->
                 (List.length r1 < List.length r0)%nat).
  { intros r0 i r1. unfold lex_int. destruct r0 as [|c r]; [discriminate|].
    destruct (c =? 48).
    - intros E; inversion E; subst; simpl; lia.
    - destruct (is_digit c); [|discriminate].
      destruct (span_digits r) as [d r'] eqn:E'. intros E; inversion E; subst.
      apply span_digits_length in E'. simpl. lia. }
  assert (Hfrac : forall r1 f r2, lex_frac r1 = Some (f, r2) ->
                 (List.length r2 <= List.length r1)%nat).
  { intros r1 f r2. unfold lex_frac. destruct r1 as [|c r]; [intros E; inversion E; simpl; lia|].
    destruct (c =? 46).
    - destruct (span_digits r) as [d r'] eqn:E'. apply span_digits_length in E'.
      destruct d; [discriminate|]. intros E; inversion E; subst. simpl. lia.
    - intros E; inversion E; subst. lia. }
  assert (Hexp : forall r2 e r3, lex_exp r2 = Some (e, r3) ->
                 (List.length r3 <= List.length r2)%nat).
  { intros r2 e r3. unfold lex_exp. destruct r2 as [|c r]; [intros E; inversion E; simpl; lia|].
    destruct ((c =? 101) || (c =? 69)).
    - destruct r as [|x r'].
      + simpl. discriminate.
      + destruct ((x =? 43) || (x =? 45)).
        * destruct (span_digits r') as [d r''] eqn:E'. apply span_digits_length in E'.
          destruct d; [discriminate|]. intros E; inversion E; subst. simpl. lia.
        * destruct (span_digits (x :: r')) as [d r''] eqn:E'. apply span_digits_length in E'.
          destruct d; [discriminate|]. intros E; inversion E; subst. simpl in *. lia.
    - intros E; inversion E; subst. lia. }
  destruct s as [|c r].
  - simpl. discriminate.
  - destruct (c =? 45).
    + destruct (lex_int r) as [[i r1]|] eqn:E1; [|discriminate].
      destruct (lex_frac r1) as [[f r2]|] eqn:E2; [|discriminate].
      destruct (lex_exp r2) as [[e r3]|] eqn:E3; [|discriminate].
      intros E; inversion E; subst.
      apply Hint in E1. apply Hfrac in E2. apply Hexp in E3. simpl. lia.
    + destruct (lex_int (c :: r)) as [[i r1]|] eqn:E1; [|discriminate].
      destruct (lex_frac r1) as [[f r2]|] eqn:E2; [|discriminate].
      destruct (lex_exp r2) as [[e r3]|] eqn:E3; [|discriminate].
      intros E; inversion E; subst.
      apply Hint in E1. apply Hfrac in E2. apply Hexp in E3. simpl in *. lia.
Qed.

(** Each non-terminal consumes, provided the parsers it calls do on shorter
    texts. *)
Lemma value_body_consumes members elements s :
  (forall acc s', (List.length s' < List.length s)%nat -> consumes (members acc) s') ->
  (forall acc s', (List.length s' < List.length s)%nat -> consumes (elements acc) s') ->
  consumes (value_body members elements) s.
Proof.
  intros Hm He. unfold consumes, value_body.
  pose proof (skip_ws_length s) as Hs.
  destruct (skip_ws s) as [|c r]; [split; [discriminate|discriminate]|].
  simpl in Hs.
  destruct (c =? 123).
  { pose proof (skip_ws_length r) as Hr.
    destruct (skip_ws r) as [|d r']; [split; discriminate|]. simpl in Hr.
    destruct (d =? 125).
    - split; [discriminate|]. intros v r0 E; inversion E; subst. lia.
    - destruct (Hm [] (d :: r')) as [H1 H2]; [simpl; lia|].
      split; [exact H1|]. intros v r0 E. apply H2 in E. simpl in E. lia. }
  destruct (c =? 91).
  { pose proof (skip_ws_length r) as Hr.
    destruct (skip_ws r) as [|d r']; [split; discriminate|]. simpl in Hr.
    destruct (d =? 93).
    - split; [discriminate|]. intros v r0 E; inversion E; subst. lia.
    - destruct (He [] (d :: r')) as [H1 H2]; [simpl; lia|].
      split; [exact H1|]. intros v r0 E. apply H2 in E. simpl in E. lia. }
  destruct (c =? 34).
  { destruct (lex_string r) as [[t rest]|] eqn:E; [|split; discriminate].
    apply lex_string_length in E.
    split; [discriminate|]. intros v r0 E'; inversion E'; subst. lia. }
  destruct (c =? 116).
  { destruct (strip_prefix (str "rue") r) as [rest|] eqn:E; [|split; discriminate].
    apply strip_prefix_length in E.
    split; [discriminate|]. intros v r0 E'; inversion E'; subst. lia. }
  destruct (c =? 102).
  { destruct (strip_prefix (str "alse") r) as [rest|] eqn:E; [|split; discriminate].
    apply strip_prefix_length in E.
    split; [discriminate|]. intros v r0 E'; inversion E'; subst. lia. }
  destruct (c =? 110).
  { destruct (strip_prefix (str "ull") r) as [rest|] eqn:E; [|split; discriminate].
    apply strip_prefix_length in E.
    split; [discriminate|]. intros v r0 E'; inversion E'; subst. lia. }
  destruct (lex_number (c :: r)) as [[n rest]|] eqn:E; [|split; discriminate].
  apply lex_number_length in E. simpl in E.
  split; [discriminate|]. intros v r0 E'; inversion E'; subst. lia.
Qed.

Lemma members_body_consumes value members acc s :
  (forall s', (List.length s' < List.length s)%nat -> consumes value s') ->
  (forall acc' s', (List.length s' < List.length s)%nat -> consumes (members acc') s') ->
  consumes (members_body value members acc) s.
Proof.
  intros Hv Hm. unfold consumes, members_body.
  destruct s as [|c r]; [split; discriminate|].
  destruct (c =? 34); [|split; discriminate].
  destruct (lex_string r) as [[k r1]|] eqn:E; [|split; discriminate].
  apply lex_string_length in E.
  pose proof (skip_ws_length r1) as H1.
  destruct (skip_ws r1) as [|d r2]; [split; discriminate|]. simpl in H1.
  destruct (d =? 58); [|split; discriminate].
  destruct (Hv r2) as [Hv1 Hv2]; [simpl; lia|].
  destruct (value r2) as [v r3| |] eqn:E2; [|split; discriminate|congruence].
  specialize (Hv2 _ _ eq_refl).
  pose proof (skip_ws_length r3) as H3.
  destruct (skip_ws r3) as [|e r4]; [split; discriminate|]. simpl in H3.
  destruct (e =? 44).
  { pose proof (skip_ws_length r4) as H4.
    destruct (Hm (set_prop acc k v) (skip_ws r4)) as [Hm1 Hm2]; [simpl; lia|].
    split; [exact Hm1|]. intros v0 r0 E0. apply Hm2 in E0. simpl. lia. }
  destruct (e =? 125); [|split; discriminate].
  split; [discriminate|]. intros v0 r0 E0; inversion E0; subst. simpl. lia.
Qed.

Lemma elements_body_consumes value elements acc s :
  consumes value s ->
  (forall acc' s', (List.length s' < List.length s)%nat -> consumes (elements acc') s') ->
  consumes (elements_body value elements acc) s.
Proof.
  intros [Hv1 Hv2] He. unfold consumes, elements_body.
  destruct (value s) as [v r| |] eqn:E; [|split; discriminate|congruence].
  specialize (Hv2 _ _ eq_refl).
  pose proof (skip_ws_length r) as H1.
  destruct (skip_ws r) as [|e r']; [split; discriminate|]. simpl in H1.
  destruct (e =? 44).
  { destruct (He (acc ++ [v]) r') as [He1 He2]; [lia|].
    split; [exact He1|]. intros v0 r0 E0. apply He2 in E0. lia. }
  destruct (e =? 93); [|split; discriminate].
  split; [discriminate|]. intros v0 r0 E0; inversion E0; subst. lia.
Qed.

(** A bound of more than twice the length of the text is enough for a
    value and for members, one more is enough for elements. *)
Lemma parse_fuel_enough : forall f,
  (forall s, (2 * List.length s < f)%nat -> consumes (parse_value f) s) /\
  (forall acc s, (2 * List.length s < f)%nat -> consumes (parse_members f acc) s) /\
  (forall acc s, (2 * List.length s + 1 < f)%nat -> consumes (parse_elements f acc) s).
Proof.
  induction f as [|f [IHv [IHm IHe]]].
  - repeat split; intros; lia.
  - split; [|split].
    + intros s Hs. change (parse_value (S f)) with (value_body (parse_members f) (parse_elements f)).
      apply value_body_consumes; intros acc s' Hs'; [apply IHm|apply IHe]; lia.
    + intros acc s Hs.
      change (parse_members (S f) acc) with (members_body (parse_value f) (parse_members f) acc).
      apply members_body_consumes; [intros s' Hs'; apply IHv|intros acc' s' Hs'; apply IHm]; lia.
    + intros acc s Hs.
      change (parse_elements (S f) acc) with (elements_body (parse_value f) (parse_elements f) acc).
      apply elements_body_consumes; [apply IHv|intros acc' s' Hs'; apply IHe]; lia.
Qed.

(** [JSON_parse] never runs into its bound. *)
Lemma JSON_parse_fuel text : parse_value (S (2 * List.length text)) text <> PFuel.
Proof. apply parse_fuel_enough. lia. Qed.

(** The parser never answers [undefined]. *)
Lemma parse_not_undefined : forall f,
  (forall s r, parse_value f s <> POk JUndefined r) /\
  (forall acc s r, parse_members f acc s <> POk JUndefined r) /\
  (forall acc s r, parse_elements f acc s <> POk JUndefined r).
Proof.
  induction f as [|f (IHv & IHm & IHe)].
  - repeat split; intros; discriminate.
  - split; [|split].
    + intros s r.
      change (parse_value (S f))
        with (value_body (parse_members f) (parse_elements f)).
      unfold value_body. split_matches; try discriminate; auto.
    + intros acc s r.
      change (parse_members (S f) acc)
        with (members_body (parse_value f) (parse_members f) acc).
      unfold members_body. split_matches; try discriminate; auto.
    + intros acc s r.
      change (parse_elements (S f) acc)
        with (elements_body (parse_value f) (parse_elements f) acc).
      unfold elements_body. split_matches; try discriminate; auto.
Qed.

Lemma JSON_parse_not_undefined text : JSON_parse text <> Some JUndefined.
Proof.
  unfold JSON_parse.
  destruct (parse_value (S (2 * List.length text)) text) as [v rest| |] eqn:E;
    try discriminate.
  destruct (skip_ws rest); [|discriminate].
  intros Hv. inversion Hv; subst.
  exact (proj1 (parse_not_undefined _) _ _ E).
Qed.

(** What [QuoteJSONString] writes, [lex_string] reads back. *)
Lemma hex_value_hex_digit n : n < 16 -> hex_value (hex_digit n) = Some n.
Proof.
  intros Hn. unfold hex_value, hex_digit, is_digit.
  destruct (N.ltb_spec n 10) as [Hlt | Hge].
  - replace ((48 <=? 48 + n) && (48 + n <=? 57)) with true
      by (symmetry; apply andb_true_iff; split; apply N.leb_le; lia).
    f_equal. lia.
  - replace ((48 <=? 87 + n) && (87 + n <=? 57)) with false
      by (symmetry; apply andb_false_iff; right; apply N.leb_gt; lia).
    replace ((97 <=? 87 + n) && (87 + n <=? 102)) with true
      by (symmetry; apply andb_true_iff; split; apply N.leb_le; lia).
    f_equal. lia.
Qed.

Lemma lex_string_unicode_escape c r :
  c < 65536 -> lex_string (unicode_escape c ++ r) = lex_cons c (lex_string r).
Proof.
  intros Hc. unfold unicode_escape.
  cbn [app lex_string].
  change (92 =? 34) with false. change (92 =? 92) with true.
  change (117 =? 117) with true. cbv iota.
  unfold hex4.
  rewrite !hex_value_hex_digit by (apply N.mod_lt; discriminate).
  replace (4096 * (c / 4096 mod 16) + 256 * (c / 256 mod 16)
           + 16 * (c / 16 mod 16) + c mod 16) with c by lia.
  reflexivity.
Qed.

Lemma lex_string_quote_unit c r :
  lex_string (quote_unit c ++ r) = lex_cons c (lex_string r).
Proof.
  unfold quote_unit.
  destruct (c =? 8) eqn:E8; [apply N.eqb_eq in E8; subst; reflexivity|].
  destruct (c =? 9) eqn:E9; [apply N.eqb_eq in E9; subst; reflexivity|].
  destruct (c =? 10) eqn:E10; [apply N.eqb_eq in E10; subst; reflexivity|].
  destruct (c =? 12) eqn:E12; [apply N.eqb_eq in E12; subst; reflexivity|].
  destruct (c =? 13) eqn:E13; [apply N.eqb_eq in E13; subst; reflexivity|].
  destruct (c =? 34) eqn:E34; [apply N.eqb_eq in E34; subst; reflexivity|].
  destruct (c =? 92) eqn:E92; [apply N.eqb_eq in E92; subst; reflexivity|].
  destruct ((c <? 32) || is_lead_surrogate c || is_trail_surrogate c) eqn:E.
  - apply lex_string_unicode_escape.
    unfold is_lead_surrogate, is_trail_surrogate in E.
    apply orb_true_iff in E as [E|E]; [apply orb_true_iff in E as [E|E]|].
    + apply N.ltb_lt in E. lia.
    + apply andb_true_iff in E as [_ E]. apply N.leb_le in E. lia.
    + apply andb_true_iff in E as [_ E]. apply N.leb_le in E. lia.
  - apply orb_false_iff in E as [E _]. apply orb_false_iff in E as [E _].
    cbn [app lex_string]. rewrite E34, E92, E. reflexivity.
Qed.

(** A quoted string reads back as the string, whatever follows the closing
    quote. *)
Lemma lex_string_quote_body s : forall rest,
  lex_string (quote_body s ++ 34 :: rest) = Some (s, rest).
Proof.
  remember (List.length s) as n eqn:Hn. revert s Hn.
  induction n as [n IH] using lt_wf_ind. intros s Hn rest.
  destruct s as [|c r]; [reflexivity|].
  cbn [quote_body].
  assert (Hunit : lex_string ((quote_unit c ++ quote_body r) ++ 34 :: rest)
                  = Some (c :: r, rest)).
  { rewrite <- app_assoc, lex_string_quote_unit.
    rewrite (IH (List.length r)) by (simpl in Hn; lia || reflexivity). reflexivity. }
  destruct (is_lead_surrogate c) eqn:El; [|exact Hunit].
  destruct r as [|d r'].
  - rewrite lex_string_quote_unit. reflexivity.
  - destruct (is_trail_surrogate d) eqn:Et; [|exact Hunit].
    unfold is_lead_surrogate in El. unfold is_trail_surrogate in Et.
    apply andb_true_iff in El as [El1 El2]. apply andb_true_iff in Et as [Et1 Et2].
    apply N.leb_le in El1, El2, Et1, Et2.
    cbn [app lex_string].
    replace (c =? 34) with false by (symmetry; apply N.eqb_neq; lia).
    replace (c =? 92) with false by (symmetry; apply N.eqb_neq; lia).
    replace (c <? 32) with false by (symmetry; apply N.ltb_ge; lia).
    replace (d =? 34) with false by (symmetry; apply N.eqb_neq; lia).
    replace (d =? 92) with false by (symmetry; apply N.eqb_neq; lia).
    replace (d <? 32) with false by (symmetry; apply N.ltb_ge; lia).
    rewrite (IH (List.length r')) by (simpl in Hn; lia || reflexivity). reflexivity.
Qed.

Lemma skip_ws_quote s rest :
  skip_ws (QuoteJSONString s ++ rest) = QuoteJSONString s ++ rest.
Proof. reflexivity. Qed.

Lemma parse_value_string f s rest :
  parse_value (S f) (QuoteJSONString s ++ rest) = POk (JStr s) rest.
Proof.
  change (parse_value (S f)) with (value_body (parse_members f) (parse_elements f)).
  unfold value_body. rewrite skip_ws_quote.
  unfold QuoteJSONString. cbn [app].
  change (34 =? 123) with false. change (34 =? 91) with false.
  change (34 =? 34) with true. cbv iota.
  rewrite <- app_assoc. cbn [app]. rewrite lex_string_quote_body. reflexivity.
Qed.

(** One member [key:value] with a string value, followed by the character
    [e] (a comma or the closing brace). *)
Lemma parse_members_string f acc k v e rest :
  is_ws e = false ->
  parse_members (S (S f)) acc
    (QuoteJSONString k ++ 58 :: QuoteJSONString v ++ e :: rest)
  = if e =? 44 then parse_members (S f) (set_prop acc k (JStr v)) (skip_ws rest)
    else if e =? 125 then POk (JObj (set_prop acc k (JStr v))) rest
    else PSyntaxError.
Proof.
  intros He.
  change (parse_members (S (S f)) acc) with
    (members_body (parse_value (S f)) (parse_members (S f)) acc).
  unfold members_body.
  unfold QuoteJSONString at 1. cbn [app].
  change (34 =? 34) with true. cbv iota.
  rewrite <- app_assoc. cbn [app]. rewrite lex_string_quote_body.
  cbn [skip_ws]. change (is_ws 58) with false. cbv iota.
  change (58 =? 58) with true. cbv iota.
  rewrite parse_value_string.
  cbn [skip_ws]. rewrite He. reflexivity.
Qed.

Lemma parse_value_object f k rest :
  parse_value (S f) (123 :: QuoteJSONString k ++ rest)
  = parse_members f [] (QuoteJSONString k ++ rest).
Proof. reflexivity. Qed.

(** The serialised QR data parses to the object it was made from. *)
Lemma parse_encode f userId name bus role :
  parse_value (6 + f) (encode userId name bus role)
  = POk (qrData userId name bus role) [].
Proof.
  unfold encode. cbn [app].
  change (6 + f)%nat with (S (S (S (S (S (S f)))))).
  rewrite parse_value_object.
  rewrite parse_members_string by reflexivity.
  change (44 =? 44) with true. cbv iota. rewrite skip_ws_quote.
  rewrite parse_members_string by reflexivity.
  change (44 =? 44) with true. cbv iota. rewrite skip_ws_quote.
  rewrite parse_members_string by reflexivity.
  change (44 =? 44) with true. cbv iota. rewrite skip_ws_quote.
  rewrite parse_members_string by reflexivity.
  reflexivity.
Qed.

Lemma JSON_parse_encode userId name bus role :
  JSON_parse (encode userId name bus role) = Some (qrData userId name bus role).
Proof.
  unfold JSON_parse.
  assert (exists f, S (2 * List.length (encode userId name bus role)) = (6 + f)%nat)
    as [f ->].
  { assert (3 <= List.length (encode userId name bus role))%nat as Hlen.
    { unfold encode, QuoteJSONString. rewrite !length_app. cbn [List.length]. lia. }
    exists (2 * List.length (encode userId name bus role) - 5)%nat. lia. }
  rewrite parse_encode. reflexivity.
Qed.

Local Close Scope N_scope.

(* ================================================================= *)
(** ** The calendar *)

Local Open Scope Z_scope.

(** Years follow each other at the distance of their length. *)
Lemma DayFromYear_succ y : DayFromYear (y + 1) = DayFromYear y + DaysInYear y.
Proof.
  unfold DayFromYear, DaysInYear.
  destruct (y mod 4 =? 0) eqn:E4; cbn [negb];
  [destruct (y mod 100 =? 0) eqn:E100; cbn [negb];
   [destruct (y mod 400 =? 0) eqn:E400; cbn [negb]|]|];
  rewrite ?Z.eqb_eq, ?Z.eqb_neq in *; lia.
Qed.

Lemma DaysInYear_range y : DaysInYear y = 365 \/ DaysInYear y = 366.
Proof.
  unfold DaysInYear.
  destruct (y mod 4 =? 0), (y mod 100 =? 0), (y mod 400 =? 0); cbn; auto.
Qed.

Lemma DayFromYear_mono y y' : y <= y' -> DayFromYear y <= DayFromYear y'.
Proof. unfold DayFromYear. lia. Qed.

(** The year computed for a day number contains that day, and is the only
    year that does. *)
Lemma YearFromDay_bounds d :
  DayFromYear (YearFromDay d) <= d < DayFromYear (YearFromDay d + 1).
Proof.
  unfold YearFromDay.
  set (y := 1970 + d * 400 / 146097).
  assert (DayFromYear (y - 1) <= d < DayFromYear (y + 2)) as Hy.
  { unfold DayFromYear, y. lia. }
  destruct (DayFromYear (y + 1) <=? d) eqn:E1.
  - apply Z.leb_le in E1. replace (y + 1 + 1) with (y + 2) by lia. lia.
  - apply Z.leb_gt in E1.
    destruct (DayFromYear y <=? d) eqn:E2.
    + apply Z.leb_le in E2. lia.
    + apply Z.leb_gt in E2. replace (y - 1 + 1) with y by lia. lia.
Qed.

Lemma YearFromDay_unique d y :
  DayFromYear y <= d < DayFromYear (y + 1) -> YearFromDay d = y.
Proof.
  intros H. pose proof (YearFromDay_bounds d) as B.
  destruct (Z.lt_trichotomy (YearFromDay d) y) as [L|[E|G]]; [|exact E|].
  - pose proof (DayFromYear_mono (YearFromDay d + 1) y ltac:(lia)). lia.
  - pose proof (DayFromYear_mono (y + 1) (YearFromDay d) ltac:(lia)). lia.
Qed.

(** [DaysInYear] agrees with the leap-year rule. *)
Lemma leap_flag_spec y : leap_flag y = if spec_leap_year y then 1 else 0.
Proof.
  unfold leap_flag, DaysInYear, spec_leap_year.
  destruct (y mod 4 =? 0) eqn:E4, (y mod 100 =? 0) eqn:E100, (y mod 400 =? 0) eqn:E400;
    cbn; try reflexivity;
    rewrite ?Z.eqb_eq, ?Z.eqb_neq in *; lia.
Qed.

Lemma DaysInYear_leap_flag y : DaysInYear y = 365 + leap_flag y.
Proof.
  unfold leap_flag. destruct (DaysInYear_range y) as [-> | ->]; reflexivity.
Qed.

Lemma YearFromTime_iff t y :
  YearFromTime t = y <-> DayFromYear y <= Day t < DayFromYear (y + 1).
Proof.
  unfold YearFromTime. split.
  - intros <-. apply YearFromDay_bounds.
  - apply YearFromDay_unique.
Qed.

Lemma Day_bounds t : Day t * msPerDay <= t < (Day t + 1) * msPerDay.
Proof. unfold Day, msPerDay. lia. Qed.

Lemma TimeWithinDay_eq t : TimeWithinDay t = t - Day t * msPerDay.
Proof. unfold TimeWithinDay, Day, msPerDay. lia. Qed.

(** Reading the calendar of an instant of year [y]. *)
Lemma decode_in_year t y :
  YearFromTime t = y ->
  let k := Day t - DayFromYear y in
  0 <= k < 365 + leap_flag y /\ DayWithinYear t = k /\ InLeapYear t = leap_flag y.
Proof.
  intros Hy k. pose proof Hy as Hy'. apply YearFromTime_iff in Hy'.
  rewrite DayFromYear_succ, DaysInYear_leap_flag in Hy'.
  unfold DayWithinYear, InLeapYear, leap_flag in *. rewrite Hy.
  repeat split; subst k; lia.
Qed.

Lemma MonthFromTime_eq t :
  MonthFromTime t =
  (let d := DayWithinYear t in
   let l := InLeapYear t in
   if d <? 31 then 0
   else if d <? 59 + l then 1
   else if d <? 90 + l then 2
   else if d <? 120 + l then 3
   else if d <? 151 + l then 4
   else if d <? 181 + l then 5
   else if d <? 212 + l then 6
   else if d <? 243 + l then 7
   else if d <? 273 + l then 8
   else if d <? 304 + l then 9
   else if d <? 334 + l then 10
   else 11).
Proof. reflexivity. Qed.

(** The month and the day of the month, from the day within the year;
    [mon] counts from 1. *)
Lemma month_date_of_day t y mon :
  YearFromTime t = y -> 1 <= mon <= 12 ->
  let k := Day t - DayFromYear y in
  let l := leap_flag y in
  (MonthFromTime t = mon - 1 <->
     DaysBeforeMonth (mon - 1) l <= k < DaysBeforeMonth mon l) /\
  (MonthFromTime t = mon - 1 ->
     DateFromTime t = k - DaysBeforeMonth (mon - 1) l + 1).
Proof.
  intros Hy Hm k l.
  destruct (decode_in_year t y Hy) as (Hk & Hd & Hl). fold k l in Hk, Hd, Hl.
  assert (l = 0 \/ l = 1) as Hl01.
  { unfold l, leap_flag. destruct (DaysInYear y =? 366); auto. }
  unfold DateFromTime. rewrite MonthFromTime_eq. rewrite Hd, Hl. cbv zeta.
  assert (mon = 1 \/ mon = 2 \/ mon = 3 \/ mon = 4 \/ mon = 5 \/ mon = 6 \/
          mon = 7 \/ mon = 8 \/ mon = 9 \/ mon = 10 \/ mon = 11 \/ mon = 12)
    as Hc by lia.
  clear Hd Hl Hy Hm. clearbody k l.
  repeat (destruct Hc as [-> | Hc]); try subst mon; eval_consts;
  cbv beta iota delta [DaysBeforeMonth];
  (split; [split|]); split_ifs; zbool; intros; cbv iota; lia.
Qed.

Lemma leap_flag_01 y : leap_flag y = 0 \/ leap_flag y = 1.
Proof. unfold leap_flag. destruct (DaysInYear y =? 366); auto. Qed.

(** The table of [MakeDay]: months follow each other at the distance of
    their length. *)
Lemma DaysBeforeMonth_facts year mon :
  1 <= mon <= 12 ->
  let l := leap_flag year in
  0 <= DaysBeforeMonth (mon - 1) l /\
  DaysBeforeMonth mon l <= 365 + l /\
  DaysBeforeMonth mon l - DaysBeforeMonth (mon - 1) l
  = spec_days_in_month year mon.
Proof.
  intros Hm l. pose proof (leap_flag_spec year) as Hs. fold l in Hs.
  pose proof (leap_flag_01 year) as Hl. fold l in Hl. clearbody l.
  unfold spec_days_in_month.
  month_cases mon; eval_consts; cbv beta iota delta [DaysBeforeMonth];
    destruct (spec_leap_year year); lia.
Qed.

Lemma spec_days_in_month_pos year mon :
  1 <= mon <= 12 -> 28 <= spec_days_in_month year mon <= 31.
Proof.
  intros Hm. unfold spec_days_in_month.
  month_cases mon; destruct (spec_leap_year year); lia.
Qed.

(** [MakeDay] for the month [mon] (1 to 12) and for the month after it. *)
Lemma MakeDay_month y mon d :
  1 <= mon <= 12 ->
  MakeDay y (mon - 1) d
  = DayFromYear y + DaysBeforeMonth (mon - 1) (leap_flag y) + d - 1.
Proof.
  intros Hm. unfold MakeDay, leap_flag.
  rewrite Z.div_small, Z.mod_small by lia. rewrite Z.add_0_r. reflexivity.
Qed.

Lemma MakeDay_next y mon d :
  1 <= mon <= 12 ->
  MakeDay y mon d
  = DayFromYear y + DaysBeforeMonth mon (leap_flag y) + d - 1.
Proof.
  intros Hm. destruct (Z.eq_dec mon 12) as [-> | Hne].
  - unfold MakeDay. change (12 / 12) with 1. change (12 mod 12) with 0.
    rewrite DayFromYear_succ, DaysInYear_leap_flag.
    cbv beta iota delta [DaysBeforeMonth]. lia.
  - replace mon with ((mon + 1) - 1) at 1 by lia.
    rewrite MakeDay_month by lia. replace (mon + 1 - 1) with mon by lia.
    reflexivity.
Qed.

Lemma MakeFullYear_valid year : valid_year year -> MakeFullYear year = year.
Proof.
  intros [Hy _]. unfold MakeFullYear.
  destruct (0 <=? year) eqn:E1, (year <=? 99) eqn:E2; cbn; try reflexivity.
  zbool. lia.
Qed.

Lemma DayFromYear_valid year :
  valid_year year -> -99999744 <= DayFromYear year <= 99999379.
Proof. intros [_ Hy]. unfold DayFromYear. lia. Qed.

Lemma TimeClip_ok t :
  -8640000000000000 <= t <= 8640000000000000 -> TimeClip t = Some t.
Proof.
  intros Ht. unfold TimeClip.
  destruct (Z.abs t <=? 8640000000000000) eqn:E; [reflexivity|]. zbool. lia.
Qed.

(** The constructor within the range of the engine. *)
Lemma Date_new_in_range year month date hours minutes seconds :
  MakeFullYear year = year ->
  -1000000 <= year <= 1000000 ->
  -10000000 <= month <= 10000000 ->
  Date_new year month date hours minutes seconds
  = TimeClip (MakeDate (MakeDay year month date)
                       (MakeTime hours minutes seconds 0)).
Proof.
  intros Hf Hy Hm. unfold Date_new, MakeDay_in_range. rewrite Hf.
  destruct (Z.abs year <=? 1000000) eqn:E1; [|zbool; lia].
  destruct (Z.abs month <=? 10000000) eqn:E2; [|zbool; lia].
  reflexivity.
Qed.

(** The three dates of the summary, for a month of a year that the
    constructor reads as written. *)
Lemma month_dates year mon :
  1 <= mon <= 12 -> valid_year year ->
  let first := DayFromYear year + DaysBeforeMonth (mon - 1) (leap_flag year) in
  let last := DayFromYear year + DaysBeforeMonth mon (leap_flag year) - 1 in
  Date_new year (mon - 1) 1 0 0 0 = Some (first * msPerDay) /\
  Date_new year mon 0 23 59 59 = Some (last * msPerDay + 86399000) /\
  Date_new year mon 0 0 0 0 = Some (last * msPerDay).
Proof.
  intros Hm Hy first last.
  pose proof (DaysBeforeMonth_facts year mon Hm) as (H0 & H1 & H2).
  pose proof (spec_days_in_month_pos year mon Hm) as H3.
  pose proof (DayFromYear_valid year Hy) as H4.
  pose proof (leap_flag_01 year) as H5.
  rewrite !Date_new_in_range
    by (try apply (MakeFullYear_valid year Hy); destruct Hy; lia).
  rewrite MakeDay_month, !MakeDay_next by assumption.
  unfold MakeDate, MakeTime, msPerHour, msPerMinute, msPerSecond.
  fold first.
  replace (DayFromYear year + DaysBeforeMonth mon (leap_flag year) + 0 - 1)
    with last by (unfold last; lia).
  replace (first + 1 - 1) with first by lia.
  assert (-99999744 <= first <= 99999999 /\ -99999744 <= last <= 99999999)
    as Hb by (unfold first, last; lia).
  clearbody first last. unfold msPerDay.
  rewrite !TimeClip_ok by lia.
  repeat split; f_equal; lia.
Qed.

(** The days of the month, read from its last day. *)
Lemma month_last_day year mon :
  1 <= mon <= 12 ->
  let last := DayFromYear year + DaysBeforeMonth mon (leap_flag year) - 1 in
  Date_getDate (last * msPerDay) = spec_days_in_month year mon.
Proof.
  intros Hm last.
  pose proof (DaysBeforeMonth_facts year mon Hm) as (H0 & H1 & H2).
  pose proof (spec_days_in_month_pos year mon Hm) as H3.
  assert (Day (last * msPerDay) = last) as HD by (unfold Day, msPerDay; lia).
  assert (YearFromTime (last * msPerDay) = year) as HY.
  { apply YearFromTime_iff. rewrite HD, DayFromYear_succ, DaysInYear_leap_flag.
    unfold last. lia. }
  destruct (month_date_of_day _ _ mon HY Hm) as [Hiff Hdate].
  rewrite HD in Hiff, Hdate.
  unfold Date_getDate. rewrite Hdate; [unfold last; lia|].
  apply Hiff. unfold last. lia.
Qed.

(** The bounds of the query select the instants whose calendar date lies
    in the month, up to 23:59:59.000 of its last day. *)
Lemma month_window year mon t :
  1 <= mon <= 12 ->
  let first := DayFromYear year + DaysBeforeMonth (mon - 1) (leap_flag year) in
  let last := DayFromYear year + DaysBeforeMonth mon (leap_flag year) - 1 in
  (first * msPerDay <=? t) && (t <=? last * msPerDay + 86399000)
  = spec_in_month_window year mon t.
Proof.
  intros Hm first last.
  pose proof (DaysBeforeMonth_facts year mon Hm) as (H0 & H1 & H2).
  pose proof (spec_days_in_month_pos year mon Hm) as H3.
  pose proof (Day_bounds t) as HB. pose proof (TimeWithinDay_eq t) as HT.
  unfold spec_in_month_window.
  change (MakeTime 23 59 59 0) with 86399000.
  destruct (YearFromTime t =? year) eqn:EY.
  - apply Z.eqb_eq in EY.
    destruct (month_date_of_day _ _ mon EY Hm) as [Hiff Hdate].
    destruct (MonthFromTime t =? mon - 1) eqn:EM.
    + apply Z.eqb_eq in EM. rewrite (Hdate EM). apply Hiff in EM.
      unfold msPerDay in *. cbn [andb].
      apply eq_true_iff_eq. rewrite andb_true_iff, orb_true_iff.
      rewrite !Z.leb_le, Z.ltb_lt. unfold first, last. lia.
    + apply Z.eqb_neq in EM. cbn [andb].
      apply andb_false_iff.
      destruct (first * msPerDay <=? t) eqn:E1; [right|left; reflexivity].
      destruct (t <=? last * msPerDay + 86399000) eqn:E2; [exfalso|reflexivity].
      zbool. apply EM, Hiff. unfold msPerDay, first, last in *. lia.
  - cbn [andb]. apply Z.eqb_neq in EY.
    apply andb_false_iff.
    destruct (first * msPerDay <=? t) eqn:E1; [right|left; reflexivity].
    destruct (t <=? last * msPerDay + 86399000) eqn:E2; [exfalso|reflexivity].
    zbool. apply EY, YearFromTime_iff.
    rewrite DayFromYear_succ, DaysInYear_leap_flag.
    unfold msPerDay, first, last in *. lia.
Qed.

(** [YearFromTime] answers the year the standard defines. *)
Lemma YearFromTime_largest t :
  TimeFromYear (YearFromTime t) <= t /\
  forall y, TimeFromYear y <= t -> y <= YearFromTime t.
Proof.
  pose proof (YearFromDay_bounds (Day t)) as [B1 B2].
  pose proof (Day_bounds t) as Ht. unfold TimeFromYear, YearFromTime.
  split.
  - unfold msPerDay in *. lia.
  - intros y Hy.
    destruct (Z_le_gt_dec y (YearFromDay (Day t))) as [L|G]; [exact L|].
    pose proof (DayFromYear_mono (YearFromDay (Day t) + 1) y ltac:(lia)).
    unfold msPerDay in *. lia.
Qed.

(** [MakeDay] finds the day the standard describes: the first of the month
    it computes is a day of that year and month, and its date is 1. *)
Lemma MakeDay_first y m :
  let t := MakeDate (MakeDay y m 1) 0 in
  YearFromTime t = y + m / 12 /\
  MonthFromTime t = m mod 12 /\
  DateFromTime t = 1.
Proof.
  intros t.
  assert (0 <= m mod 12 < 12) as Hmn by (apply Z.mod_pos_bound; lia).
  set (ym := y + m / 12). set (mn := m mod 12) in *.
  assert (1 <= mn + 1 <= 12) as Hmon by lia.
  pose proof (DaysBeforeMonth_facts ym (mn + 1) Hmon) as (H0 & H1 & H2).
  pose proof (spec_days_in_month_pos ym (mn + 1) Hmon) as H3.
  replace (mn + 1 - 1) with mn in * by lia.
  assert (Day t = DayFromYear ym + DaysBeforeMonth mn (leap_flag ym)) as HD.
  { unfold t, MakeDate, MakeDay. fold ym mn. unfold leap_flag, Day, msPerDay. lia. }
  assert (YearFromTime t = ym) as HY.
  { apply YearFromTime_iff. rewrite HD, DayFromYear_succ, DaysInYear_leap_flag. lia. }
  destruct (month_date_of_day t ym (mn + 1) HY Hmon) as [Hiff Hdate].
  replace (mn + 1 - 1) with mn in * by lia. rewrite HD in Hiff, Hdate.
  assert (MonthFromTime t = mn) as HM by (apply Hiff; lia).
  split; [exact HY|]. split; [exact HM|]. rewrite (Hdate HM). lia.
Qed.

(** The date read at line 166 lies between the two bounds of the query. *)
Lemma MakeDay_month_ends y m :
  MakeDay y (m - 1) 1 <= MakeDay y m 0.
Proof.
  unfold MakeDay.
  assert (0 <= (m - 1) mod 12 < 12) as Hr by (apply Z.mod_pos_bound; lia).
  destruct (Z.eq_dec ((m - 1) mod 12) 11) as [E11 | N11].
  - assert (m / 12 = (m - 1) / 12 + 1 /\ m mod 12 = 0) as [-> ->] by lia.
    replace (y + ((m - 1) / 12 + 1)) with (y + (m - 1) / 12 + 1) by lia.
    rewrite E11, DayFromYear_succ.
    cbv beta iota delta [DaysBeforeMonth].
    pose proof (DaysInYear_leap_flag (y + (m - 1) / 12)) as Hl.
    unfold leap_flag in Hl.
    destruct (DaysInYear (y + (m - 1) / 12) =? 366); lia.
  - assert (m / 12 = (m - 1) / 12 /\ m mod 12 = (m - 1) mod 12 + 1) as [-> ->]
      by lia.
    set (ym := y + (m - 1) / 12). set (r := (m - 1) mod 12) in *.
    assert (1 <= r + 1 <= 12) as Hmon by lia.
    pose proof (DaysBeforeMonth_facts ym (r + 1) Hmon) as (H0 & H1 & H2).
    pose proof (spec_days_in_month_pos ym (r + 1) Hmon) as H3.
    replace (r + 1 - 1) with r in * by lia.
    fold (leap_flag ym). lia.
Qed.

Lemma monthlySummary_last_valid year month :
  Date_new year (month - 1) 1 0 0 0 <> None ->
  Date_new year month 0 23 59 59 <> None ->
  Date_new year month 0 0 0 0 <> None.
Proof.
  unfold Date_new.
  destruct (MakeDay_in_range (MakeFullYear year) (month - 1));
    [|congruence].
  destruct (MakeDay_in_range (MakeFullYear year) month); [|congruence].
  unfold TimeClip, MakeDate, MakeTime.
  unfold msPerHour, msPerMinute, msPerSecond, msPerDay.
  pose proof (MakeDay_month_ends (MakeFullYear year) month) as Hle.
  set (a := MakeDay (MakeFullYear year) (month - 1) 1) in *.
  set (b := MakeDay (MakeFullYear year) month 0) in *.
  intros H1 H2.
  repeat match goal with
  | H : context [if ?c then _ else _] |- _ => destruct c eqn:?
  | |- context [if ?c then _ else _] => destruct c eqn:?
  end; try congruence.
  zbool. lia.
Qed.

(* ================================================================= *)
(** ** Lists, strings and the store *)

Lemma jsstring_eqb_eq a : forall b, jsstring_eqb a b = true <-> a = b.
Proof.
  induction a as [|x a IH]; intros [|y b]; simpl; split; intros E;
    try reflexivity; try discriminate.
  - apply andb_true_iff in E as [E1 E2]. apply N.eqb_eq in E1.
    apply IH in E2. subst. reflexivity.
  - inversion E; subst. rewrite N.eqb_refl. apply IH. reflexivity.
Qed.

Lemma jsstring_eqb_refl a : jsstring_eqb a a = true.
Proof. apply jsstring_eqb_eq. reflexivity. Qed.

(** [findOne] and the write-back of the document found. *)
Lemma find_first_Some {A} (p : A -> bool) l : forall i x,
  find_first p l = Some (i, x) -> nth_error l i = Some x /\ p x = true.
Proof.
  induction l as [|y l IH]; intros i x; simpl; [discriminate|].
  destruct (p y) eqn:E.
  - intros E'; inversion E'; subst. auto.
  - destruct (find_first p l) as [[j z]|]; [|discriminate].
    intros E'; inversion E'; subst. apply IH. reflexivity.
Qed.

Lemma replace_at_same {A} (l : list A) : forall i x,
  nth_error l i = Some x -> replace_at i x l = l.
Proof.
  induction l as [|y l IH]; intros [|i] x; simpl; intros E;
    try discriminate; try reflexivity.
  - inversion E; reflexivity.
  - rewrite IH by assumption. reflexivity.
Qed.

Lemma find_first_replace {A} (p : A -> bool) l : forall i x x',
  find_first p l = Some (i, x) -> p x' = true ->
  find_first p (replace_at i x' l) = Some (i, x').
Proof.
  induction l as [|y l IH]; intros i x x'; simpl; [discriminate|].
  destruct (p y) eqn:E.
  - intros E' Hx'; inversion E'; subst. simpl. rewrite Hx'. reflexivity.
  - destruct (find_first p l) as [[j z]|] eqn:Ef; [|discriminate].
    intros E' Hx'; inversion E'; subst. simpl. rewrite E.
    rewrite (IH _ _ _ eq_refl Hx'). reflexivity.
Qed.

Lemma find_None_iff {A} (p : A -> bool) l :
  find p l = None <-> filter p l = [].
Proof.
  induction l as [|y l IH]; simpl; [tauto|].
  destruct (p y); [split; discriminate|exact IH].
Qed.

Section ScanFacts.
Context `{Platform}.

(** [scan] past the lookup: the request carries both fields, its payload
    decodes with group [g] and names identity [u] at position [i]. *)
Lemma scan_known_identity today stamp sd ab st i u g :
  truthy ab = true ->
  scanned_identity sd st = Some (i, u) ->
  decoded_group sd = Some g ->
  scan today stamp sd ab st =
  if negb (strict_eq g ab) then (GroupMismatch, st)
  else
    let u' := User.set_attendance u (str "Present") in
    let st1 := {| users := replace_at i u' (users st);
                  attendances := attendances st |} in
    match day_window today with
    | None => (ScanFailure, st1)
    | Some (lo, hi) =>
        (ScanSuccess (User.name u) (User.bus u),
         match Attendance.findOne (User.userId u) lo hi (attendances st) with
         | Some _ => st1
         | None =>
             {| users := users st1;
                attendances := attendances st ++ [present_entry u stamp] |}
         end)
    end.
Proof.
  intros Hab Hid Hg. unfold scan, scanned_identity, decoded_group in *.
  assert (truthy sd = true) as Hsd.
  { destruct (decode sd) as [parsed| | |] eqn:Hd; try discriminate.
    unfold decode in Hd. destruct sd; try reflexivity; simpl in *.
    - discriminate.
    - discriminate.
    - destruct b; [reflexivity|]. simpl in Hd. discriminate.
    - simpl in Hd. discriminate.
    - destruct s; [|reflexivity]. simpl in Hd. discriminate. }
  rewrite Hsd, Hab. cbn [negb orb].
  destruct (decode sd) as [parsed| | |]; try discriminate.
  destruct (get_prop parsed (str "userId")) as [uid|]; [|discriminate].
  rewrite Hg.
  destruct (userId_filter uid) as [cond|]; [|discriminate].
  rewrite Hid.
  destruct (negb (strict_eq g ab)); [reflexivity|].
  cbv zeta. destruct (day_window today) as [[lo hi]|]; [|reflexivity].
  cbn [User.set_attendance User.name User.bus User.userId attendances users].
  unfold present_entry.
  destruct (Attendance.findOne (User.userId u) lo hi (attendances st));
    reflexivity.
Qed.

(** A successful scan went all the way: both fields present, a decoded
    payload naming a stored identity, and the groups equal. *)
Lemma scan_success_inv today stamp sd ab st n b st' :
  scan today stamp sd ab st = (ScanSuccess n b, st') ->
  exists i u g,
    truthy ab = true /\ scanned_identity sd st = Some (i, u) /\
    decoded_group sd = Some g /\ strict_eq g ab = true.
Proof.
  unfold scan, scanned_identity, decoded_group.
  destruct (truthy sd); cbn [negb orb]; [|discriminate].
  destruct (truthy ab); cbn [negb orb]; [|discriminate].
  destruct (decode sd) as [parsed| | |]; try discriminate.
  destruct (get_prop parsed (str "userId")) as [uid|]; [|discriminate].
  destruct (get_prop parsed (str "bus")) as [g|]; [|discriminate].
  destruct (userId_filter uid) as [cond|]; [|discriminate].
  destruct (User.findOne cond (users st)) as [[i u]|]; [|discriminate].
  destruct (strict_eq g ab) eqn:Eg; cbn [negb]; [|discriminate].
  intros _. exists i, u, g. auto.
Qed.

(** A payload that decodes has a group field to read. *)
Lemma decoded_group_total sd parsed :
  decode sd = DecodedOk parsed -> exists g, decoded_group sd = Some g.
Proof.
  intros Hd. unfold decoded_group. rewrite Hd.
  unfold decode in Hd.
  destruct (match sd with JStr text => JSON_parse text | _ => Some sd end)
    as [p|]; [|discriminate].
  destruct (get_prop p (str "userId")) as [uid|] eqn:Eu; [|discriminate].
  destruct (truthy uid); [|discriminate]. inversion Hd; subst.
  destruct parsed; try discriminate; simpl; eauto.
  destruct (lookup_prop (str "bus") props); eauto.
Qed.

(** The identity a payload names is still named, at the same place, once
    its attendance flag is set. *)
Lemma scanned_identity_after_save sd st i u a ledger :
  scanned_identity sd st = Some (i, u) ->
  scanned_identity sd
    {| users := replace_at i (User.set_attendance u a) (users st);
       attendances := ledger |}
  = Some (i, User.set_attendance u a).
Proof.
  unfold scanned_identity.
  destruct (decode sd) as [parsed| | |]; try discriminate.
  destruct (get_prop parsed (str "userId")) as [uid|]; [|discriminate].
  destruct (userId_filter uid) as [cond|]; [|discriminate].
  unfold User.findOne. cbn [users]. intros Hf.
  apply (find_first_replace _ _ _ _ _ Hf).
  apply find_first_Some in Hf as [_ Hp]. exact Hp.
Qed.

(** C1 (amended).  A scan whose decoded payload carries a group field
    different from the scanning station's group (strict inequality) leaves
    the store as it was: no LedgerEntry is created and every attendance
    flag keeps its value.  Its answer is decided in the order of the
    handler: BadRequest when the scanning group is missing or falsy;
    otherwise the 500 of the outer catch when the store cannot cast the
    decoded identity key to a filter; otherwise, for a key that is well
    formed, IdentityNotFound when it names no stored identity; and
    GroupMismatch when the key names a stored identity. *)
Theorem scan_group_mismatch today stamp sd ab st g :
  decoded_group sd = Some g ->
  strict_eq g ab = false ->
  snd (scan today stamp sd ab st) = st /\
  (truthy ab = false ->
     fst (scan today stamp sd ab st) = BadRequest) /\
  (truthy ab = true -> decoded_filter sd = None ->
     fst (scan today stamp sd ab st) = ScanFailure) /\
  (forall cond, truthy ab = true -> key_well_formed sd ->
     decoded_filter sd = Some cond ->
     User.findOne cond (users st) = None ->
     fst (scan today stamp sd ab st) = IdentityNotFound) /\
  (forall i u, truthy ab = true -> scanned_identity sd st = Some (i, u) ->
     fst (scan today stamp sd ab st) = GroupMismatch).
Proof.
  intros Hg Hne.
  assert (Hsd : truthy sd = true).
  { unfold decoded_group in Hg.
    destruct (decode sd) as [parsed| | |] eqn:Hd; try discriminate.
    unfold decode in Hd. destruct sd; try reflexivity; simpl in *.
    - discriminate.
    - discriminate.
    - destruct b; [reflexivity|]. simpl in Hd. discriminate.
    - simpl in Hd. discriminate.
    - destruct s; [|reflexivity]. simpl in Hd. discriminate. }
  split; [|split; [|split; [|split]]].
  - unfold scan. destruct (negb (truthy sd) || negb (truthy ab)); [reflexivity|].
    unfold decoded_group in Hg.
    destruct (decode sd) as [parsed| | |]; try reflexivity.
    destruct (get_prop parsed (str "userId")) as [uid|]; [|reflexivity].
    rewrite Hg.
    destruct (userId_filter uid) as [cond|]; [|reflexivity].
    destruct (User.findOne cond (users st)) as [[i u]|]; [|reflexivity].
    rewrite Hne. reflexivity.
  - intros Hab. unfold scan. rewrite Hab, orb_true_r. reflexivity.
  - intros Hab Hf. unfold scan, decoded_filter, decoded_group in *.
    rewrite Hsd, Hab. cbn [negb orb].
    destruct (decode sd) as [parsed| | |]; try discriminate.
    destruct (get_prop parsed (str "userId")) as [uid|]; [|reflexivity].
    rewrite Hg, Hf. reflexivity.
  - intros cond Hab _ Hf Hnone.
    unfold scan, decoded_filter, decoded_group in *.
    rewrite Hsd, Hab. cbn [negb orb].
    destruct (decode sd) as [parsed| | |]; try discriminate.
    destruct (get_prop parsed (str "userId")) as [uid|]; [|discriminate].
    rewrite Hg, Hf, Hnone. reflexivity.
  - intros i u Hab Hid.
    rewrite (scan_known_identity _ _ _ _ _ _ _ _ Hab Hid Hg), Hne. reflexivity.
Qed.

End ScanFacts.

(** The window of the existence check: from midnight of the day of
    [today] to 23:59:59.999 of that day. *)
Lemma day_window_eq today lo hi :
  day_window today = Some (lo, hi) ->
  lo = Day today * msPerDay /\ hi = lo + 86399999.
Proof.
  unfold day_window, Date_setHours, MakeDate, MakeTime, TimeClip.
  unfold msPerHour, msPerMinute, msPerSecond.
  destruct (Z.abs (Day today * msPerDay + (0 * 3600000 + 0 * 60000 + 0 * 1000 + 0))
            <=? 8640000000000000); [|discriminate].
  match goal with |- context [if ?c then _ else _] => destruct c end;
    [|discriminate].
  intros E; inversion E; subst. unfold Day, msPerDay. lia.
Qed.

Lemma day_window_same_day today today' :
  Day today' = Day today -> day_window today' = day_window today.
Proof.
  intros E. unfold day_window, Date_setHours. rewrite E. reflexivity.
Qed.

(** An instant inside the window of the existence check is of the day. *)
Lemma day_window_in_day today lo hi d :
  day_window today = Some (lo, hi) -> lo <= d < hi -> Day d = Day today.
Proof.
  intros Hw Hd. apply day_window_eq in Hw as [-> ->].
  unfold Day, msPerDay in *. lia.
Qed.

(** Without an entry for the day there is none in the window. *)
Lemma in_day_entries_of_day today lo hi id coll :
  day_window today = Some (lo, hi) ->
  entries_of_day id today coll = [] ->
  Attendance.findOne id lo hi coll = None.
Proof.
  intros Hw He. unfold Attendance.findOne. apply find_None_iff.
  unfold entries_of_day in He.
  induction coll as [|a coll IH]; [reflexivity|].
  simpl in *.
  destruct (jsstring_eqb (Attendance.userId a) id
            && (Day (Attendance.date a) =? Day today)) eqn:E; [discriminate|].
  rewrite (IH He).
  destruct (Attendance.in_day id lo hi a) eqn:Ein; [|reflexivity].
  exfalso. unfold Attendance.in_day in Ein.
  apply andb_true_iff in Ein as [Ein E3]. apply andb_true_iff in Ein as [E1 E2].
  apply Z.leb_le in E2. apply Z.ltb_lt in E3.
  rewrite E1 in E. cbn [andb] in E. apply Z.eqb_neq in E. apply E.
  eapply day_window_in_day; eauto.
Qed.

Lemma find_app_last {A} (p : A -> bool) l x :
  find p l = None -> p x = true -> find p (l ++ [x]) = Some x.
Proof.
  intros Hl Hx. induction l as [|y l IH]; simpl in *.
  - rewrite Hx. reflexivity.
  - destruct (p y); [discriminate|]. apply IH. exact Hl.
Qed.

Lemma before_last_ms_window today lo hi t :
  day_window today = Some (lo, hi) ->
  before_last_ms today t -> lo <= t < hi.
Proof.
  intros Hw [Hd Ht]. apply day_window_eq in Hw as [-> ->].
  unfold Day, TimeWithinDay, msPerDay in *. lia.
Qed.

Lemma find_of_In {A} (p : A -> bool) l a :
  In a l -> p a = true -> find p l <> None.
Proof.
  induction l as [|x l IH]; simpl; [tauto|].
  intros [-> | Ha] Hp.
  - rewrite Hp. discriminate.
  - destruct (p x); [discriminate|]. apply IH; assumption.
Qed.

Section ScanTwice.
Context `{Platform}.

Lemma scan_success_window today stamp sd ab st n b st' :
  scan today stamp sd ab st = (ScanSuccess n b, st') ->
  exists lo hi, day_window today = Some (lo, hi).
Proof.
  intros Hs.
  destruct (scan_success_inv _ _ _ _ _ _ _ _ Hs)
    as (i & u & g & Hab & Hid & Hg & Heq).
  rewrite (scan_known_identity _ _ _ _ _ _ _ _ Hab Hid Hg), Heq in Hs.
  cbn [negb] in Hs. cbv zeta in Hs.
  destruct (day_window today) as [[lo hi]|]; [eauto|discriminate].
Qed.

(** C2 (amended).  When the identity already has an entry dated the day of
    the scan, before its last millisecond, a successful scan inserts no
    LedgerEntry and leaves the ledger as it is.  Consequently, when the
    identity has no entry for the day and its first scan stamps the entry
    before the last millisecond of the day, a second scan on the same day
    succeeds as well and the identity then has exactly one entry for the
    day, the Present one of the first scan. *)
Theorem scan_idempotent :
  (forall today stamp sd ab st n b st' i u a,
     scan today stamp sd ab st = (ScanSuccess n b, st') ->
     scanned_identity sd st = Some (i, u) ->
     In a (attendances st) ->
     Attendance.userId a = User.userId u ->
     before_last_ms today (Attendance.date a) ->
     attendances st' = attendances st) /\
  (forall today1 stamp1 today2 stamp2 sd ab st n b st1 i u,
     scan today1 stamp1 sd ab st = (ScanSuccess n b, st1) ->
     scanned_identity sd st = Some (i, u) ->
     entries_of_day (User.userId u) today1 (attendances st) = [] ->
     before_last_ms today1 stamp1 ->
     Day today2 = Day today1 ->
     exists st2,
       scan today2 stamp2 sd ab st1 = (ScanSuccess n b, st2) /\
       entries_of_day (User.userId u) today1 (attendances st2)
       = [present_entry u stamp1]).
Proof.
  split.
  - intros today stamp sd ab st n b st' i u a Hs Hid Ha Hau Hbefore.
    destruct (scan_success_window _ _ _ _ _ _ _ _ Hs) as (lo & hi & Hw).
    destruct (scan_success_inv _ _ _ _ _ _ _ _ Hs)
      as (i' & u' & g & Hab & Hid' & Hg & Heq).
    rewrite Hid in Hid'. inversion Hid'; subst i' u'.
    rewrite (scan_known_identity _ _ _ _ _ _ _ _ Hab Hid Hg), Heq, Hw in Hs.
    cbn [negb] in Hs. cbv zeta in Hs.
    destruct (Attendance.findOne (User.userId u) lo hi (attendances st)) eqn:Ef.
    + inversion Hs; subst. reflexivity.
    + exfalso. revert Ef. apply (find_of_In _ _ a Ha).
      pose proof (before_last_ms_window _ _ _ _ Hw Hbefore) as Hr.
      unfold Attendance.in_day. rewrite Hau, jsstring_eqb_refl. cbn [andb].
      apply andb_true_iff; split; [apply Z.leb_le|apply Z.ltb_lt]; lia.
  - intros today1 stamp1 today2 stamp2 sd ab st n b st1 i u
      Hs Hid Hnone Hbefore Hday.
    destruct (scan_success_window _ _ _ _ _ _ _ _ Hs) as (lo & hi & Hw).
    pose proof (before_last_ms_window _ _ _ _ Hw Hbefore) as Hstamp.
    destruct (scan_success_inv _ _ _ _ _ _ _ _ Hs)
      as (i' & u' & g & Hab & Hid' & Hg & Heq).
    rewrite Hid in Hid'. inversion Hid'; subst i' u'.
    rewrite (scan_known_identity _ _ _ _ _ _ _ _ Hab Hid Hg), Heq, Hw in Hs.
    cbn [negb] in Hs. cbv zeta in Hs.
    rewrite (in_day_entries_of_day _ _ _ _ _ Hw Hnone) in Hs.
    inversion Hs; subst n b st1. clear Hs. cbn [users attendances].
    pose proof (scanned_identity_after_save sd st i u (str "Present")
                  (attendances st ++ [present_entry u stamp1]) Hid) as Hid1.
    eexists. split.
    + rewrite (scan_known_identity _ _ _ _ _ _ _ _ Hab Hid1 Hg), Heq.
      cbn [negb]. cbv zeta.
      rewrite (day_window_same_day _ _ Hday), Hw.
      cbn [User.set_attendance User.name User.bus User.userId attendances users].
      unfold Attendance.findOne at 1.
      rewrite (find_app_last (Attendance.in_day (User.userId u) lo hi)
                 (attendances st) (present_entry u stamp1)).
      * reflexivity.
      * apply (in_day_entries_of_day _ _ _ _ _ Hw Hnone).
      * unfold Attendance.in_day, present_entry. cbn.
        rewrite jsstring_eqb_refl. cbn [andb].
        apply andb_true_iff; split; [apply Z.leb_le|apply Z.ltb_lt]; lia.
    + cbn [attendances]. unfold entries_of_day in *.
      rewrite filter_app, Hnone.
      cbn [filter app present_entry Attendance.create Attendance.userId
           Attendance.date].
      rewrite jsstring_eqb_refl.
      rewrite (proj1 Hbefore), Z.eqb_refl. reflexivity.
Qed.

End ScanTwice.

(* ================================================================= *)
(** ** Scan, codec and roster *)

Section DecodeFailures.
Context `{Platform}.

(** The failure modes of lines 121-128.  The unnamed one is the text that
    parses to [null] (an absent or [null] payload does not get that far in
    [scan]). *)
Lemma decode_malformed_iff sd :
  decode sd = DecodeMalformed <->
  exists text, sd = JStr text /\ JSON_parse text = None.
Proof.
  unfold decode. split.
  - destruct sd; simpl;
      try (destruct (truthy _); discriminate); try discriminate.
    + destruct (JSON_parse s) as [p|] eqn:E; [|eauto].
      destruct (get_prop p (str "userId")) as [uid|]; [|discriminate].
      destruct (truthy uid); discriminate.
    + destruct (lookup_prop (str "userId") props) as [uid|]; simpl;
        try discriminate. destruct (truthy uid); discriminate.
  - intros (text & -> & ->). reflexivity.
Qed.

Lemma decode_missing_iff sd :
  decode sd = DecodeMissingIdentity <->
  exists parsed uid,
    match sd with JStr text => JSON_parse text | _ => Some sd end = Some parsed /\
    get_prop parsed (str "userId") = Some uid /\ truthy uid = false.
Proof.
  unfold decode. split.
  - destruct (match sd with JStr text => JSON_parse text | _ => Some sd end)
      as [parsed|]; [|discriminate].
    destruct (get_prop parsed (str "userId")) as [uid|] eqn:Eu; [|discriminate].
    destruct (truthy uid) eqn:E; [discriminate|].
    intros _. exists parsed, uid. auto.
  - intros (parsed & uid & -> & -> & ->). reflexivity.
Qed.

Lemma decode_throws_iff sd :
  decode sd = DecodeThrows <->
  sd = JUndefined \/ sd = JNull \/
  exists text, sd = JStr text /\ JSON_parse text = Some JNull.
Proof.
  unfold decode. split.
  - destruct sd; simpl; auto;
      try (destruct (truthy _); discriminate); try discriminate.
    + destruct (JSON_parse s) as [p|] eqn:E; [|discriminate].
      destruct p; simpl;
        try (destruct (truthy _); discriminate); try discriminate.
      * exfalso. exact (JSON_parse_not_undefined _ E).
      * eauto.
      * destruct (lookup_prop (str "userId") props) as [uid|]; simpl;
          try discriminate. destruct (truthy uid); discriminate.
    + destruct (lookup_prop (str "userId") props) as [uid|]; simpl;
        try discriminate. destruct (truthy uid); discriminate.
  - intros [-> | [-> | (text & -> & E)]]; try reflexivity.
    rewrite E. reflexivity.
Qed.

End DecodeFailures.

Section ScanEntry.
Context `{Platform}.

(** C8.  When a successful scan inserts a LedgerEntry, the entry takes its
    group (and its identity key) from the Identity record found in the
    store, whatever the group field of the payload was. *)
Theorem scan_entry_group today stamp sd ab st n b st' i u :
  scan today stamp sd ab st = (ScanSuccess n b, st') ->
  scanned_identity sd st = Some (i, u) ->
  attendances st' <> attendances st ->
  exists e,
    attendances st' = attendances st ++ [e] /\
    Attendance.bus e = User.bus u /\
    Attendance.userId e = User.userId u /\
    Attendance.status e = Present /\
    Attendance.date e = stamp.
Proof.
  intros Hs Hid Hnew.
  destruct (scan_success_inv _ _ _ _ _ _ _ _ Hs)
    as (i' & u' & g & Hab & Hid' & Hg & Heq).
  rewrite Hid in Hid'. inversion Hid'; subst i' u'.
  rewrite (scan_known_identity _ _ _ _ _ _ _ _ Hab Hid Hg), Heq in Hs.
  cbn [negb] in Hs. cbv zeta in Hs.
  destruct (day_window today) as [[lo hi]|]; [|discriminate].
  destruct (Attendance.findOne (User.userId u) lo hi (attendances st));
    inversion Hs; subst; cbn [attendances] in *; [congruence|].
  exists (present_entry u stamp). cbn. auto.
Qed.

(** C6.  Decoding the payload that [encode] produces from an identity key
    that is not empty, a name, a group and a role gives back an object with
    exactly these four fields. *)
Theorem encode_decode_roundtrip (userId name bus role : jsstring) :
  userId <> [] ->
  decode (JStr (encode userId name bus role))
  = DecodedOk (qrData userId name bus role) /\
  get_prop (qrData userId name bus role) (str "userId") = Some (JStr userId) /\
  get_prop (qrData userId name bus role) (str "name") = Some (JStr name) /\
  get_prop (qrData userId name bus role) (str "bus") = Some (JStr bus) /\
  get_prop (qrData userId name bus role) (str "role") = Some (JStr role).
Proof.
  intros Hne. split; [|repeat split; reflexivity].
  unfold decode. rewrite JSON_parse_encode.
  change (get_prop (qrData userId name bus role) (str "userId"))
    with (Some (JStr userId)).
  destruct userId; [congruence|reflexivity].
Qed.

End ScanEntry.

(** The projection of the listing shows the public view of a document. *)
Lemma project_public_view u :
  User.project [str "password"; str "qrCode"] u = public_view u.
Proof.
  destruct u as [n i b r p q a]. destruct q; reflexivity.
Qed.

Lemma Role_eqb_eq a b : Role_eqb a b = true <-> a = b.
Proof. destruct a, b; simpl; split; congruence. Qed.

Lemma same_public_view u v : same_public u v -> public_view u = public_view v.
Proof.
  intros (H1 & H2 & H3 & H4 & H5). unfold public_view. congruence.
Qed.

(** C9.  The roster listing leaves the store as it is; it shows exactly the
    identities of role user whose group is the argument; no document shown
    has a credential hash or a QR payload; and what is shown does not depend
    on the credential hashes and QR payloads in the store. *)
Theorem listByGroup_roster (busNumber : jsstring) (st : Store) :
  snd (listByGroup busNumber st) = st /\
  (forall d, In d (fst (listByGroup busNumber st)) <->
     exists u, In u (users st) /\ User.role u = RoleUser /\
               User.bus u = busNumber /\ d = public_view u) /\
  (forall d, In d (fst (listByGroup busNumber st)) ->
     exists props, d = JObj props /\
       lookup_prop (str "password") props = None /\
       lookup_prop (str "qrCode") props = None) /\
  (forall st', Forall2 same_public (users st) (users st') ->
     fst (listByGroup busNumber st') = fst (listByGroup busNumber st)).
Proof.
  unfold listByGroup. cbn [fst snd]. split; [reflexivity|].
  split; [|split].
  - intros d. rewrite in_map_iff. unfold User.find_bus_role_user. split.
    + intros (u & Hd & Hin). apply filter_In in Hin as [Hin Hp].
      apply andb_true_iff in Hp as [Hb Hr].
      apply jsstring_eqb_eq in Hb. apply Role_eqb_eq in Hr.
      exists u. rewrite <- Hd, project_public_view. auto.
    + intros (u & Hin & Hr & Hb & ->). exists u.
      split; [apply project_public_view|].
      apply filter_In. split; [exact Hin|].
      apply andb_true_iff. split;
        [apply jsstring_eqb_eq; exact Hb|apply Role_eqb_eq; exact Hr].
  - intros d Hd. apply in_map_iff in Hd as (u & <- & _).
    rewrite project_public_view. unfold public_view.
    eexists. split; [reflexivity|]. destruct (User.role u); split; reflexivity.
  - intros st' Hst. unfold User.find_bus_role_user.
    induction Hst as [|u v us vs Huv _ IH]; [reflexivity|].
    cbn [filter]. destruct Huv as (H1 & H2 & H3 & H4 & H5).
    rewrite <- H3, <- H4.
    destruct (jsstring_eqb (User.bus u) busNumber && Role_eqb (User.role u) RoleUser).
    + cbn [map]. rewrite IH, !project_public_view.
      f_equal. symmetry. apply same_public_view. repeat split; assumption.
    + exact IH.
Qed.

(* ================================================================= *)
(** ** The ledger stays within the registered identities *)

Lemma replace_at_In {A} (l : list A) : forall i x y,
  nth_error l i = Some x -> In y (replace_at i y l).
Proof.
  induction l as [|z l IH]; intros [|i] x y; simpl; intros E;
    try discriminate.
  - left. reflexivity.
  - right. eapply IH. exact E.
Qed.

Lemma replace_at_keeps {A B} (f : A -> B) (l : list A) : forall i x y u,
  nth_error l i = Some x -> f y = f x -> In u l ->
  exists u', In u' (replace_at i y l) /\ f u' = f u.
Proof.
  induction l as [|z l IH]; intros [|i] x y u; simpl; intros E Hf Hu;
    try discriminate.
  - destruct Hu as [<- | Hu].
    + inversion E; subst. exists y. auto.
    + exists u. auto.
  - destruct Hu as [<- | Hu].
    + exists z. auto.
    + destruct (IH i x y u E Hf Hu) as (u' & Hin & Heq). exists u'. auto.
Qed.

Section Invariant.
Context `{Platform}.

(** A scan keeps the ledger within the registered identities. *)
Lemma scan_keeps_ledger_refs today stamp sd ab st :
  ledger_refers_to_identities st ->
  ledger_refers_to_identities (snd (scan today stamp sd ab st)).
Proof.
  intros Hinv.
  destruct (truthy ab) eqn:Hab;
    [|unfold scan; rewrite Hab, orb_true_r; exact Hinv].
  destruct (scanned_identity sd st) as [[i u]|] eqn:Hid.
  - destruct (decoded_group sd) as [g|] eqn:Hg.
    + rewrite (scan_known_identity _ _ _ _ _ _ _ _ Hab Hid Hg).
      destruct (negb (strict_eq g ab)); [exact Hinv|]. cbv zeta.
      assert (Hnth : nth_error (users st) i = Some u).
      { unfold scanned_identity in Hid.
        destruct (decode sd); try discriminate.
        destruct (get_prop parsed (str "userId")); try discriminate.
        destruct (userId_filter j); try discriminate.
        apply find_first_Some in Hid. tauto. }
      assert (Hkeep : forall a, In a (attendances st) ->
                known_identity (Attendance.userId a)
                  {| users := replace_at i (User.set_attendance u (str "Present"))
                                (users st);
                     attendances := attendances st |}).
      { intros a Ha. destruct (Hinv a Ha) as (v & Hv & Hva).
        destruct (replace_at_keeps User.userId (users st) i u
                    (User.set_attendance u (str "Present")) v Hnth eq_refl Hv)
          as (v' & Hv' & Heq).
        exists v'. split; [exact Hv'|congruence]. }
      destruct (day_window today) as [[lo hi]|]; [|exact Hkeep].
      cbn [snd].
      destruct (Attendance.findOne (User.userId u) lo hi (attendances st));
        [exact Hkeep|].
      intros a Ha. cbn [attendances] in Ha. apply in_app_or in Ha as [Ha | Ha].
      * destruct (Hkeep a Ha) as (v & Hv & Hva). exists v. auto.
      * destruct Ha as [<- | []].
        exists (User.set_attendance u (str "Present")).
        split; [|reflexivity]. cbn [users].
        eapply replace_at_In. exact Hnth.
    + unfold scanned_identity, decoded_group in *.
      destruct (decode sd) as [parsed| | |] eqn:Hd; try discriminate.
      destruct (decoded_group_total sd parsed Hd) as (g & Hg').
      unfold decoded_group in Hg'. rewrite Hd in Hg'. congruence.
  - unfold scan, scanned_identity in *.
    destruct (negb (truthy sd) || negb (truthy ab)); [exact Hinv|].
    destruct (decode sd) as [parsed| | |]; try exact Hinv.
    destruct (get_prop parsed (str "userId")) as [uid|]; [|exact Hinv].
    destruct (get_prop parsed (str "bus")) as [g|]; [|exact Hinv].
    destruct (userId_filter uid) as [cond|]; [|exact Hinv].
    rewrite Hid. exact Hinv.
Qed.

End Invariant.

Lemma sweep_entries lo hi stamp roster : forall k coll a,
  In a (sweep lo hi stamp k roster coll) ->
  In a coll \/ exists u, In u roster /\ Attendance.userId a = User.userId u.
Proof.
  induction roster as [|u roster IH]; intros k coll a; cbn [sweep];
    [auto|].
  destruct (Attendance.findOne (User.userId u) lo hi coll).
  - intros Ha. destruct (IH _ _ _ Ha) as [Hc | (v & Hv & Hva)]; [auto|].
    right. exists v. split; [right; exact Hv|exact Hva].
  - intros Ha. destruct (IH _ _ _ Ha) as [Hc | (v & Hv & Hva)].
    + apply in_app_or in Hc as [Hc | [<- | []]]; [auto|].
      right. exists u. split; [left; reflexivity|reflexivity].
    + right. exists v. split; [right; exact Hv|exact Hva].
Qed.

(** The sweep keeps the ledger within the registered identities. *)
Lemma autoAbsent_keeps_ledger_refs today stamp st st' :
  ledger_refers_to_identities st ->
  autoAbsent today stamp st = Some st' ->
  ledger_refers_to_identities st'.
Proof.
  intros Hinv Hs. unfold autoAbsent in Hs.
  destruct (User.find_role_user (users st)) as [|u roster] eqn:Er.
  - injection Hs as <-. exact Hinv.
  - destruct (day_window today) as [[lo hi]|]; [|discriminate].
    assert (st' = {| users := users st;
                     attendances := sweep lo hi stamp 0 (u :: roster)
                                      (attendances st) |}) as -> by congruence.
    intros a Ha. unfold attendances at 1 in Ha.
    apply sweep_entries in Ha as [Ha | (v & Hv & Hva)].
    + exact (Hinv a Ha).
    + exists v. split; [|congruence]. unfold users at 1.
      rewrite <- Er in Hv. unfold User.find_role_user in Hv.
      apply filter_In in Hv. tauto.
Qed.

Lemma unknown_identity_no_rows id st :
  ledger_refers_to_identities st -> ~ known_identity id st ->
  forall a, In a (attendances st) -> Attendance.userId a <> id.
Proof.
  intros Hinv Hunk a Ha E. apply Hunk. rewrite <- E. exact (Hinv a Ha).
Qed.

(* ================================================================= *)
(** ** Reporting *)

Lemma filter_filter_and {A} (p q : A -> bool) l :
  filter p (filter q l) = filter (fun x => q x && p x) l.
Proof.
  induction l as [|x l IH]; [reflexivity|]. simpl.
  destruct (q x); simpl; [destruct (p x)|]; rewrite IH; reflexivity.
Qed.

(** An identity without rows has none in any range. *)
Lemma find_range_no_rows id lo hi coll :
  (forall a, In a coll -> Attendance.userId a <> id) ->
  Attendance.find_range id lo hi coll = [].
Proof.
  unfold Attendance.find_range.
  induction coll as [|a l IH]; intros Hnone; [reflexivity|].
  cbn [filter]. unfold Attendance.in_range at 1.
  destruct (jsstring_eqb (Attendance.userId a) id) eqn:E.
  - apply jsstring_eqb_eq in E. exfalso.
    apply (Hnone a (or_introl eq_refl) E).
  - cbn [andb]. apply IH. intros a' Ha'. apply Hnone. right. exact Ha'.
Qed.

(** The Present rows among those the query selects are the Present rows of
    the identity in the month window. *)
Lemma present_rows_in_month id month year coll :
  1 <= month <= 12 ->
  filter (fun r => Status_eqb (Attendance.status r) Present)
    (Attendance.find_range id
       ((DayFromYear year + DaysBeforeMonth (month - 1) (leap_flag year))
        * msPerDay)
       ((DayFromYear year + DaysBeforeMonth month (leap_flag year) - 1)
        * msPerDay + 86399000) coll)
  = filter (fun a => jsstring_eqb (Attendance.userId a) id
                     && spec_in_month_window year month (Attendance.date a)
                     && Status_eqb (Attendance.status a) Present) coll.
Proof.
  intros Hm. unfold Attendance.find_range. rewrite filter_filter_and.
  apply filter_ext. intros a. unfold Attendance.in_range.
  rewrite <- (month_window year month (Attendance.date a) Hm).
  rewrite andb_assoc. reflexivity.
Qed.

(** C3 (amended).  For a month from 1 to 12 of a year that the date
    constructor reads as written (not 0 to 99) and whose months have time
    values, the summary exists; [totalDays] is the number of days of the
    month by the leap-year rule; [presentDays] counts the Present rows of
    the identity dated in that month, up to 23:59:59 of its last day;
    [absentDays] is their difference; and an identity without rows -- in
    particular an unregistered one, when every row of the ledger belongs to
    a registered identity -- gets no detail, zero present days and
    [absentDays = totalDays]. *)
Theorem monthlySummary_counts (userId : jsstring) (month year : Z)
  (st : Store) :
  1 <= month <= 12 ->
  valid_year year ->
  exists s,
    monthlySummary userId month year st = Some s /\
    totalDays s = spec_days_in_month year month /\
    presentDays s = spec_present_count userId month year (attendances st) /\
    absentDays s = totalDays s - presentDays s /\
    ((forall a, In a (attendances st) -> Attendance.userId a <> userId) ->
     details s = [] /\ presentDays s = 0 /\
     absentDays s = spec_days_in_month year month) /\
    (ledger_refers_to_identities st -> ~ known_identity userId st ->
     details s = [] /\ presentDays s = 0 /\
     absentDays s = spec_days_in_month year month).
Proof.
  intros Hm Hy.
  destruct (month_dates year month Hm Hy) as (E1 & E2 & E3).
  unfold monthlySummary. rewrite E1, E2, E3.
  eexists. split; [reflexivity|]. cbn [totalDays presentDays absentDays details].
  rewrite month_last_day by assumption.
  split; [reflexivity|].
  split; [unfold spec_present_count; rewrite present_rows_in_month by exact Hm;
          reflexivity|].
  split; [reflexivity|].
  assert (Hzero :
    forall lo hi,
      (forall a, In a (attendances st) -> Attendance.userId a <> userId) ->
      Attendance.find_range userId lo hi (attendances st) = [] /\
      Z.of_nat (List.length
        (filter (fun r => Status_eqb (Attendance.status r) Present)
           (Attendance.find_range userId lo hi (attendances st)))) = 0 /\
      spec_days_in_month year month
      - Z.of_nat (List.length
          (filter (fun r => Status_eqb (Attendance.status r) Present)
             (Attendance.find_range userId lo hi (attendances st))))
      = spec_days_in_month year month).
  { intros lo hi Hnone. rewrite (find_range_no_rows _ lo hi _ Hnone). cbn.
    split; [reflexivity|]. split; [reflexivity|]. lia. }
  split; [apply Hzero|].
  intros Hinv Hunk. apply Hzero.
  exact (unknown_identity_no_rows userId st Hinv Hunk).
Qed.


(* ================================================================= *)
(** ** The day window and the sweep *)

(** The window of the existence check finds every entry of the day but
    those of its last millisecond. *)
Lemma day_window_finds today lo hi id a :
  day_window today = Some (lo, hi) ->
  Attendance.userId a = id ->
  Day (Attendance.date a) = Day today ->
  Attendance.date a <> lo + 86399999 ->
  Attendance.in_day id lo hi a = true.
Proof.
  intros Hw Hid Hd Hne. apply day_window_eq in Hw as [-> ->].
  unfold Attendance.in_day. rewrite Hid, jsstring_eqb_refl. cbn [andb].
  apply andb_true_iff. split; [apply Z.leb_le|apply Z.ltb_lt];
    unfold Day, msPerDay in *; lia.
Qed.

Lemma day_window_misses today lo hi id a :
  day_window today = Some (lo, hi) ->
  Attendance.date a = lo + 86399999 ->
  Day (Attendance.date a) = Day today /\ Attendance.in_day id lo hi a = false.
Proof.
  intros Hw Hd. apply day_window_eq in Hw as [-> ->]. split.
  - rewrite Hd. unfold Day, msPerDay. lia.
  - unfold Attendance.in_day. rewrite Hd.
    rewrite Z.ltb_irrefl. apply andb_false_r.
Qed.

Lemma find_app_found {A} (p : A -> bool) l l' :
  find p l <> None -> find p (l ++ l') <> None.
Proof.
  induction l as [|x l IH]; simpl; [congruence|].
  destruct (p x); [discriminate|exact IH].
Qed.

(** The sweep only appends, and what it appends is Absent. *)
Lemma sweep_appends lo hi stamp roster : forall k coll,
  exists extra,
    sweep lo hi stamp k roster coll = coll ++ extra /\
    Forall (fun a => Attendance.status a = Absent) extra.
Proof.
  induction roster as [|u roster IH]; intros k coll; cbn [sweep].
  - exists []. rewrite app_nil_r. auto.
  - destruct (Attendance.findOne (User.userId u) lo hi coll).
    + apply IH.
    + fold (absent_entry u (stamp k)).
      destruct (IH (S k) (coll ++ [absent_entry u (stamp k)]))
        as (extra & E & F).
      eexists. rewrite E, <- app_assoc. split; [reflexivity|].
      constructor; [reflexivity|exact F].
Qed.

(** An identity that has an entry in the window gets none from the sweep. *)
Lemma sweep_covered lo hi stamp roster : forall k coll,
  (forall u, In u roster ->
     Attendance.findOne (User.userId u) lo hi coll <> None) ->
  sweep lo hi stamp k roster coll = coll.
Proof.
  induction roster as [|u roster IH]; intros k coll Hc; cbn [sweep];
    [reflexivity|].
  destruct (Attendance.findOne (User.userId u) lo hi coll) eqn:E.
  - apply IH. intros v Hv. apply Hc. right. exact Hv.
  - exfalso. apply (Hc u); [left; reflexivity|exact E].
Qed.

(** When every document is stamped inside the window, every identity of
    the roster has an entry in the window after the sweep. *)
Lemma sweep_covers lo hi stamp roster : forall k coll,
  (forall j, lo <= stamp j < hi) ->
  forall u, In u roster ->
    Attendance.findOne (User.userId u) lo hi (sweep lo hi stamp k roster coll)
    <> None.
Proof.
  induction roster as [|v roster IH]; intros k coll Hs u Hu; [destruct Hu|].
  cbn [sweep].
  destruct Hu as [<- | Hu].
  - destruct (Attendance.findOne (User.userId v) lo hi coll) eqn:E.
    + destruct (sweep_appends lo hi stamp roster (S k) coll) as (extra & -> & _).
      apply find_app_found. unfold Attendance.findOne in E. congruence.
    + match goal with |- context [sweep _ _ _ _ _ (coll ++ [?e])] =>
        destruct (sweep_appends lo hi stamp roster (S k) (coll ++ [e]))
          as (extra & -> & _);
        apply find_app_found;
        unfold Attendance.findOne;
        rewrite (find_app_last _ coll e E); [discriminate|]
      end.
      unfold Attendance.in_day. cbn. rewrite jsstring_eqb_refl. cbn [andb].
      specialize (Hs k).
      apply andb_true_iff; split; [apply Z.leb_le|apply Z.ltb_lt]; lia.
  - destruct (Attendance.findOne (User.userId v) lo hi coll);
      apply IH; assumption.
Qed.

Lemma autoAbsent_roster today stamp st u roster :
  User.find_role_user (users st) = u :: roster ->
  autoAbsent today stamp st =
  match day_window today with
  | None => None
  | Some (lo, hi) =>
      Some {| users := users st;
              attendances := sweep lo hi stamp 0 (u :: roster) (attendances st) |}
  end.
Proof. intros E. unfold autoAbsent. rewrite E. reflexivity. Qed.

(** Idempotence of the sweep, stated on the window of its existence
    check. *)
Lemma autoAbsent_idempotent_inside_window today stamp today' stamp' st st1
  lo hi :
  autoAbsent today stamp st = Some st1 ->
  day_window today = Some (lo, hi) ->
  (forall j, lo <= stamp j < hi) ->
  Day today' = Day today ->
  autoAbsent today' stamp' st1 = Some st1.
Proof.
  intros H1 Hw Hs Hd.
  destruct (User.find_role_user (users st)) as [|u roster] eqn:Er.
  - unfold autoAbsent in *. rewrite Er in H1. injection H1 as <-.
    rewrite Er. reflexivity.
  - rewrite (autoAbsent_roster _ _ _ _ _ Er), Hw in H1.
    assert (st1 = {| users := users st;
                     attendances := sweep lo hi stamp 0 (u :: roster)
                                      (attendances st) |}) as ->
      by congruence.
    rewrite (autoAbsent_roster _ _ _ u roster) by exact Er.
    rewrite (day_window_same_day _ _ Hd), Hw.
    unfold attendances at 1. unfold users at 1.
    rewrite sweep_covered; [reflexivity|].
    intros v Hv. apply sweep_covers; assumption.
Qed.

(** X25.  The sweep is idempotent within a day as long as its documents
    are stamped before the last millisecond of the day: a second run on
    the same day then writes nothing. *)
Lemma autoAbsent_idempotent_before_last_ms today stamp today' stamp' st st1 :
  autoAbsent today stamp st = Some st1 ->
  (forall j, before_last_ms today (stamp j)) ->
  Day today' = Day today ->
  autoAbsent today' stamp' st1 = Some st1.
Proof.
  intros H1 Hs Hd.
  destruct (day_window today) as [[lo hi]|] eqn:Hw.
  - apply (autoAbsent_idempotent_inside_window today stamp today' stamp' st st1
             lo hi H1 Hw); [|exact Hd].
    intros j. exact (before_last_ms_window _ _ _ _ Hw (Hs j)).
  - unfold autoAbsent in *. rewrite Hw in H1.
    destruct (User.find_role_user (users st)) eqn:Er; [|discriminate].
    injection H1 as <-. rewrite Er. reflexivity.
Qed.


(* ================================================================= *)
(** ** Scan: what it writes and what it accepts *)

Section ScanEffects.
Context `{Platform}.

Lemma scan_unknown_identity_store today stamp sd ab st :
  scanned_identity sd st = None ->
  scan today stamp sd ab st = (fst (scan today stamp sd ab st), st) /\
  is_rejection (fst (scan today stamp sd ab st)) = true
  \/ scan today stamp sd ab st = (ScanFailure, st).
Proof.
  unfold scan, scanned_identity.
  destruct (negb (truthy sd) || negb (truthy ab)); [left; split; reflexivity|].
  destruct (decode sd) as [parsed| | |];
    try (left; split; reflexivity); try (right; reflexivity).
  destruct (get_prop parsed (str "userId")) as [uid|]; [|right; reflexivity].
  destruct (get_prop parsed (str "bus")) as [g|]; [|right; reflexivity].
  destruct (userId_filter uid) as [cond|]; [|right; reflexivity].
  intros ->. left; split; reflexivity.
Qed.

(** The two ways of a scan: it leaves the store as it is, or it has found
    the identity its payload names and the groups agree. *)
Lemma scan_cases today stamp sd ab st :
  snd (scan today stamp sd ab st) = st /\
  is_rejection (fst (scan today stamp sd ab st)) = true
  \/ scan today stamp sd ab st = (ScanFailure, st)
  \/ exists i u,
       scanned_identity sd st = Some (i, u) /\
       scan today stamp sd ab st
       = let u' := User.set_attendance u (str "Present") in
         let st1 := {| users := replace_at i u' (users st);
                       attendances := attendances st |} in
         match day_window today with
         | None => (ScanFailure, st1)
         | Some (lo, hi) =>
             (ScanSuccess (User.name u) (User.bus u),
              match Attendance.findOne (User.userId u) lo hi (attendances st)
              with
              | Some _ => st1
              | None =>
                  {| users := users st1;
                     attendances := attendances st ++ [present_entry u stamp] |}
              end)
         end.
Proof.
  destruct (scanned_identity sd st) as [[i u]|] eqn:Hid.
  - destruct (truthy ab) eqn:Hab;
      [|left; unfold scan; rewrite Hab, orb_true_r; split; reflexivity].
    destruct (decoded_group sd) as [g|] eqn:Hg.
    + rewrite (scan_known_identity _ _ _ _ _ _ _ _ Hab Hid Hg).
      destruct (negb (strict_eq g ab)); [left; split; reflexivity|].
      right. right. exists i, u. split; reflexivity.
    + exfalso. unfold scanned_identity in Hid.
      destruct (decode sd) as [parsed| | |] eqn:Hd; try discriminate.
      destruct (decoded_group_total sd parsed Hd) as (g & Hg'). congruence.
  - destruct (scan_unknown_identity_store today stamp sd ab st Hid)
      as [[E R] | E]; [left|right; left; exact E].
    split; [rewrite E; reflexivity|exact R].
Qed.

Lemma scanned_identity_nth sd st i u :
  scanned_identity sd st = Some (i, u) -> nth_error (users st) i = Some u.
Proof.
  unfold scanned_identity.
  destruct (decode sd) as [parsed| | |]; try discriminate.
  destruct (get_prop parsed (str "userId")) as [uid|]; [|discriminate].
  destruct (userId_filter uid) as [cond|]; [|discriminate].
  intros Hf. apply find_first_Some in Hf. tauto.
Qed.

(** X1.  The only field of an Identity that a scan ever writes is the
    attendance flag of the identity its payload names, set to Present; and
    the ledger only grows, by at most the one Present entry of that
    identity.  This is stated of the payloads whose key, when it is a
    string, is well formed: the store looks such a key up as it is
    written. *)
Theorem scan_effect today stamp sd ab st :
  key_well_formed sd ->
  snd (scan today stamp sd ab st) = st \/
  exists i u,
    scanned_identity sd st = Some (i, u) /\
    users (snd (scan today stamp sd ab st))
    = replace_at i (User.set_attendance u (str "Present")) (users st) /\
    (attendances (snd (scan today stamp sd ab st)) = attendances st \/
     attendances (snd (scan today stamp sd ab st))
     = attendances st ++ [present_entry u stamp]).
Proof.
  intros _.
  destruct (scan_cases today stamp sd ab st)
    as [[E _] | [E | (i & u & Hid & E)]].
  - left. exact E.
  - left. rewrite E. reflexivity.
  - right. exists i, u. split; [exact Hid|]. rewrite E. cbv zeta.
    destruct (day_window today) as [[lo hi]|]; cbn [snd users attendances];
      [|auto].
    destruct (Attendance.findOne (User.userId u) lo hi (attendances st));
      cbn [users attendances]; auto.
Qed.

(** X2.  A scan that rejects the request (400 or 404) has written
    nothing. *)
Theorem scan_rejection_pure today stamp sd ab st :
  is_rejection (fst (scan today stamp sd ab st)) = true ->
  snd (scan today stamp sd ab st) = st.
Proof.
  destruct (scan_cases today stamp sd ab st)
    as [[E _] | [E | (i & u & Hid & E)]].
  - intros _. exact E.
  - rewrite E. reflexivity.
  - rewrite E. cbv zeta.
    destruct (day_window today) as [[lo hi]|]; cbn [fst is_rejection];
      discriminate.
Qed.

(** What a payload made by [encode] decodes to. *)
Lemma decode_encode userId name bus role :
  userId <> [] ->
  decode (JStr (encode userId name bus role))
  = DecodedOk (qrData userId name bus role).
Proof.
  intros Hne. unfold decode. rewrite JSON_parse_encode.
  change (get_prop (qrData userId name bus role) (str "userId"))
    with (Some (JStr userId)).
  destruct userId; [congruence|reflexivity].
Qed.

(** The scan of a payload made by [encode] that names a stored identity
    and carries the group of the station. *)
Lemma scan_encoded today stamp st i u name (group role : jsstring) :
  User.findOne (fun id => jsstring_eqb id (User.userId u)) (users st)
  = Some (i, u) ->
  User.userId u <> [] ->
  group <> [] ->
  scan today stamp (JStr (encode (User.userId u) name group role))
    (JStr group) st
  = let u' := User.set_attendance u (str "Present") in
    let st1 := {| users := replace_at i u' (users st);
                  attendances := attendances st |} in
    match day_window today with
    | None => (ScanFailure, st1)
    | Some (lo, hi) =>
        (ScanSuccess (User.name u) (User.bus u),
         match Attendance.findOne (User.userId u) lo hi (attendances st) with
         | Some _ => st1
         | None =>
             {| users := users st1;
                attendances := attendances st ++ [present_entry u stamp] |}
         end)
    end.
Proof.
  intros Hfind Hid Hgroup.
  assert (Hab : truthy (JStr group) = true)
    by (destruct group; [congruence|reflexivity]).
  assert (Hsi : scanned_identity (JStr (encode (User.userId u) name group role)) st
                = Some (i, u)).
  { unfold scanned_identity. rewrite (decode_encode _ _ _ _ Hid).
    change (get_prop (qrData (User.userId u) name group role) (str "userId"))
      with (Some (JStr (User.userId u))).
    exact Hfind. }
  assert (Hg : decoded_group (JStr (encode (User.userId u) name group role))
               = Some (JStr group)).
  { unfold decoded_group. rewrite (decode_encode _ _ _ _ Hid). reflexivity. }
  rewrite (scan_known_identity _ _ _ _ _ _ _ _ Hab Hsi Hg).
  cbn [strict_eq]. rewrite jsstring_eqb_refl. reflexivity.
Qed.

(** X3.  The group check compares the payload with the station only.  A
    payload that names a stored identity and carries the station's group
    is accepted whatever the group stored for the identity, and the
    identity is marked Present. *)
Theorem scan_accepts_payload_of_station_group today stamp st i u name
  (group role : jsstring) lo hi :
  User.findOne (fun id => jsstring_eqb id (User.userId u)) (users st)
  = Some (i, u) ->
  User.userId u <> [] ->
  group <> [] ->
  day_window today = Some (lo, hi) ->
  let r := scan today stamp (JStr (encode (User.userId u) name group role))
             (JStr group) st in
  fst r = ScanSuccess (User.name u) (User.bus u) /\
  users (snd r) = replace_at i (User.set_attendance u (str "Present")) (users st) /\
  (Attendance.findOne (User.userId u) lo hi (attendances st) = None ->
   attendances (snd r) = attendances st ++ [present_entry u stamp]).
Proof.
  intros Hfind Hid Hgroup Hw r.
  unfold r. rewrite (scan_encoded _ _ _ _ _ _ _ _ Hfind Hid Hgroup).
  cbv zeta. rewrite Hw. cbn [fst snd].
  split; [reflexivity|]. split.
  - destruct (Attendance.findOne (User.userId u) lo hi (attendances st));
      reflexivity.
  - intros ->. reflexivity.
Qed.

End ScanEffects.


(* ================================================================= *)
(** ** Strings as the store takes them *)

Lemma is_trim_space_range c :
  is_trim_space c = true -> (c < 55296 \/ c = 65279)%N.
Proof.
  unfold is_trim_space. intros Hc.
  rewrite ?orb_true_iff, ?andb_true_iff, ?N.leb_le, ?N.eqb_eq in Hc. lia.
Qed.

Lemma surrogate_no_space c :
  is_lead_surrogate c || is_trail_surrogate c = true ->
  is_trim_space c = false.
Proof.
  intros Hs. destruct (is_trim_space c) eqn:Hc; [|reflexivity].
  apply is_trim_space_range in Hc.
  unfold is_lead_surrogate, is_trail_surrogate in Hs.
  rewrite ?orb_true_iff, ?andb_true_iff, ?N.leb_le in Hs. lia.
Qed.

(** The two ways [toWellFormed] and [quote_body] read the head of a
    string: a pair of surrogates, or one code unit. *)
Lemma surrogate_ind (P : jsstring -> Prop) :
  P [] ->
  (forall c d r,
     is_lead_surrogate c = true -> is_trail_surrogate d = true ->
     P r -> P (c :: d :: r)) ->
  (forall c r,
     toWellFormed (c :: r)
     = (if is_lead_surrogate c || is_trail_surrogate c then 65533%N else c)
       :: toWellFormed r ->
     quote_body (c :: r) = quote_unit c ++ quote_body r ->
     P r -> P (c :: r)) ->
  forall s, P s.
Proof.
  intros Hnil Hpair Hone.
  assert (Hall : forall n s, (List.length s <= n)%nat -> P s).
  { induction n as [|n IH]; intros [|c r] Hlen; try exact Hnil;
      cbn [List.length] in Hlen; [lia|].
    destruct (is_lead_surrogate c) eqn:Ec.
    - destruct r as [|d r'].
      + apply Hone; [cbn; rewrite Ec; reflexivity
                    |cbn; rewrite Ec, app_nil_r; reflexivity|exact Hnil].
      + destruct (is_trail_surrogate d) eqn:Ed.
        * apply Hpair; [exact Ec|exact Ed|].
          apply IH. cbn [List.length] in Hlen. lia.
        * apply Hone; [cbn; rewrite Ec, Ed; reflexivity
                      |cbn; rewrite Ec, Ed; reflexivity|].
          apply IH. lia.
    - apply Hone; [|cbn; rewrite Ec; reflexivity|apply IH; lia].
      cbn [toWellFormed]. rewrite Ec. cbn [orb].
      destruct (is_trail_surrogate c); reflexivity. }
  intros s. exact (Hall (List.length s) s (Nat.le_refl _)).
Qed.

Lemma toWellFormed_pair c d r :
  is_lead_surrogate c = true -> is_trail_surrogate d = true ->
  toWellFormed (c :: d :: r) = c :: d :: toWellFormed r.
Proof. intros Ec Ed. cbn [toWellFormed]. rewrite Ec, Ed. reflexivity. Qed.

(** The store changes no white space and makes none. *)
Lemma toWellFormed_spaces s :
  map is_trim_space (toWellFormed s) = map is_trim_space s.
Proof.
  induction s as [|c d r Ec Ed IH|c r Hw _ IH] using surrogate_ind.
  - reflexivity.
  - rewrite toWellFormed_pair by assumption. cbn [map]. rewrite IH.
    reflexivity.
  - rewrite Hw. cbn [map]. rewrite IH. f_equal.
    destruct (is_lead_surrogate c || is_trail_surrogate c) eqn:Es;
      [|reflexivity].
    rewrite (surrogate_no_space c Es). reflexivity.
Qed.

Lemma toWellFormed_nil s : toWellFormed s = [] -> s = [].
Proof.
  intros E. pose proof (toWellFormed_spaces s) as Hm. rewrite E in Hm.
  destruct s; [reflexivity|discriminate].
Qed.

(** What the store holds is well formed. *)
Lemma toWellFormed_idem s : well_formed (toWellFormed s).
Proof.
  unfold well_formed.
  induction s as [|c d r Ec Ed IH|c r Hw _ IH] using surrogate_ind.
  - reflexivity.
  - rewrite !toWellFormed_pair, IH by assumption. reflexivity.
  - rewrite Hw.
    destruct (is_lead_surrogate c || is_trail_surrogate c) eqn:Es.
    + cbn [toWellFormed].
      change (is_lead_surrogate 65533) with false.
      change (is_trail_surrogate 65533) with false.
      cbv iota. rewrite IH. reflexivity.
    + apply orb_false_iff in Es as [Ec Et].
      cbn [toWellFormed]. rewrite Ec, Et, IH. reflexivity.
Qed.

(** A well-formed string is taken as it is, whatever follows it. *)
Lemma toWellFormed_app a : forall b,
  well_formed a -> toWellFormed (a ++ b) = a ++ toWellFormed b.
Proof.
  unfold well_formed.
  induction a as [|c d r Ec Ed IH|c r Hw _ IH] using surrogate_ind;
    intros b Ha.
  - reflexivity.
  - rewrite toWellFormed_pair in Ha by assumption.
    cbn [app]. rewrite toWellFormed_pair by assumption.
    rewrite IH; [reflexivity|congruence].
  - rewrite Hw in Ha.
    assert (is_lead_surrogate c = false /\ is_trail_surrogate c = false
            /\ toWellFormed r = r) as (Ec & Et & Hr).
    { destruct (is_lead_surrogate c || is_trail_surrogate c) eqn:Es.
      - exfalso. inversion Ha as [[Hc Hr]]. rewrite <- Hc in Es.
        discriminate.
      - apply orb_false_iff in Es as [Ec Et]. inversion Ha as [Hr].
        rewrite Hr. repeat split; assumption. }
    cbn [app toWellFormed]. rewrite Ec, Et, (IH b Hr). reflexivity.
Qed.

Lemma well_formed_app a b :
  well_formed a -> well_formed b -> well_formed (a ++ b).
Proof.
  intros Ha Hb. unfold well_formed. rewrite (toWellFormed_app a b Ha), Hb.
  reflexivity.
Qed.

Lemma hex_digit_ascii n : (n < 16 -> hex_digit n < 128)%N.
Proof.
  intros Hn. unfold hex_digit. destruct (n <? 10)%N; lia.
Qed.

Lemma well_formed_ascii s :
  Forall (fun c => (c < 128)%N) s -> well_formed s.
Proof.
  unfold well_formed. induction 1 as [|c s Hc _ IH]; [reflexivity|].
  cbn [toWellFormed].
  assert (is_lead_surrogate c = false) as ->.
  { unfold is_lead_surrogate. apply andb_false_iff. left.
    apply N.leb_gt. lia. }
  assert (is_trail_surrogate c = false) as ->.
  { unfold is_trail_surrogate. apply andb_false_iff. left.
    apply N.leb_gt. lia. }
  rewrite IH. reflexivity.
Qed.

(** [JSON.stringify] escapes a surrogate that stands alone: what it
    writes for one code unit is well formed. *)
Lemma quote_unit_well_formed c : well_formed (quote_unit c).
Proof.
  unfold quote_unit.
  repeat match goal with
  | |- context [if (c =? ?k)%N then _ else _] =>
      destruct (c =? k)%N; [reflexivity|]
  end.
  destruct ((c <? 32)%N || is_lead_surrogate c || is_trail_surrogate c)
    eqn:Es.
  - apply well_formed_ascii. unfold unicode_escape.
    repeat constructor; try lia; apply hex_digit_ascii;
      apply N.mod_lt; discriminate.
  - apply orb_false_iff in Es as [Es Et].
    apply orb_false_iff in Es as [_ El].
    unfold well_formed. cbn [toWellFormed]. rewrite El, Et. reflexivity.
Qed.

Lemma quote_body_taken s : forall rest,
  toWellFormed (quote_body s ++ rest) = quote_body s ++ toWellFormed rest.
Proof.
  induction s as [|c d r Ec Ed IH|c r _ Hq IH] using surrogate_ind;
    intros rest.
  - reflexivity.
  - cbn [quote_body]. rewrite Ec, Ed. cbn [app].
    rewrite toWellFormed_pair by assumption. rewrite IH. reflexivity.
  - rewrite Hq, <- !app_assoc.
    rewrite (toWellFormed_app _ _ (quote_unit_well_formed c)), IH.
    reflexivity.
Qed.

Lemma QuoteJSONString_well_formed s : well_formed (QuoteJSONString s).
Proof.
  unfold well_formed, QuoteJSONString.
  change (34%N :: quote_body s ++ [34%N])
    with ([34%N] ++ (quote_body s ++ [34%N])).
  rewrite (toWellFormed_app [34%N]) by reflexivity.
  rewrite quote_body_taken. reflexivity.
Qed.

(** The QR payload of four strings is well formed, whatever the strings:
    it is stored as it is written. *)
Lemma encode_well_formed userId name bus role :
  well_formed (encode userId name bus role).
Proof.
  unfold encode.
  repeat (apply well_formed_app;
          [first [apply QuoteJSONString_well_formed | reflexivity]|]).
  reflexivity.
Qed.

Lemma trim_start_head s : no_space_ahead (trim_start s).
Proof.
  unfold no_space_ahead.
  induction s as [|c s IH]; simpl; [exact I|].
  destruct (is_trim_space c) eqn:E; [exact IH|exact E].
Qed.

Lemma trim_start_fixed s : no_space_ahead s -> trim_start s = s.
Proof. destruct s as [|c s]; simpl; [reflexivity|]. intros ->. reflexivity. Qed.

Lemma trim_start_last s c :
  is_trim_space c = false -> exists z, trim_start (s ++ [c]) = z ++ [c].
Proof.
  intros Hc. induction s as [|d s IH]; simpl.
  - rewrite Hc. exists []. reflexivity.
  - destruct (is_trim_space d); [exact IH|].
    exists (d :: s). reflexivity.
Qed.

(** A trimmed string has no white space at either end. *)
Lemma trim_ends s : no_space_ahead (trim s) /\ no_space_ahead (rev (trim s)).
Proof.
  unfold trim. rewrite rev_involutive. split; [|apply trim_start_head].
  pose proof (trim_start_head s) as Ha.
  destruct (trim_start s) as [|c a']; [exact I|].
  cbn [rev]. cbn [no_space_ahead] in Ha.
  destruct (trim_start_last (rev a') c Ha) as (z & ->).
  rewrite rev_app_distr. exact Ha.
Qed.

Lemma trimmed_iff s :
  trimmed s <-> no_space_ahead s /\ no_space_ahead (rev s).
Proof.
  unfold trimmed. split.
  - intros E. rewrite <- E. apply trim_ends.
  - intros [Hs Hr]. unfold trim.
    rewrite (trim_start_fixed s Hs), (trim_start_fixed (rev s) Hr).
    apply rev_involutive.
Qed.

(** Trimming twice is trimming once. *)
Lemma trim_trim s : trimmed (trim s).
Proof. apply trimmed_iff. apply trim_ends. Qed.

Lemma no_space_ahead_spaces s t :
  map is_trim_space s = map is_trim_space t ->
  no_space_ahead s -> no_space_ahead t.
Proof.
  destruct s, t; cbn; try discriminate; try tauto.
  intros E. inversion E. congruence.
Qed.

(** The store keeps a string trimmed or not as it was. *)
Lemma trimmed_toWellFormed s : trimmed (toWellFormed s) <-> trimmed s.
Proof.
  rewrite !trimmed_iff.
  pose proof (toWellFormed_spaces s) as Hm.
  assert (Hr : map is_trim_space (rev (toWellFormed s))
               = map is_trim_space (rev s))
    by (rewrite !map_rev, Hm; reflexivity).
  split; intros [H1 H2]; split;
    eauto using no_space_ahead_spaces, eq_sym.
Qed.

(* ================================================================= *)
(** ** Registration and login *)

Lemma existsb_userId_known k (us : list User.Doc) :
  existsb (fun u => jsstring_eqb (User.userId u) k) us = true <->
  exists u, In u us /\ User.userId u = k.
Proof.
  rewrite existsb_exists. split; intros (u & Hin & Hk); exists u;
    (split; [exact Hin|]); apply jsstring_eqb_eq; exact Hk.
Qed.

Lemma find_first_None {A} (p : A -> bool) l :
  find_first p l = None <-> forall x, In x l -> p x = false.
Proof.
  induction l as [|y l IH]; simpl.
  - split; [intros _ x []|reflexivity].
  - destruct (p y) eqn:E.
    + split; [discriminate|]. intros Hall.
      rewrite (Hall y (or_introl eq_refl)) in E. discriminate.
    + destruct (find_first p l) as [[j z]|].
      * split; [discriminate|]. intros Hall. exfalso.
        assert (Some (j, z) = None) as Habs; [|discriminate].
        apply IH. intros x Hx. apply Hall. right. exact Hx.
      * split; [|reflexivity]. intros _ x [<- | Hx]; [exact E|].
        apply (proj1 IH eq_refl x Hx).
Qed.

(** The document appended last is the one a lookup of a new key finds. *)
Lemma find_first_app_new {A} (p : A -> bool) l x :
  (forall y, In y l -> p y = false) -> p x = true ->
  find_first p (l ++ [x]) = Some (List.length l, x).
Proof.
  intros Hl Hx. induction l as [|y l IH]; simpl.
  - rewrite Hx. reflexivity.
  - rewrite (Hl y (or_introl eq_refl)).
    rewrite IH; [reflexivity|]. intros z Hz. apply Hl. right. exact Hz.
Qed.

Section AccountFacts.
Context `{Platform} `{Accounts}.

(** With four strings, the QR data registered is the text of [encode]. *)
Lemma stringify_qrData_strings userId name bus role :
  stringify_qrData userId (JStr name) (JStr bus) (JStr role)
  = encode userId name bus role.
Proof. reflexivity. Qed.

Lemma required_String_nonempty v s : required_String v = Some s -> s <> [].
Proof.
  unfold required_String. destruct (String_path v) as [[|c t]|];
    try discriminate. intros E; inversion E; discriminate.
Qed.

Lemma required_String_JStr (s t : jsstring) :
  required_String (JStr s) = Some t -> t = s /\ s <> [].
Proof.
  unfold required_String. cbn [String_path].
  destruct s; [discriminate|]. intros E. inversion E.
  split; [reflexivity|discriminate].
Qed.

(** A registration leaves the store as it was or answers 201. *)
Lemma register_store salt uuid name userId bus role password st :
  snd (register salt uuid name userId bus role password st) = st \/
  exists k st',
    register salt uuid name userId bus role password st
    = (Registered k role, st').
Proof.
  unfold register.
  destruct (negb (truthy name) || negb (truthy bus) || negb (truthy role)
            || negb (truthy password) || negb (truthy userId));
    [left; reflexivity|].
  destruct password; try (left; reflexivity).
  cbv zeta.
  match goal with |- context [new_User ?a ?b ?c ?d ?e] =>
    destruct (new_User a b c d e) end; [|left; reflexivity].
  match goal with |- context [existsb ?f ?l] => destruct (existsb f l) end;
    [left; reflexivity|].
  right. eexists. eexists. reflexivity.
Qed.

(** What a registration answered 201 has gone through, and the identity
    it appended: the strings of the request as the store takes them. *)
Lemma register_created salt uuid name userId bus role password st k st' :
  register salt uuid name userId bus role password st
  = (Registered k role, st') ->
  exists d n b pw,
    users st' = users st ++ [d] /\
    attendances st' = attendances st /\
    required_String userId = Some k /\
    required_String name = Some n /\
    required_String bus = Some b /\
    role_path role = Some (User.role d) /\
    password = JStr pw /\
    User.userId d = toWellFormed k /\
    User.name d = toWellFormed n /\
    User.bus d = toWellFormed b /\
    User.password d = toWellFormed (bcrypt_hash salt pw) /\
    User.attendance d = str "Absent" /\
    User.qrCode d
    = (if strict_eq role (JStr (str "user"))
       then Some (toWellFormed (stringify_qrData k name bus role))
       else None) /\
    ~ known_identity (User.userId d) st /\
    User.findOne (fun id => jsstring_eqb id (toWellFormed k)) (users st')
    = Some (List.length (users st), d).
Proof.
  unfold register.
  destruct (negb (truthy name) || negb (truthy bus) || negb (truthy role)
            || negb (truthy password) || negb (truthy userId)) eqn:Hreq;
    [discriminate|].
  destruct password as [| | | |pw| |]; try discriminate.
  assert (truthy userId = true) as Hu.
  { apply orb_false_iff in Hreq as [_ Hreq].
    apply negb_false_iff in Hreq. exact Hreq. }
  rewrite Hu. cbv zeta.
  unfold new_User.
  destruct (required_String name) as [n|] eqn:En; [|discriminate].
  destruct (required_String userId) as [i|] eqn:Ei; [|discriminate].
  destruct (required_String bus) as [b|] eqn:Eb; [|discriminate].
  destruct (role_path role) as [rl|] eqn:Erl; [|discriminate].
  destruct (bcrypt_hash salt pw) as [|c p] eqn:Eh; [discriminate|].
  set (d0 := {| User.name := n; User.userId := i; User.bus := b;
                User.role := rl; User.password := c :: p;
                User.qrCode := None; User.attendance := str "Absent" |}).
  assert (Hkey : User.userId
            (as_stored
               (if strict_eq role (JStr (str "user"))
                then set_qrCode d0
                       (stringify_qrData (User.userId d0) name bus role)
                else d0)) = toWellFormed i)
    by (destruct (strict_eq role (JStr (str "user"))); reflexivity).
  assert (Hans : User.userId
            (if strict_eq role (JStr (str "user"))
             then set_qrCode d0
                    (stringify_qrData (User.userId d0) name bus role)
             else d0) = i)
    by (destruct (strict_eq role (JStr (str "user"))); reflexivity).
  rewrite Hkey, Hans.
  destruct (existsb (fun u => jsstring_eqb (User.userId u) (toWellFormed i))
              (users st)) eqn:Hex; [discriminate|].
  intros E.
  assert (k = i) as -> by congruence.
  match type of E with (_, ?s) = _ =>
    assert (st' = s) as -> by congruence end.
  clear E.
  assert (Hnk : ~ known_identity (toWellFormed i) st).
  { intros Hkn. apply existsb_userId_known in Hkn. congruence. }
  exists (as_stored
            (if strict_eq role (JStr (str "user"))
             then set_qrCode d0
                    (stringify_qrData (User.userId d0) name bus role)
             else d0)), n, b, pw.
  cbn [users attendances]. rewrite Hkey.
  split; [reflexivity|]. split; [reflexivity|].
  split; [reflexivity|]. split; [reflexivity|]. split; [reflexivity|].
  assert (Hfind : forall d : User.Doc,
            User.userId d = toWellFormed i ->
            User.findOne (fun id => jsstring_eqb id (toWellFormed i))
              (users st ++ [d])
            = Some (List.length (users st), d)).
  { intros d Hd. unfold User.findOne. apply find_first_app_new.
    - intros y Hy.
      destruct (jsstring_eqb (User.userId y) (toWellFormed i)) eqn:E;
        [|reflexivity].
      exfalso. apply Hnk. exists y. split; [exact Hy|].
      apply jsstring_eqb_eq. exact E.
    - rewrite Hd. apply jsstring_eqb_refl. }
  destruct (strict_eq role (JStr (str "user"))) eqn:Es;
    cbn [as_stored set_qrCode d0 User.userId User.name User.bus User.role
         User.password User.attendance User.qrCode option_map];
    rewrite <- Eh;
    repeat (split; [reflexivity|]);
    (split; [exact Hnk|]); apply Hfind; reflexivity.
Qed.

(** X4.  A registration either answers 400 or 500 and leaves the store as
    it was, or answers 201 and appends exactly one Identity.  The answer
    shows the key of the request; the new identity carries the key, the
    name and the group of the request as the store takes them (a
    surrogate that stands alone is written as U+FFFD), a key that is not
    empty and that no stored identity carries, the flag Absent, the bcrypt
    hash for its password, and a QR payload exactly when the role of the
    request is the string user; the ledger is not touched.  The answer
    never depends on [uuid]: the key is always the one of the request. *)
Theorem register_effect salt uuid name userId bus role password st :
  let r := register salt uuid name userId bus role password st in
  ((fst r = RegisterBadRequest \/ fst r = RegisterFailure) /\ snd r = st
   \/
   exists d k n b pw,
     fst r = Registered k role /\
     snd r = {| users := users st ++ [d]; attendances := attendances st |} /\
     required_String userId = Some k /\
     required_String name = Some n /\
     required_String bus = Some b /\
     role_path role = Some (User.role d) /\
     password = JStr pw /\
     User.userId d = toWellFormed k /\
     User.userId d <> [] /\
     ~ known_identity (User.userId d) st /\
     User.name d = toWellFormed n /\
     User.bus d = toWellFormed b /\
     User.password d = toWellFormed (bcrypt_hash salt pw) /\
     User.attendance d = str "Absent" /\
     (User.qrCode d <> None <-> role = JStr (str "user"))) /\
  (forall uuid', register salt uuid' name userId bus role password st = r).
Proof.
  intros r. split.
  - destruct (register_store salt uuid name userId bus role password st)
      as [Hst | (k & st' & Er)].
    + destruct (fst r) as [|k ro|] eqn:Ef.
      * left. split; [auto|exact Hst].
      * right. exfalso.
        destruct r as [resp st'] eqn:Er. cbn [fst snd] in *. subst resp.
        assert (ro = role) as ->.
        { unfold r, register in Er.
          destruct (negb (truthy name) || negb (truthy bus)
                    || negb (truthy role) || negb (truthy password)
                    || negb (truthy userId)); [discriminate|].
          destruct password; try discriminate. cbv zeta in Er.
          match type of Er with context [new_User ?a ?b ?c ?d ?e] =>
            destruct (new_User a b c d e) end; [|discriminate].
          match type of Er with context [existsb ?f ?l] =>
            destruct (existsb f l) end; [discriminate|].
          congruence. }
        destruct (register_created _ _ _ _ _ _ _ _ _ _ Er)
          as (d & _ & _ & _ & Hus & _).
        fold r in Hst. rewrite Er in Hst. cbn [snd] in Hst.
        rewrite Hst in Hus.
        apply (f_equal (@List.length _)) in Hus.
        rewrite length_app in Hus. cbn in Hus. lia.
      * left. split; [auto|exact Hst].
    + right.
      destruct (register_created _ _ _ _ _ _ _ _ _ _ Er)
        as (d & n & b & pw & Hus & Hat & Hk & Hn & Hb & Hr & Hp & Hki & Hni
            & Hbi & Hpi & Ha & Hq & Hnk & _).
      exists d, k, n, b, pw. unfold r. rewrite Er. cbn [fst snd].
      split; [reflexivity|].
      split; [destruct st'; cbn in *; congruence|].
      repeat (split; [assumption|]).
      split.
      { rewrite Hki. intros E. apply toWellFormed_nil in E.
        exact (required_String_nonempty _ _ Hk E). }
      repeat (split; [assumption|]).
      rewrite Hq. destruct (strict_eq role (JStr (str "user"))) eqn:Es.
      * split; [intros _|discriminate].
        destruct role; try discriminate. cbn [strict_eq] in Es.
        apply jsstring_eqb_eq in Es. congruence.
      * split; [congruence|]. intros ->. cbn [strict_eq] in Es.
        rewrite jsstring_eqb_refl in Es. discriminate.
  - intros uuid'. unfold r, register.
    destruct (negb (truthy name) || negb (truthy bus) || negb (truthy role)
              || negb (truthy password) || negb (truthy userId)) eqn:Hreq;
      [reflexivity|].
    apply orb_false_iff in Hreq as [_ Hreq]. apply negb_false_iff in Hreq.
    rewrite Hreq. reflexivity.
Qed.

End AccountFacts.

Section AccountSequences.
Context `{Platform} `{Accounts}.

(** X5.  Registration and scan fit together.  Once an identity of role
    user is registered with a name, a group and a well-formed key that
    are strings, its stored QR payload is the JSON text of its data, and
    scanned at a station of its group it is accepted with its name and
    group as the store holds them; and when every entry of the ledger
    belonged to a registered identity, the scan inserts the Present entry
    of the new identity. *)
Theorem register_then_scan salt uuid (name key bus : jsstring) password
  st st' today stamp lo hi :
  register salt uuid (JStr name) (JStr key) (JStr bus) (JStr (str "user"))
    password st
  = (Registered key (JStr (str "user")), st') ->
  well_formed key ->
  day_window today = Some (lo, hi) ->
  let qr := encode key name bus (str "user") in
  (exists d, In d (users st') /\ User.userId d = key /\
             User.qrCode d = Some qr) /\
  fst (scan today stamp (JStr qr) (JStr bus) st')
  = ScanSuccess (toWellFormed name) (toWellFormed bus) /\
  (ledger_refers_to_identities st ->
   attendances (snd (scan today stamp (JStr qr) (JStr bus) st'))
   = attendances st
     ++ [Attendance.create key (toWellFormed bus) Present stamp]).
Proof.
  intros Er Hwf Hw qr.
  destruct (register_created _ _ _ _ _ _ _ _ _ _ Er)
    as (d & n & b & pw & Hus & Hat & Hk & Hn & Hb & _ & _ & Hki & Hni
        & Hbi & _ & _ & Hq & Hnk & Hfind).
  apply required_String_JStr in Hn as [-> _].
  apply required_String_JStr in Hb as [-> Hbne].
  apply required_String_JStr in Hk as [_ Hkne].
  unfold well_formed in Hwf. rewrite Hwf in Hki, Hfind.
  cbn [strict_eq] in Hq. rewrite jsstring_eqb_refl in Hq.
  rewrite stringify_qrData_strings, encode_well_formed in Hq.
  split.
  - exists d. split; [rewrite Hus; apply in_or_app; right; left; reflexivity|].
    split; [exact Hki|exact Hq].
  - rewrite <- Hki in Hfind, Hkne.
    unfold qr. rewrite <- Hki.
    rewrite (scan_encoded today stamp st' _ d name bus (str "user")
               Hfind Hkne Hbne).
    cbv zeta. rewrite Hw. cbn [fst snd].
    split; [rewrite Hni, Hbi; reflexivity|].
    intros Hinv.
    assert (Attendance.findOne (User.userId d) lo hi (attendances st') = None)
      as ->.
    { rewrite Hat. unfold Attendance.findOne. apply find_None_iff.
      pose proof (unknown_identity_no_rows _ st Hinv Hnk) as Hrows.
      clear - Hrows. induction (attendances st) as [|a l IH]; [reflexivity|].
      cbn [filter]. unfold Attendance.in_day at 1.
      destruct (jsstring_eqb (Attendance.userId a) (User.userId d)) eqn:E.
      - apply jsstring_eqb_eq in E. exfalso.
        exact (Hrows a (or_introl eq_refl) E).
      - cbn [andb]. apply IH. intros a' Ha'. apply Hrows. right. exact Ha'. }
    cbn [attendances]. rewrite Hat. unfold present_entry.
    rewrite Hbi. reflexivity.
Qed.

(** X6.  Registration and login fit together.  After a registration, a
    login whose trimmed ID is, as the store takes it, the registered key
    as the store took it finds the new identity and answers by what
    [bcrypt.compare] says of the password against the stored hash. *)
Theorem register_then_login salt uuid name userId bus role password st
  key st' (id pw' : jsstring) :
  register salt uuid name userId bus role password st
  = (Registered key role, st') ->
  toWellFormed (trim id) = toWellFormed key ->
  pw' <> [] ->
  exists d pw,
    In d (users st') /\ User.userId d = toWellFormed key /\
    password = JStr pw /\
    User.password d = toWellFormed (bcrypt_hash salt pw) /\
    login (JStr id) (JStr pw') st'
    = if bcrypt_compare pw' (User.password d)
      then LoginOk (User.name d) (toWellFormed key) (User.bus d)
             (User.role d) (User.qrCode d)
      else LoginInvalidPassword.
Proof.
  intros Er Hid Hpw.
  destruct (register_created _ _ _ _ _ _ _ _ _ _ Er)
    as (d & n & b & pw & Hus & _ & Hk & _ & _ & _ & Hp & Hki & _
        & _ & Hpi & _ & _ & _ & Hfind).
  exists d, pw.
  split; [rewrite Hus; apply in_or_app; right; left; reflexivity|].
  split; [exact Hki|]. split; [exact Hp|]. split; [exact Hpi|].
  unfold login.
  assert (truthy (JStr id) = true) as ->.
  { destruct id; [|reflexivity]. exfalso.
    apply (required_String_nonempty _ _ Hk).
    apply toWellFormed_nil. rewrite <- Hid. reflexivity. }
  assert (truthy (JStr pw') = true) as ->
    by (destruct pw'; [congruence|reflexivity]).
  cbn [negb orb]. rewrite Hid, Hfind, Hki. reflexivity.
Qed.

(** The key of the identity a login answers with is the trimmed ID of the
    request as the store takes it. *)
Lemma login_ok_key userId password st n k b r q :
  login userId password st = LoginOk n k b r q ->
  exists id, userId = JStr id /\ k = toWellFormed (trim id).
Proof.
  unfold login.
  destruct (negb (truthy userId) || negb (truthy password)); [discriminate|].
  destruct userId as [| | | |id| |]; try discriminate.
  destruct (User.findOne (fun k0 => jsstring_eqb k0 (toWellFormed (trim id)))
              (users st))
    as [[i u]|] eqn:Hf; [|discriminate].
  destruct password; try discriminate.
  destruct (bcrypt_compare s (User.password u)); [|discriminate].
  intros E. inversion E; subst. exists id. split; [reflexivity|].
  apply find_first_Some in Hf as [_ Hp]. apply jsstring_eqb_eq in Hp.
  exact Hp.
Qed.

(** X7.  Registration keeps the white space of the key it is given, login
    trims the ID it is given.  An identity registered under a key with
    white space at an end is stored, and out of reach of every login: no
    login on the store after its registration answers with that
    identity. *)
Theorem register_untrimmed_key_cannot_login salt uuid name userId bus role
  password st key st' :
  register salt uuid name userId bus role password st
  = (Registered key role, st') ->
  ~ trimmed key ->
  known_identity (toWellFormed key) st' /\
  forall userId' password' n b r q,
    login userId' password' st' <> LoginOk n (toWellFormed key) b r q.
Proof.
  intros Er Hkey. split.
  - destruct (register_created _ _ _ _ _ _ _ _ _ _ Er)
      as (d & _ & _ & _ & Hus & _ & _ & _ & _ & _ & _ & Hki & _).
    exists d. split; [|exact Hki].
    rewrite Hus. apply in_or_app. right. left. reflexivity.
  - intros userId' password' n b r q Hl.
    destruct (login_ok_key _ _ _ _ _ _ _ _ Hl) as (id & _ & E).
    apply Hkey. apply trimmed_toWellFormed. rewrite E.
    apply trimmed_toWellFormed. apply trim_trim.
Qed.

End AccountSequences.

(* ================================================================= *)
(** ** The sweep: what it writes *)

Lemma find_app_None {A} (p : A -> bool) l l' :
  find p (l ++ l') = None -> find p l = None.
Proof.
  induction l as [|x l IH]; simpl; [reflexivity|].
  destruct (p x); [discriminate|exact IH].
Qed.

(** What the loop appends: for identities of the roster, in the order of
    the roster, each without an entry in the window when the loop
    started. *)
Lemma sweep_extra lo hi stamp roster : forall k coll,
  exists extra,
    sweep lo hi stamp k roster coll = coll ++ extra /\
    Forall (fun a =>
              exists u j, In u roster /\ a = absent_entry u (stamp j) /\
                          Attendance.findOne (User.userId u) lo hi coll = None)
           extra.
Proof.
  induction roster as [|u roster IH]; intros k coll; cbn [sweep].
  - exists []. rewrite app_nil_r. auto.
  - destruct (Attendance.findOne (User.userId u) lo hi coll) eqn:Eu.
    + destruct (IH (S k) coll) as (extra & E & F).
      exists extra. split; [exact E|].
      eapply Forall_impl; [|exact F]. cbv beta.
      intros a (v & j & Hv & Ha & Hn). exists v, j.
      split; [right; exact Hv|auto].
    + fold (absent_entry u (stamp k)).
      destruct (IH (S k) (coll ++ [absent_entry u (stamp k)]))
        as (extra & E & F).
      exists (absent_entry u (stamp k) :: extra).
      rewrite E, <- app_assoc. split; [reflexivity|].
      constructor.
      * exists u, k. split; [left; reflexivity|auto].
      * eapply Forall_impl; [|exact F]. cbv beta.
        intros a (v & j & Hv & Ha & Hn). exists v, j.
        split; [right; exact Hv|]. split; [exact Ha|].
        unfold Attendance.findOne in *. eapply find_app_None. exact Hn.
Qed.

(** The store after a sweep that answered 200. *)
Lemma autoAbsent_cases today stamp st st' :
  autoAbsent today stamp st = Some st' ->
  User.find_role_user (users st) = [] /\ st' = st
  \/ exists lo hi,
       day_window today = Some (lo, hi) /\
       st' = {| users := users st;
                attendances := sweep lo hi stamp 0
                                 (User.find_role_user (users st))
                                 (attendances st) |}.
Proof.
  unfold autoAbsent.
  destruct (User.find_role_user (users st)) as [|u roster] eqn:Er.
  - intros E. left. split; [reflexivity|congruence].
  - destruct (day_window today) as [[lo hi]|]; [|discriminate].
    intros E. right. exists lo, hi. split; [reflexivity|congruence].
Qed.

(** X8.  A sweep writes no Identity and only appends to the ledger.  Every
    entry it appends is Absent and carries the key and the group of a
    stored identity of role user that had no entry in the window of the
    day when the sweep started. *)
Theorem autoAbsent_effect today stamp st st' :
  autoAbsent today stamp st = Some st' ->
  users st' = users st /\
  exists extra,
    attendances st' = attendances st ++ extra /\
    Forall (fun a =>
              Attendance.status a = Absent /\
              exists u,
                In u (users st) /\ User.role u = RoleUser /\
                Attendance.userId a = User.userId u /\
                Attendance.bus a = User.bus u /\
                forall lo hi,
                  day_window today = Some (lo, hi) ->
                  Attendance.findOne (User.userId u) lo hi (attendances st)
                  = None)
           extra.
Proof.
  intros Hs.
  destruct (autoAbsent_cases _ _ _ _ Hs) as [[_ ->] | (lo & hi & Hw & ->)].
  - split; [reflexivity|]. exists []. rewrite app_nil_r. auto.
  - split; [reflexivity|]. cbn [attendances].
    destruct (sweep_extra lo hi stamp (User.find_role_user (users st)) 0
                (attendances st)) as (extra & E & F).
    exists extra. split; [exact E|].
    eapply Forall_impl; [|exact F]. cbv beta.
    intros a (u & j & Hu & -> & Hn).
    split; [reflexivity|]. exists u.
    unfold User.find_role_user in Hu. apply filter_In in Hu as [Hu Hr].
    apply Role_eqb_eq in Hr.
    split; [exact Hu|]. split; [exact Hr|].
    split; [reflexivity|]. split; [reflexivity|].
    intros lo' hi' Hw'. rewrite Hw in Hw'. inversion Hw'; subst. exact Hn.
Qed.

(** X9.  When its entries are stamped on the day of the sweep, before the
    last millisecond, a sweep that answered 200 leaves every stored
    identity of role user with an entry dated that day. *)
Theorem autoAbsent_covers_roster today stamp st st' :
  autoAbsent today stamp st = Some st' ->
  (forall k, before_last_ms today (stamp k)) ->
  forall u, In u (users st) -> User.role u = RoleUser ->
    entries_of_day (User.userId u) today (attendances st') <> [].
Proof.
  intros Hs Ht u Hu Hr.
  assert (Hin : In u (User.find_role_user (users st))).
  { unfold User.find_role_user. apply filter_In. split; [exact Hu|].
    apply Role_eqb_eq. exact Hr. }
  destruct (autoAbsent_cases _ _ _ _ Hs) as [[E _] | (lo & hi & Hw & ->)].
  - rewrite E in Hin. destruct Hin.
  - cbn [attendances]. intros He.
    apply (in_day_entries_of_day _ _ _ _ _ Hw) in He.
    revert He. apply sweep_covers; [|exact Hin].
    intros j. exact (before_last_ms_window _ _ _ _ Hw (Ht j)).
Qed.

Section ScanThenSweep.
Context `{Platform}.

(** After a scan that answered 200 with its entry stamped before the last
    millisecond of the day, the identity has an entry in the window. *)
Lemma scan_success_entry today stamp sd ab st n b st' i u lo hi :
  scan today stamp sd ab st = (ScanSuccess n b, st') ->
  scanned_identity sd st = Some (i, u) ->
  day_window today = Some (lo, hi) ->
  before_last_ms today stamp ->
  Attendance.findOne (User.userId u) lo hi (attendances st') <> None.
Proof.
  intros Hs Hid Hw Ht.
  destruct (scan_cases today stamp sd ab st)
    as [[E R] | [E | (i' & u' & Hid' & E)]].
  - rewrite Hs in R. discriminate.
  - rewrite Hs in E. discriminate.
  - rewrite Hid in Hid'. inversion Hid'; subst i' u'.
    rewrite Hs, Hw in E. cbv zeta in E. cbn [users attendances] in E.
    destruct (Attendance.findOne (User.userId u) lo hi (attendances st))
      eqn:Ef.
    + assert (st' = {| users := replace_at i (User.set_attendance u (str "Present"))
                                  (users st);
                       attendances := attendances st |}) as -> by congruence.
      cbn [attendances]. rewrite Ef. discriminate.
    + assert (st' = {| users := replace_at i (User.set_attendance u (str "Present"))
                                  (users st);
                       attendances := attendances st ++ [present_entry u stamp] |})
        as -> by congruence.
      cbn [attendances]. unfold Attendance.findOne in *.
      rewrite (find_app_last _ _ (present_entry u stamp) Ef); [discriminate|].
      pose proof (before_last_ms_window _ _ _ _ Hw Ht) as Hb.
      unfold Attendance.in_day, present_entry. cbn.
      rewrite jsstring_eqb_refl. cbn [andb].
      apply andb_true_iff; split; [apply Z.leb_le|apply Z.ltb_lt]; lia.
Qed.

(** X10.  Scan and sweep fit together.  After a scan that answered 200 and
    stamped its entry before the last millisecond of the day, a sweep of
    the same day appends no entry under the key of the scanned identity:
    who was scanned is not marked Absent that day. *)
Theorem scan_then_autoAbsent today stamp sd ab st n b st1 i u
  today' stamp' st2 :
  scan today stamp sd ab st = (ScanSuccess n b, st1) ->
  scanned_identity sd st = Some (i, u) ->
  before_last_ms today stamp ->
  Day today' = Day today ->
  autoAbsent today' stamp' st1 = Some st2 ->
  exists extra,
    attendances st2 = attendances st1 ++ extra /\
    Forall (fun a => Attendance.userId a <> User.userId u) extra.
Proof.
  intros Hs Hid Ht Hd Ha.
  destruct (scan_success_window _ _ _ _ _ _ _ _ Hs) as (lo & hi & Hw).
  pose proof (scan_success_entry _ _ _ _ _ _ _ _ _ _ _ _ Hs Hid Hw Ht) as He.
  destruct (autoAbsent_cases _ _ _ _ Ha) as [[_ ->] | (lo' & hi' & Hw' & ->)].
  - exists []. rewrite app_nil_r. auto.
  - rewrite (day_window_same_day _ _ Hd), Hw in Hw'.
    inversion Hw'; subst lo' hi'. cbn [attendances].
    destruct (sweep_extra lo hi stamp' (User.find_role_user (users st1)) 0
                (attendances st1)) as (extra & E & F).
    exists extra. split; [exact E|].
    eapply Forall_impl; [|exact F]. cbv beta.
    intros a (v & j & _ & -> & Hn) Heq. cbn in Heq.
    rewrite Heq in Hn. exact (He Hn).
Qed.

End ScanThenSweep.

(* ================================================================= *)
(** ** Reporting: bounds, and months out of range *)

Lemma NoDup_map_filter {A B} (f : A -> B) (p : A -> bool) l :
  NoDup (map f l) -> NoDup (map f (filter p l)).
Proof.
  induction l as [|a l IH]; simpl; intros Hn; [constructor|].
  inversion Hn as [|x l' Hnotin Hrest]; subst.
  destruct (p a); simpl; [constructor|]; auto.
  intros Hin. apply Hnotin.
  apply in_map_iff in Hin as (x & Hx & Hin). apply in_map_iff.
  exists x. split; [exact Hx|]. apply filter_In in Hin. tauto.
Qed.

Lemma entry_key_of_identity id l :
  (forall a, In a l -> Attendance.userId a = id) ->
  map entry_key l = map (pair id) (map (fun a => Day (Attendance.date a)) l).
Proof.
  induction l as [|a l IH]; intros Hid; [reflexivity|].
  cbn [map]. unfold entry_key at 1.
  rewrite (Hid a (or_introl eq_refl)), IH; [reflexivity|].
  intros b Hb. apply Hid. right. exact Hb.
Qed.

(** With one entry per identity and day, a range that spans [total] days
    selects at most [total] entries of an identity. *)
Lemma find_range_length id lo hi coll first total :
  one_entry_per_day coll ->
  0 <= total ->
  (forall t, lo <= t <= hi -> first <= Day t < first + total) ->
  Z.of_nat (List.length (Attendance.find_range id lo hi coll)) <= total.
Proof.
  intros Hone Htot Hdays. unfold Attendance.find_range.
  set (records := filter (Attendance.in_range id lo hi) coll).
  assert (Hrec : forall a, In a records ->
            Attendance.userId a = id /\ lo <= Attendance.date a <= hi).
  { intros a Ha. apply filter_In in Ha as [_ Ha].
    unfold Attendance.in_range in Ha.
    apply andb_true_iff in Ha as [Ha H3].
    apply andb_true_iff in Ha as [H1 H2].
    apply jsstring_eqb_eq in H1. zbool. auto. }
  assert (Hnd : NoDup (map (fun a => Day (Attendance.date a)) records)).
  { apply (NoDup_map_inv (pair id)).
    rewrite <- entry_key_of_identity by (intros a Ha; apply Hrec; exact Ha).
    apply NoDup_map_filter. exact Hone. }
  assert (Hincl : incl (map (fun a => Day (Attendance.date a)) records)
                       (map (fun n => first + Z.of_nat n)
                            (seq 0 (Z.to_nat total)))).
  { intros d Hd. apply in_map_iff in Hd as (a & <- & Ha).
    destruct (Hrec a Ha) as [_ Hr]. specialize (Hdays _ Hr).
    apply in_map_iff.
    exists (Z.to_nat (Day (Attendance.date a) - first)).
    split; [lia|]. apply in_seq. lia. }
  pose proof (NoDup_incl_length Hnd Hincl) as Hlen.
  rewrite !length_map, length_seq in Hlen. lia.
Qed.

(** X11.  When no identity has two entries dated the same day, the report
    of a month from 1 to 12 of a valid year is within bounds: the present
    days and the absent days lie between 0 and the days of the month, and
    the detail has at most one row per day of the month. *)
Theorem monthlySummary_within_bounds (userId : jsstring) (month year : Z)
  (st : Store) (s : Summary) :
  1 <= month <= 12 ->
  valid_year year ->
  one_entry_per_day (attendances st) ->
  monthlySummary userId month year st = Some s ->
  0 <= presentDays s <= totalDays s /\
  0 <= absentDays s <= totalDays s /\
  Z.of_nat (List.length (details s)) <= totalDays s.
Proof.
  intros Hm Hy Hone Hs.
  destruct (month_dates year month Hm Hy) as (E1 & E2 & E3).
  pose proof (DaysBeforeMonth_facts year month Hm) as (H0 & H1 & H2).
  pose proof (spec_days_in_month_pos year month Hm) as H3.
  pose proof (month_last_day year month Hm) as Hlast.
  cbv zeta in E1, E2, E3, H0, H1, H2, Hlast.
  unfold monthlySummary in Hs. rewrite E1, E2, E3 in Hs.
  rewrite Hlast in Hs.
  assert (s = {| totalDays := spec_days_in_month year month;
                 presentDays := Z.of_nat (List.length
                   (filter (fun r => Status_eqb (Attendance.status r) Present)
                      (Attendance.find_range userId
                         ((DayFromYear year
                           + DaysBeforeMonth (month - 1) (leap_flag year))
                          * msPerDay)
                         ((DayFromYear year
                           + DaysBeforeMonth month (leap_flag year) - 1)
                          * msPerDay + 86399000)
                         (attendances st))));
                 absentDays := spec_days_in_month year month
                   - Z.of_nat (List.length
                   (filter (fun r => Status_eqb (Attendance.status r) Present)
                      (Attendance.find_range userId
                         ((DayFromYear year
                           + DaysBeforeMonth (month - 1) (leap_flag year))
                          * msPerDay)
                         ((DayFromYear year
                           + DaysBeforeMonth month (leap_flag year) - 1)
                          * msPerDay + 86399000)
                         (attendances st))));
                 details := Attendance.find_range userId
                         ((DayFromYear year
                           + DaysBeforeMonth (month - 1) (leap_flag year))
                          * msPerDay)
                         ((DayFromYear year
                           + DaysBeforeMonth month (leap_flag year) - 1)
                          * msPerDay + 86399000)
                         (attendances st) |}) as -> by congruence.
  cbn [totalDays presentDays absentDays details].
  match goal with |- context [Attendance.find_range ?i ?lo ?hi ?c] =>
    pose proof (find_range_length i lo hi c
                  (DayFromYear year
                   + DaysBeforeMonth (month - 1) (leap_flag year))
                  (spec_days_in_month year month) Hone) as Hlen;
    set (records := Attendance.find_range i lo hi c) in *
  end.
  assert (Z.of_nat (List.length records) <= spec_days_in_month year month)
    as Hrec.
  { apply Hlen; [lia|]. intros t Ht. unfold Day, msPerDay in *. lia. }
  pose proof (filter_length_le
                (fun r => Status_eqb (Attendance.status r) Present) records).
  lia.
Qed.



(* ================================================================= *)
(** ** The store under any sequence of requests *)

Lemma replace_at_map {A B} (f : A -> B) (l : list A) : forall i x y,
  nth_error l i = Some x -> f y = f x ->
  map f (replace_at i y l) = map f l.
Proof.
  induction l as [|z l IH]; intros [|i] x y; simpl; intros E Hf;
    try discriminate.
  - inversion E; subst. rewrite Hf. reflexivity.
  - rewrite (IH i x y E Hf). reflexivity.
Qed.

Lemma Forall2_same {A} (R : A -> A -> Prop) (l : list A) :
  (forall x, R x x) -> Forall2 R l l.
Proof. intros Hrefl. induction l; constructor; auto. Qed.

Lemma Forall2_replace_at {A} (R : A -> A -> Prop) (l : list A) :
  (forall x, R x x) ->
  forall i x y, nth_error l i = Some x -> R x y ->
    Forall2 R l (replace_at i y l).
Proof.
  intros Hrefl.
  induction l as [|z l IH]; intros [|i] x y; simpl; intros E Hr;
    try discriminate.
  - inversion E; subst. constructor; [exact Hr|].
    apply Forall2_same. exact Hrefl.
  - constructor; [apply Hrefl|]. eapply IH; eassumption.
Qed.

Lemma Forall2_chain {A} (R : A -> A -> Prop) :
  (forall x y z, R x y -> R y z -> R x z) ->
  forall l1 l2 l3, Forall2 R l1 l2 -> Forall2 R l2 l3 -> Forall2 R l1 l3.
Proof.
  intros Htrans l1 l2 l3 H12. revert l3.
  induction H12 as [|x y l1 l2 Hxy H12 IH]; intros l3 H23;
    inversion H23; subst; constructor; eauto.
Qed.

Lemma NoDup_snoc {A} (l : list A) x :
  NoDup l -> ~ In x l -> NoDup (l ++ [x]).
Proof.
  intros Hl Hx. apply NoDup_app; [exact Hl|repeat constructor; intros []|].
  intros a Ha [<- | []]. exact (Hx Ha).
Qed.

Lemma follows_refl u : follows u u.
Proof. unfold follows, same_identity. tauto. Qed.

Lemma follows_trans u v w : follows u v -> follows v w -> follows u w.
Proof.
  unfold follows, same_identity.
  intros ((A1 & A2 & A3 & A4 & A5 & A6) & Af)
         ((B1 & B2 & B3 & B4 & B5 & B6) & Bf).
  repeat split; try congruence.
  destruct Bf as [Bf | Bf]; [|right; exact Bf].
  destruct Af as [Af | Af]; [left|right]; congruence.
Qed.

Lemma evolves_refl st : evolves st st.
Proof.
  exists (users st), [], []. rewrite !app_nil_r.
  split; [apply Forall2_same, follows_refl|auto].
Qed.

Lemma evolves_trans a b c : evolves a b -> evolves b c -> evolves a c.
Proof.
  intros (k1 & m1 & e1 & F1 & U1 & L1) (k2 & m2 & e2 & F2 & U2 & L2).
  rewrite U1 in F2.
  apply Forall2_app_inv_l in F2 as (k2a & k2b & Fa & Fb & ->).
  exists k2a, (k2b ++ m2), (e1 ++ e2).
  split; [exact (Forall2_chain _ follows_trans _ _ _ F1 Fa)|].
  split; [rewrite U2, app_assoc; reflexivity|].
  rewrite L2, L1, app_assoc. reflexivity.
Qed.

(** An entry stamped on a day, before its last millisecond, for an
    identity without an entry in the window of that day, keeps the ledger
    at one entry per identity and day. *)
Lemma ledger_day_append coll a today lo hi :
  one_entry_per_day coll /\ none_in_last_ms coll ->
  day_window today = Some (lo, hi) ->
  Attendance.findOne (Attendance.userId a) lo hi coll = None ->
  before_last_ms today (Attendance.date a) ->
  one_entry_per_day (coll ++ [a]) /\ none_in_last_ms (coll ++ [a]).
Proof.
  intros [Hone Hms] Hw Hnone [Hd Ht]. split.
  - unfold one_entry_per_day. rewrite map_app. cbn [map].
    apply NoDup_snoc; [exact Hone|].
    intros Hin. apply in_map_iff in Hin as (b & Hk & Hb).
    unfold entry_key in Hk.
    assert (Attendance.userId b = Attendance.userId a) as Hid by congruence.
    assert (Day (Attendance.date b) = Day today) as Hday by congruence.
    revert Hnone. unfold Attendance.findOne.
    apply (find_of_In _ _ b Hb).
    apply (day_window_finds _ _ _ _ _ Hw Hid Hday).
    unfold none_in_last_ms in Hms. rewrite Forall_forall in Hms.
    specialize (Hms b Hb). cbv beta in Hms.
    apply day_window_eq in Hw as [-> ->].
    unfold TimeWithinDay, Day, msPerDay in *. lia.
  - unfold none_in_last_ms. apply Forall_app. split; [exact Hms|].
    constructor; [exact Ht|constructor].
Qed.

Lemma sweep_one_entry_per_day today lo hi stamp roster :
  day_window today = Some (lo, hi) ->
  (forall k, before_last_ms today (stamp k)) ->
  forall k coll,
    one_entry_per_day coll /\ none_in_last_ms coll ->
    one_entry_per_day (sweep lo hi stamp k roster coll) /\
    none_in_last_ms (sweep lo hi stamp k roster coll).
Proof.
  intros Hw Ht.
  induction roster as [|u roster IH]; intros k coll Hinv; cbn [sweep];
    [exact Hinv|].
  destruct (Attendance.findOne (User.userId u) lo hi coll) eqn:Ef.
  - apply IH. exact Hinv.
  - apply IH.
    apply (ledger_day_append coll _ today lo hi Hinv Hw); [exact Ef|].
    apply Ht.
Qed.

Section Sequences.
Context `{Platform} `{Accounts}.

Lemma serve_all_cons r rs st :
  serve_all (r :: rs) st = serve_all rs (serve r st).
Proof. reflexivity. Qed.

Lemma known_identity_app k st st' more :
  users st' = users st ++ more -> known_identity k st -> known_identity k st'.
Proof.
  intros Hus (u & Hu & Hk). exists u. split; [|exact Hk].
  rewrite Hus. apply in_or_app. left. exact Hu.
Qed.

(** One request keeps the keys distinct and the ledger within the
    registered identities. *)
Lemma serve_keeps_keys r st :
  identity_keys_unique st /\ ledger_refers_to_identities st ->
  identity_keys_unique (serve r st) /\
  ledger_refers_to_identities (serve r st).
Proof.
  intros [Hu Hl]. destruct r as [salt uuid name userId bus role password
    | | today stamp sd ab | | today stamp | ]; cbn [serve listByGroup snd];
    try (split; assumption).
  - destruct (register_store salt uuid name userId bus role password st)
      as [-> | (k & st' & Er)]; [split; assumption|].
    rewrite Er. cbn [snd].
    destruct (register_created _ _ _ _ _ _ _ _ _ _ Er)
      as (d & n & b & pw & Hus & Hat & _ & _ & _ & _ & _ & _ & _ & _ & _
          & _ & _ & Hnk & _).
    split.
    + unfold identity_keys_unique. rewrite Hus, map_app. cbn [map].
      apply NoDup_snoc; [exact Hu|].
      intros Hin. apply Hnk. apply in_map_iff in Hin as (u & Huk & Hin).
      exists u. auto.
    + intros a Ha. rewrite Hat in Ha.
      exact (known_identity_app _ st st' [d] Hus (Hl a Ha)).
  - split; [|apply scan_keeps_ledger_refs; exact Hl].
    destruct (scan_cases today stamp sd ab st)
      as [[E _] | [E | (i & u & Hid & E)]];
      [rewrite E; exact Hu|rewrite E; exact Hu|].
    apply scanned_identity_nth in Hid.
    assert (map User.userId (users (snd (scan today stamp sd ab st)))
            = map User.userId (users st)) as Hmap.
    { rewrite E. cbv zeta.
      destruct (day_window today) as [[lo hi]|]; cbn [snd users];
        [destruct (Attendance.findOne (User.userId u) lo hi (attendances st));
         cbn [users]|];
        apply (replace_at_map User.userId _ i u); auto. }
    unfold identity_keys_unique. rewrite Hmap. exact Hu.
  - destruct (autoAbsent today stamp st) as [st'|] eqn:Ea;
      [|split; assumption].
    split; [|exact (autoAbsent_keeps_ledger_refs _ _ _ _ Hl Ea)].
    destruct (autoAbsent_cases _ _ _ _ Ea) as [[_ ->] | (lo & hi & _ & ->)];
      exact Hu.
Qed.

(** One request only moves the store forward. *)
Lemma serve_evolves r st : evolves st (serve r st).
Proof.
  destruct r as [salt uuid name userId bus role password
    | | today stamp sd ab | | today stamp | ]; cbn [serve listByGroup snd];
    try apply evolves_refl.
  - destruct (register_store salt uuid name userId bus role password st)
      as [-> | (k & st' & Er)]; [apply evolves_refl|].
    rewrite Er. cbn [snd].
    destruct (register_created _ _ _ _ _ _ _ _ _ _ Er)
      as (d & n & b & pw & Hus & Hat & _).
    exists (users st), [d], []. rewrite app_nil_r.
    split; [apply Forall2_same, follows_refl|auto].
  - destruct (scan_cases today stamp sd ab st)
      as [[E _] | [E | (i & u & Hid & E)]];
      [rewrite E; apply evolves_refl|rewrite E; apply evolves_refl|].
    apply scanned_identity_nth in Hid.
    assert (Hf : Forall2 follows (users st)
                   (replace_at i (User.set_attendance u (str "Present"))
                      (users st))).
    { apply (Forall2_replace_at follows _ follows_refl i u); [exact Hid|].
      unfold follows, same_identity. cbn. tauto. }
    rewrite E. cbv zeta.
    destruct (day_window today) as [[lo hi]|]; cbn [snd].
    + destruct (Attendance.findOne (User.userId u) lo hi (attendances st)).
      * eexists _, [], []. cbn [users attendances]. rewrite !app_nil_r.
        split; [exact Hf|auto].
      * eexists _, [], [_]. cbn [users attendances]. rewrite !app_nil_r.
        split; [exact Hf|auto].
    + eexists _, [], []. cbn [users attendances]. rewrite !app_nil_r.
      split; [exact Hf|auto].
  - destruct (autoAbsent today stamp st) as [st'|] eqn:Ea;
      [|apply evolves_refl].
    destruct (autoAbsent_cases _ _ _ _ Ea) as [[_ ->] | (lo & hi & _ & ->)];
      [apply evolves_refl|].
    destruct (sweep_appends lo hi stamp (User.find_role_user (users st)) 0
                (attendances st)) as (extra & E & _).
    exists (users st), [], extra. cbn [users attendances].
    rewrite app_nil_r.
    split; [apply Forall2_same, follows_refl|auto].
Qed.

(** One request with timely clock readings keeps the ledger at one entry
    per identity and day. *)
Lemma serve_one_entry_per_day r st :
  timely r ->
  one_entry_per_day (attendances st) /\ none_in_last_ms (attendances st) ->
  one_entry_per_day (attendances (serve r st)) /\
  none_in_last_ms (attendances (serve r st)).
Proof.
  intros Ht Hinv. destruct r as [salt uuid name userId bus role password
    | | today stamp sd ab | | today stamp | ]; cbn [serve listByGroup snd];
    try exact Hinv.
  - destruct (register_store salt uuid name userId bus role password st)
      as [-> | (k & st' & Er)]; [exact Hinv|].
    rewrite Er. cbn [snd].
    destruct (register_created _ _ _ _ _ _ _ _ _ _ Er)
      as (d & n & b & pw & _ & -> & _). exact Hinv.
  - destruct (scan_cases today stamp sd ab st)
      as [[E _] | [E | (i & u & Hid & E)]];
      [rewrite E; exact Hinv|rewrite E; exact Hinv|].
    rewrite E. cbv zeta.
    destruct (day_window today) as [[lo hi]|] eqn:Hw; cbn [snd attendances];
      [|exact Hinv].
    destruct (Attendance.findOne (User.userId u) lo hi (attendances st))
      eqn:Ef; cbn [attendances]; [exact Hinv|].
    apply (ledger_day_append _ _ today lo hi Hinv Hw); [exact Ef|exact Ht].
  - destruct (autoAbsent today stamp st) as [st'|] eqn:Ea; [|exact Hinv].
    destruct (autoAbsent_cases _ _ _ _ Ea) as [[_ ->] | (lo & hi & Hw & ->)];
      [exact Hinv|].
    cbn [attendances].
    apply (sweep_one_entry_per_day today lo hi stamp _ Hw Ht). exact Hinv.
Qed.

(** X13.  Whatever requests are served, one after the other, no two
    identities ever share a key and every entry of the ledger belongs to a
    registered identity, provided the store started that way. *)
Theorem serve_all_keeps_keys rs : forall st,
  identity_keys_unique st ->
  ledger_refers_to_identities st ->
  identity_keys_unique (serve_all rs st) /\
  ledger_refers_to_identities (serve_all rs st).
Proof.
  induction rs as [|r rs IH]; intros st Hu Hl; [split; assumption|].
  rewrite serve_all_cons.
  destruct (serve_keeps_keys r st (conj Hu Hl)) as [Hu' Hl'].
  apply IH; assumption.
Qed.

(** X14.  No request deletes or rewrites.  After any sequence of requests
    every identity is still stored at its place with its name, key, group,
    role, hash and QR payload, its flag as it was or Present -- no handler
    ever sets a flag back to Absent -- and the ledger has only grown at
    its end. *)
Theorem serve_all_evolves rs : forall st, evolves st (serve_all rs st).
Proof.
  induction rs as [|r rs IH]; intros st; [apply evolves_refl|].
  rewrite serve_all_cons.
  exact (evolves_trans _ _ _ (serve_evolves r st) (IH (serve r st))).
Qed.

(** X15.  As long as every scan and every sweep stamps its entries on the
    day it reads, before the last millisecond, the ledger keeps at most
    one entry per identity and day, whatever requests are served. *)
Theorem serve_all_one_entry_per_day rs : forall st,
  Forall timely rs ->
  one_entry_per_day (attendances st) ->
  none_in_last_ms (attendances st) ->
  one_entry_per_day (attendances (serve_all rs st)) /\
  none_in_last_ms (attendances (serve_all rs st)).
Proof.
  induction rs as [|r rs IH]; intros st Ht H1 H2; [split; assumption|].
  rewrite serve_all_cons. inversion Ht as [|r' rs' Hr Hrs]; subst.
  destruct (serve_one_entry_per_day r st Hr (conj H1 H2)) as [H1' H2'].
  apply IH; assumption.
Qed.

End Sequences.

(* ================================================================= *)
(** ** Handlers one after the other *)

Section Compositions.
Context `{Platform} `{Accounts}.

(** X16.  A payload may be sent as JSON text or as the value the text
    stands for.  When the text parses to a value that is truthy and not
    itself a string, the scan of the text and the scan of the value answer
    the same and write the same. *)
Theorem scan_payload_text_or_value today stamp text v ab st :
  JSON_parse text = Some v ->
  truthy v = true ->
  (forall s, v <> JStr s) ->
  scan today stamp (JStr text) ab st = scan today stamp v ab st.
Proof.
  intros Hp Hv Hs.
  assert (truthy (JStr text) = true) as Ht.
  { destruct text; [|reflexivity]. vm_compute in Hp. discriminate. }
  unfold scan. rewrite Ht, Hv. unfold decode. rewrite Hp.
  destruct v; try reflexivity. exfalso. exact (Hs _ eq_refl).
Qed.

(** X17.  The answers of a login tell whether an ID is registered.  For
    a request with both fields, the answer is 404 exactly when no stored
    identity carries the trimmed ID as the store takes it, whatever the
    password. *)
Theorem login_not_found_iff (id : jsstring) password st :
  id <> [] ->
  truthy password = true ->
  login (JStr id) password st = LoginNotFound <->
  ~ known_identity (toWellFormed (trim id)) st.
Proof.
  intros Hid Hp. unfold login.
  assert (truthy (JStr id) = true) as ->
    by (destruct id; [congruence|reflexivity]).
  rewrite Hp. cbn [negb orb].
  destruct (User.findOne
              (fun k => jsstring_eqb k (toWellFormed (trim id))) (users st))
    as [[i u]|] eqn:Hf.
  - apply find_first_Some in Hf as [Hn Hk]. apply jsstring_eqb_eq in Hk.
    split.
    + destruct password as [| | | |pw| |]; try discriminate.
      destruct (bcrypt_compare pw (User.password u)); discriminate.
    + intros Hunk. exfalso. apply Hunk. exists u.
      split; [eapply nth_error_In; exact Hn|exact Hk].
  - split; [|reflexivity].
    intros _ (u & Hu & Hk). unfold User.findOne in Hf.
    pose proof (proj1 (find_first_None _ _) Hf u Hu) as Hfalse.
    cbv beta in Hfalse. rewrite Hk, jsstring_eqb_refl in Hfalse.
    discriminate.
Qed.

(** X18.  Registration and listing fit together.  After a registration
    the listing of every group is what it was, followed by the public
    view of the new identity when its role is user and the group is its
    own, the group of the request as the store takes it; the new identity
    is listed as Absent. *)
Theorem register_then_listByGroup salt uuid name userId bus role password
  st key st' :
  register salt uuid name userId bus role password st
  = (Registered key role, st') ->
  exists d n b,
    In d (users st') /\
    required_String name = Some n /\
    required_String bus = Some b /\
    role_path role = Some (User.role d) /\
    User.userId d = toWellFormed key /\
    User.name d = toWellFormed n /\
    User.bus d = toWellFormed b /\
    User.attendance d = str "Absent" /\
    forall g,
      fst (listByGroup g st')
      = fst (listByGroup g st)
        ++ (if jsstring_eqb (toWellFormed b) g
               && Role_eqb (User.role d) RoleUser
            then [public_view d] else []).
Proof.
  intros Er.
  destruct (register_created _ _ _ _ _ _ _ _ _ _ Er)
    as (d & n & b & pw & Hus & _ & _ & Hn & Hb & Hr & _ & Hki & Hni & Hbi
        & _ & Ha & _).
  exists d, n, b.
  split; [rewrite Hus; apply in_or_app; right; left; reflexivity|].
  repeat (split; [assumption|]).
  intros g. unfold listByGroup, User.find_bus_role_user. cbn [fst].
  rewrite Hus, filter_app, map_app. f_equal. cbn [filter].
  rewrite Hbi.
  destruct (jsstring_eqb (toWellFormed b) g
            && Role_eqb (User.role d) RoleUser);
    [|reflexivity].
  cbn [map]. rewrite project_public_view. reflexivity.
Qed.

(** X19.  Scan and listing fit together.  After a scan that answered 200
    for an identity of role user, the listing of the identity's group
    shows it Present. *)
Theorem scan_then_listByGroup today stamp sd ab st n b st1 i u :
  scan today stamp sd ab st = (ScanSuccess n b, st1) ->
  scanned_identity sd st = Some (i, u) ->
  User.role u = RoleUser ->
  In (public_view (User.set_attendance u (str "Present")))
     (fst (listByGroup (User.bus u) st1)).
Proof.
  intros Hs Hid Hr.
  assert (Hus : users st1
                = replace_at i (User.set_attendance u (str "Present"))
                    (users st)).
  { destruct (scan_cases today stamp sd ab st)
      as [[E R] | [E | (i' & u' & Hid' & E)]].
    - rewrite Hs in R. discriminate.
    - rewrite Hs in E. discriminate.
    - rewrite Hid in Hid'. inversion Hid'; subst i' u'.
      rewrite Hs in E. cbv zeta in E.
      destruct (day_window today) as [[lo hi]|]; [|discriminate].
      destruct (Attendance.findOne (User.userId u) lo hi (attendances st));
        cbn [users attendances] in E;
        match type of E with _ = (_, ?s) =>
          assert (st1 = s) as -> by congruence end; reflexivity. }
  unfold listByGroup. cbn [fst]. apply in_map_iff.
  exists (User.set_attendance u (str "Present")).
  split; [apply project_public_view|].
  unfold User.find_bus_role_user. apply filter_In. split.
  - rewrite Hus. apply (replace_at_In _ i u).
    apply scanned_identity_nth in Hid. exact Hid.
  - cbn. rewrite jsstring_eqb_refl, Hr. reflexivity.
Qed.

(** X20.  Scan and report fit together.  When a scan answers 200 for an
    identity without an entry for the day, the report of that identity for
    a month from 1 to 12 of a valid year counts one more present day if
    the stamp of the scan lies in the window of the month, and the same
    otherwise. *)
Theorem scan_then_monthlySummary today stamp sd ab st n b st1 i u
  month year :
  scan today stamp sd ab st = (ScanSuccess n b, st1) ->
  scanned_identity sd st = Some (i, u) ->
  entries_of_day (User.userId u) today (attendances st) = [] ->
  1 <= month <= 12 ->
  valid_year year ->
  exists s s1,
    monthlySummary (User.userId u) month year st = Some s /\
    monthlySummary (User.userId u) month year st1 = Some s1 /\
    totalDays s1 = totalDays s /\
    presentDays s1
    = presentDays s
      + (if spec_in_month_window year month stamp then 1 else 0).
Proof.
  intros Hs Hid Hnone Hm Hy.
  destruct (scan_success_window _ _ _ _ _ _ _ _ Hs) as (lo & hi & Hw).
  pose proof (in_day_entries_of_day _ _ _ _ _ Hw Hnone) as Hf.
  assert (Hat : attendances st1
                = attendances st ++ [present_entry u stamp]).
  { destruct (scan_cases today stamp sd ab st)
      as [[E R] | [E | (i' & u' & Hid' & E)]].
    - rewrite Hs in R. discriminate.
    - rewrite Hs in E. discriminate.
    - rewrite Hid in Hid'. inversion Hid'; subst i' u'.
      rewrite Hs, Hw, Hf in E. cbv zeta in E. cbn [users attendances] in E.
      match type of E with _ = (_, ?s) =>
        assert (st1 = s) as -> by congruence end. reflexivity. }
  destruct (month_dates year month Hm Hy) as (E1 & E2 & E3).
  cbv zeta in E1, E2, E3.
  unfold monthlySummary. rewrite E1, E2, E3.
  eexists. eexists. split; [reflexivity|]. split; [reflexivity|].
  cbn [totalDays presentDays]. split; [reflexivity|].
  rewrite !present_rows_in_month by exact Hm.
  rewrite Hat, filter_app, length_app. cbn [filter].
  change (Attendance.userId (present_entry u stamp)) with (User.userId u).
  change (Attendance.date (present_entry u stamp)) with stamp.
  change (Attendance.status (present_entry u stamp)) with Present.
  rewrite jsstring_eqb_refl. cbn [andb Status_eqb]. rewrite andb_true_r.
  destruct (spec_in_month_window year month stamp); cbn [List.length]; lia.
Qed.

(** X21.  The report does not read what the sweep writes.  A sweep changes
    no number of any report: total, present and absent days of every
    identity and month are the same before and after it. *)
Theorem autoAbsent_keeps_report today stamp st st' (id : jsstring)
  month year :
  autoAbsent today stamp st = Some st' ->
  match monthlySummary id month year st, monthlySummary id month year st' with
  | Some s, Some s' =>
      totalDays s' = totalDays s /\ presentDays s' = presentDays s /\
      absentDays s' = absentDays s
  | None, None => True
  | _, _ => False
  end.
Proof.
  intros Ha.
  assert (exists extra,
            attendances st' = attendances st ++ extra /\
            Forall (fun a => Attendance.status a = Absent) extra)
    as (extra & Hat & Hex).
  { destruct (autoAbsent_cases _ _ _ _ Ha) as [[_ ->] | (lo & hi & _ & ->)].
    - exists []. rewrite app_nil_r. auto.
    - apply sweep_appends. }
  unfold monthlySummary.
  destruct (Date_new year (month - 1) 1 0 0 0) as [lo|]; [|exact I].
  destruct (Date_new year month 0 23 59 59) as [hi|]; [|exact I].
  destruct (Date_new year month 0 0 0 0) as [last|]; [|exact I].
  cbn [totalDays presentDays absentDays].
  assert (filter (fun r => Status_eqb (Attendance.status r) Present)
            (Attendance.find_range id lo hi (attendances st'))
          = filter (fun r => Status_eqb (Attendance.status r) Present)
              (Attendance.find_range id lo hi (attendances st))) as ->.
  { unfold Attendance.find_range. rewrite Hat, !filter_app.
    rewrite <- app_nil_r. f_equal.
    clear - Hex. induction Hex as [|a l Ha _ IH]; [reflexivity|].
    cbn [filter]. destruct (Attendance.in_range id lo hi a); [|exact IH].
    cbn [filter]. rewrite Ha. exact IH. }
  auto.
Qed.

End Compositions.

(* ================================================================= *)
(** ** The clock and the range of dates *)

(** The window of a valid clock reading exists. *)
Lemma day_window_valid today :
  valid_clock today ->
  day_window today
  = Some (Day today * msPerDay, Day today * msPerDay + 86399999).
Proof.
  intros Hv. unfold valid_clock in Hv.
  unfold day_window, Date_setHours.
  assert (MakeDate (Day today) (MakeTime 0 0 0 0) = Day today * msPerDay)
    as -> by (unfold MakeDate, MakeTime; lia).
  rewrite TimeClip_ok by (unfold Day, msPerDay; lia).
  assert (Day (Day today * msPerDay) = Day today) as ->
    by (unfold Day, msPerDay; lia).
  assert (MakeDate (Day today) (MakeTime 23 59 59 999)
          = Day today * msPerDay + 86399999)
    as -> by (unfold MakeDate, MakeTime, msPerHour, msPerMinute, msPerSecond;
              lia).
  rewrite TimeClip_ok by (unfold Day, msPerDay; lia).
  reflexivity.
Qed.

Section StoreFailureFacts.
Context `{Platform}.

(** With a store that serves every operation, [scan_under] is [scan] and
    [autoAbsent_under] answers as [autoAbsent] does. *)
Lemma scan_under_served today stamp sd ab st :
  scan_under None today stamp sd ab st = scan today stamp sd ab st.
Proof. reflexivity. Qed.

Lemma fails_inv fault n : fails fault n = true -> fault = Some n.
Proof.
  unfold fails. destruct fault as [m|]; [|discriminate].
  intros E. apply Nat.eqb_eq in E. congruence.
Qed.

(** The two ways of a scan under a failure: it answers something else
    than 200 and leaves the store as it is, or it has found the identity
    its payload names, the groups agree and [user.save()] has gone
    through. *)
Lemma scan_under_cases fault today stamp sd ab st :
  (snd (scan_under fault today stamp sd ab st) = st /\
   forall n b, fst (scan_under fault today stamp sd ab st) <> ScanSuccess n b)
  \/ exists i u,
       scanned_identity sd st = Some (i, u) /\
       scan_under fault today stamp sd ab st
       = let user' := User.set_attendance u (str "Present") in
         let st1 := {| users := replace_at i user' (users st);
                       attendances := attendances st |} in
         match day_window today with
         | None => (ScanFailure, st1)
         | Some (start, end_) =>
             let ok := ScanSuccess (User.name user') (User.bus user') in
             if fails fault 2 then (ScanFailure, st1)
             else
               match Attendance.findOne (User.userId user') start end_
                       (attendances st1) with
               | Some _ => (ok, st1)
               | None =>
                   if fails fault 3 then (ScanFailure, st1)
                   else
                     (ok,
                      {| users := users st1;
                         attendances :=
                           attendances st1
                           ++ [Attendance.create (User.userId user')
                                 (User.bus user') Present stamp] |})
               end
         end.
Proof.
  unfold scan_under, scanned_identity.
  destruct (negb (truthy sd) || negb (truthy ab));
    [left; split; [reflexivity|intros n b; discriminate]|].
  destruct (decode sd) as [parsed| | |];
    try (left; split; [reflexivity|intros n b; discriminate]).
  destruct (get_prop parsed (str "userId")) as [uid|];
    [|left; split; [reflexivity|intros n b; discriminate]].
  destruct (get_prop parsed (str "bus")) as [g|];
    [|left; split; [reflexivity|intros n b; discriminate]].
  destruct (userId_filter uid) as [cond|];
    [|left; split; [reflexivity|intros n b; discriminate]].
  destruct (fails fault 0);
    [left; split; [reflexivity|intros n b; discriminate]|].
  destruct (User.findOne cond (users st)) as [[i u]|];
    [|left; split; [reflexivity|intros n b; discriminate]].
  destruct (negb (strict_eq g ab));
    [left; split; [reflexivity|intros n b; discriminate]|].
  destruct (fails fault 1);
    [left; split; [reflexivity|intros n b; discriminate]|].
  right. exists i, u. split; reflexivity.
Qed.

(** X22.  What a scan that is not answered 200 has written, failures of
    the store included.  With a valid clock reading and a well-formed
    key, such a scan has written no LedgerEntry, and it has left the
    store as it was unless the query or the insertion of the ledger
    failed, after [user.save()]: then the answer is 500 and the flag of
    the scanned identity is Present.  That case exists: whenever the scan
    is answered 200 by a store that serves it, a failure of the ledger
    query makes the answer 500 with the flag written and no entry. *)
Theorem scan_under_failure fault today stamp sd ab st :
  valid_clock today ->
  key_well_formed sd ->
  ((forall n b,
      fst (scan_under fault today stamp sd ab st) <> ScanSuccess n b) ->
   attendances (snd (scan_under fault today stamp sd ab st))
   = attendances st /\
   (snd (scan_under fault today stamp sd ab st) = st \/
    exists i u,
      (fault = Some 2%nat \/ fault = Some 3%nat) /\
      fst (scan_under fault today stamp sd ab st) = ScanFailure /\
      scanned_identity sd st = Some (i, u) /\
      users (snd (scan_under fault today stamp sd ab st))
      = replace_at i (User.set_attendance u (str "Present")) (users st))) /\
  (forall n b,
     fst (scan today stamp sd ab st) = ScanSuccess n b ->
     scan_under (Some 2%nat) today stamp sd ab st
     = (ScanFailure,
        {| users := users (snd (scan today stamp sd ab st));
           attendances := attendances st |})).
Proof.
  intros Hv _. split.
  - intros Hno.
    destruct (scan_under_cases fault today stamp sd ab st)
      as [[E _] | (i & u & Hid & E)].
    + rewrite E. split; [reflexivity|left; reflexivity].
    + rewrite E in Hno |- *. rewrite (day_window_valid today Hv) in Hno |- *.
      cbv zeta in Hno |- *.
      destruct (fails fault 2) eqn:F2.
      * cbn [fst snd users attendances]. split; [reflexivity|].
        right. exists i, u. apply fails_inv in F2. auto.
      * destruct (Attendance.findOne _ _ _ _);
          [exfalso; exact (Hno _ _ eq_refl)|].
        destruct (fails fault 3) eqn:F3;
          [|exfalso; exact (Hno _ _ eq_refl)].
        cbn [fst snd users attendances]. split; [reflexivity|].
        right. exists i, u. apply fails_inv in F3. auto.
  - intros n b. unfold scan, scan_under, fails. cbn [Nat.eqb].
    destruct (negb (truthy sd) || negb (truthy ab)); [discriminate|].
    destruct (decode sd) as [parsed| | |]; try discriminate.
    destruct (get_prop parsed (str "userId")) as [uid|]; [|discriminate].
    destruct (get_prop parsed (str "bus")) as [g|]; [|discriminate].
    destruct (userId_filter uid) as [cond|]; [|discriminate].
    destruct (User.findOne cond (users st)) as [[i u]|]; [|discriminate].
    destruct (negb (strict_eq g ab)); [discriminate|].
    cbv zeta.
    destruct (day_window today) as [[lo hi]|]; [|discriminate].
    intros _. cbn [attendances users].
    destruct (Attendance.findOne _ _ _ _); reflexivity.
Qed.

End StoreFailureFacts.

(** A sweep under a failure has done a first part of what the sweep of a
    store that serves it does, and all of it when it was not stopped. *)
Lemma sweep_under_prefix fault lo hi stamp roster : forall n k coll,
  exists done rest,
    snd (sweep_under fault n lo hi stamp k roster coll) = coll ++ done /\
    sweep lo hi stamp k roster coll = coll ++ done ++ rest /\
    (fst (sweep_under fault n lo hi stamp k roster coll) = true ->
     rest = []) /\
    (fault = None ->
     fst (sweep_under fault n lo hi stamp k roster coll) = true).
Proof.
  induction roster as [|u roster IH]; intros n k coll.
  - exists [], []. cbn. rewrite app_nil_r. auto.
  - destruct (sweep_appends lo hi stamp (u :: roster) k coll)
      as (extra & Hfull & _).
    rewrite Hfull. cbn [sweep] in Hfull. cbn [sweep_under].
    destruct (fails fault n) eqn:F0.
    { exists [], extra. cbn [fst snd]. rewrite app_nil_r.
      split; [reflexivity|]. split; [reflexivity|].
      split; [discriminate|]. intros ->. discriminate. }
    destruct (Attendance.findOne (User.userId u) lo hi coll).
    { destruct (IH (S n) (S k) coll) as (done & rest & E1 & E2 & E3 & E4).
      exists done, rest. rewrite <- Hfull. auto. }
    destruct (fails fault (S n)) eqn:F1.
    { exists [], extra. cbn [fst snd]. rewrite app_nil_r.
      split; [reflexivity|]. split; [reflexivity|].
      split; [discriminate|]. intros ->. discriminate. }
    match type of Hfull with sweep _ _ _ _ _ (coll ++ [?e]) = _ =>
      destruct (IH (S (S n)) (S k) (coll ++ [e]))
        as (done & rest & E1 & E2 & E3 & E4);
      exists (e :: done), rest
    end.
    rewrite <- Hfull, E1, E2, <- !app_assoc. auto.
Qed.

(** X23.  A sweep that the store fails has done a first part of the
    sweep.  With a valid clock reading, whatever operation of the store
    fails, the sweep has written no Identity, and what it has appended to
    the ledger is the beginning of what the sweep appends when the store
    serves it; a sweep answered 200 has appended all of it, and the store
    that serves every operation gets the answer 200. *)
Theorem autoAbsent_under_prefix fault today stamp st :
  valid_clock today ->
  exists full done rest,
    autoAbsent today stamp st = Some full /\
    users (snd (autoAbsent_under fault today stamp st)) = users st /\
    users full = users st /\
    attendances (snd (autoAbsent_under fault today stamp st))
    = attendances st ++ done /\
    attendances full = attendances st ++ done ++ rest /\
    (fst (autoAbsent_under fault today stamp st) = true -> rest = []) /\
    (fault = None -> fst (autoAbsent_under fault today stamp st) = true).
Proof.
  intros Hv. unfold autoAbsent_under, autoAbsent.
  rewrite (day_window_valid today Hv).
  destruct (User.find_role_user (users st)) as [|u roster] eqn:Er.
  - exists st, [], []. rewrite !app_nil_r.
    destruct (fails fault 0) eqn:F0; cbn [fst snd];
      repeat (split; [reflexivity|]); intros E;
      [rewrite E in F0; discriminate F0|reflexivity].
  - destruct (fails fault 0) eqn:F0.
    + destruct (sweep_appends (Day today * msPerDay)
                  (Day today * msPerDay + 86399999) stamp (u :: roster) 0
                  (attendances st)) as (extra & E & _).
      eexists. exists [], extra. cbn [fst snd users attendances].
      rewrite app_nil_r.
      split; [reflexivity|]. split; [reflexivity|]. split; [reflexivity|].
      split; [reflexivity|]. split; [exact E|].
      split; [discriminate|]. intros ->. discriminate.
    + destruct (sweep_under_prefix fault (Day today * msPerDay)
                  (Day today * msPerDay + 86399999) stamp (u :: roster)
                  1 0 (attendances st))
        as (done & rest & E1 & E2 & E3 & E4).
      eexists. exists done, rest. cbn [fst snd users attendances].
      split; [reflexivity|]. split; [reflexivity|]. split; [reflexivity|].
      split; [exact E1|]. split; [exact E2|]. split; [exact E3|exact E4].
Qed.

(** X24.  The report of a month from 1 to 12 of a year before -271821 or
    after 275760, where no day has a time value, is answered 500. *)
Theorem monthlySummary_year_out_of_range (userId : jsstring) (month year : Z)
  (st : Store) :
  1 <= month <= 12 ->
  year < -271821 \/ 275760 < year ->
  monthlySummary userId month year st = None.
Proof.
  intros Hm Hy.
  assert (Date_new year (month - 1) 1 0 0 0 = None) as Hstart.
  { unfold Date_new.
    assert (MakeFullYear year = year) as ->.
    { unfold MakeFullYear.
      destruct (0 <=? year) eqn:E1, (year <=? 99) eqn:E2; cbn;
        try reflexivity. zbool. lia. }
    destruct (MakeDay_in_range year (month - 1)); [|reflexivity].
    rewrite MakeDay_month by exact Hm.
    pose proof (DaysBeforeMonth_facts year month Hm) as (H0 & H1 & H2).
    pose proof (spec_days_in_month_pos year month Hm) as H3.
    pose proof (leap_flag_01 year) as H5.
    cbv zeta in H0, H1, H2.
    unfold MakeDate, MakeTime, TimeClip, msPerDay.
    destruct Hy as [Hy | Hy].
    - pose proof (DayFromYear_mono year (-271822) ltac:(lia)) as Hd.
      assert (DayFromYear (-271822) = -100000474) as Hc
        by (vm_compute; reflexivity).
      destruct (Z.abs _ <=? 8640000000000000) eqn:E; [|reflexivity].
      zbool. lia.
    - pose proof (DayFromYear_mono 275761 year ltac:(lia)) as Hd.
      assert (DayFromYear 275761 = 100000110) as Hc
        by (vm_compute; reflexivity).
      destruct (Z.abs _ <=? 8640000000000000) eqn:E; [|reflexivity].
      zbool. lia. }
  unfold monthlySummary. rewrite Hstart. reflexivity.
Qed.

(* ================================================================= *)
(** ** The claims on concrete requests *)

#[local] Existing Instance example_platform.

(** C1 as stated fails: the payload decodes with group B1, the station is of
    group B2, and the answer is IdentityNotFound, the identity key being
    looked up before the groups are compared. *)
Lemma scan_mismatch_unknown_identity :
  let payload :=
    JStr (encode (str "U9") (str "Nobody") (str "B1") (str "user")) in
  decoded_group payload = Some (JStr (str "B1")) /\
  strict_eq (JStr (str "B1")) (JStr (str "B2")) = false /\
  scan jan1_noon jan1_noon payload (JStr (str "B2")) (store_of [alice] [])
  = (IdentityNotFound, store_of [alice] []).
Proof. vm_compute. repeat split; reflexivity. Qed.

(** Alice's QR code at a station of group B2. *)
Lemma scan_group_mismatch_witness :
  decoded_group (JStr alice_qr) = Some (JStr (str "B1")) /\
  strict_eq (JStr (str "B1")) (JStr (str "B2")) = false /\
  snd (scan jan1_noon jan1_noon (JStr alice_qr) (JStr (str "B2"))
         (store_of [alice] [])) = store_of [alice] [] /\
  fst (scan jan1_noon jan1_noon (JStr alice_qr) (JStr (str "B2"))
         (store_of [alice] [])) = GroupMismatch.
Proof.
  assert (H1 : decoded_group (JStr alice_qr) = Some (JStr (str "B1")))
    by (vm_compute; reflexivity).
  assert (H2 : strict_eq (JStr (str "B1")) (JStr (str "B2")) = false)
    by (vm_compute; reflexivity).
  destruct (scan_group_mismatch jan1_noon jan1_noon (JStr alice_qr)
              (JStr (str "B2")) (store_of [alice] []) _ H1 H2)
    as (Hst & _ & _ & _ & Hresp).
  split; [exact H1|]. split; [exact H2|]. split; [exact Hst|].
  apply (Hresp O alice); vm_compute; reflexivity.
Defined.

(** C2 as stated fails: after a sweep at 06:00 has written Absent for the
    day, two scans at noon succeed and the identity still has exactly one
    entry for the day, the Absent one. *)
Lemma scan_twice_after_sweep :
  let st0 := store_of [alice] [entry_of alice jan1_morning Absent] in
  let r1 := scan jan1_noon jan1_noon (JStr alice_qr) (JStr (str "B1")) st0 in
  let r2 := scan (jan1_noon + 1000) (jan1_noon + 1000) (JStr alice_qr)
              (JStr (str "B1")) (snd r1) in
  fst r1 = ScanSuccess (str "Alice") (str "B1") /\
  fst r2 = ScanSuccess (str "Alice") (str "B1") /\
  entries_of_day (str "U1") jan1_noon (attendances (snd r2))
  = [entry_of alice jan1_morning Absent].
Proof. vm_compute. repeat split; reflexivity. Qed.

(** Two scans of Alice on 1 January 2024, at noon and a second later. *)
Lemma scan_idempotent_witness :
  let st := store_of [alice] [] in
  let st1 := snd (scan jan1_noon jan1_noon (JStr alice_qr) (JStr (str "B1")) st) in
  before_last_ms jan1_noon jan1_noon /\
  (attendances
     (snd (scan (jan1_noon + 1000) (jan1_noon + 1000) (JStr alice_qr)
             (JStr (str "B1")) st1))
   = attendances st1) /\
  exists st2,
    scan (jan1_noon + 1000) (jan1_noon + 1000) (JStr alice_qr)
      (JStr (str "B1")) st1
    = (ScanSuccess (str "Alice") (str "B1"), st2) /\
    entries_of_day (str "U1") jan1_noon (attendances st2)
    = [present_entry alice jan1_noon].
Proof.
  cbv zeta.
  assert (Hnoon : before_last_ms jan1_noon jan1_noon)
    by (split; [reflexivity|vm_compute; reflexivity]).
  assert (Hlater : before_last_ms (jan1_noon + 1000) jan1_noon)
    by (split; vm_compute; reflexivity).
  split; [exact Hnoon|]. split.
  - eapply (proj1 scan_idempotent (jan1_noon + 1000) (jan1_noon + 1000)
              (JStr alice_qr) (JStr (str "B1")) _ (str "Alice") (str "B1") _
              O (User.set_attendance alice (str "Present"))
              (present_entry alice jan1_noon));
      [vm_compute; reflexivity | vm_compute; reflexivity
      | left; vm_compute; reflexivity | reflexivity | exact Hlater].
  - eapply (proj2 scan_idempotent jan1_noon jan1_noon (jan1_noon + 1000)
              (jan1_noon + 1000) (JStr alice_qr) (JStr (str "B1"))
              (store_of [alice] []) (str "Alice") (str "B1") _ O alice);
      [vm_compute; reflexivity | vm_compute; reflexivity
      | vm_compute; reflexivity | exact Hnoon | vm_compute; reflexivity].
Defined.

(** C3 as stated fails on years 0 to 99, which the date constructor reads as
    1900 to 1999: for February of year 0 the summary reports 28 days where
    the leap-year rule gives 29, and for February of year 24 it counts a row
    dated 10 February 1924. *)
Lemma monthlySummary_two_digit_year :
  option_map totalDays (monthlySummary (str "U1") 2 0 (store_of [alice] []))
  = Some 28 /\
  spec_days_in_month 0 2 = 29 /\
  option_map presentDays
    (monthlySummary (str "U1") 2 24
       (store_of [alice] [entry_of alice (-1448193600000) Present]))
  = Some 1 /\
  spec_present_count (str "U1") 2 24 [entry_of alice (-1448193600000) Present]
  = 0.
Proof. vm_compute. repeat split; reflexivity. Qed.

(** February 2024, with one Present row of Alice on the 10th. *)
Lemma monthlySummary_counts_witness :
  let st := store_of [alice] [entry_of alice 1707566400000 Present] in
  1 <= 2 <= 12 /\ valid_year 2024 /\
  exists s,
    monthlySummary (str "U1") 2 2024 st = Some s /\
    totalDays s = spec_days_in_month 2024 2 /\
    presentDays s = spec_present_count (str "U1") 2 2024 (attendances st) /\
    absentDays s = totalDays s - presentDays s /\
    ((forall a, In a (attendances st) -> Attendance.userId a <> str "U1") ->
     details s = [] /\ presentDays s = 0 /\
     absentDays s = spec_days_in_month 2024 2) /\
    (ledger_refers_to_identities st -> ~ known_identity (str "U1") st ->
     details s = [] /\ presentDays s = 0 /\
     absentDays s = spec_days_in_month 2024 2).
Proof.
  cbv zeta.
  assert (H1 : 1 <= 2 <= 12) by lia.
  assert (H2 : valid_year 2024) by (unfold valid_year; lia).
  split; [exact H1|]. split; [exact H2|].
  exact (monthlySummary_counts (str "U1") 2 2024
           (store_of [alice] [entry_of alice 1707566400000 Present]) H1 H2).
Defined.

(** The two Februaries of the specification. *)
Example monthlySummary_february :
  option_map totalDays (monthlySummary (str "U1") 2 2024 (store_of [alice] []))
  = Some 29 /\
  option_map totalDays (monthlySummary (str "U1") 2 2023 (store_of [alice] []))
  = Some 28.
Proof. vm_compute. split; reflexivity. Qed.

(** C4 on the code: an entry dated 23:59:59.999 of 1 January 2024 lies in
    that calendar day, before the next midnight, yet the existence check of
    a scan and of a sweep made that day does not find it, and each inserts
    a second entry for the day. *)
Theorem day_window_last_millisecond :
  let e := entry_of alice jan1_last_ms Present in
  let st := store_of [alice] [e] in
  day_window jan1_last_ms = Some (jan1_midnight, jan1_last_ms) /\
  Day (Attendance.date e) = Day jan1_last_ms /\
  Attendance.date e < jan1_midnight + msPerDay /\
  Attendance.findOne (str "U1") jan1_midnight jan1_last_ms [e] = None /\
  attendances (snd (scan jan1_last_ms jan1_last_ms (JStr alice_qr)
                      (JStr (str "B1")) st))
  = [e; entry_of alice jan1_last_ms Present] /\
  option_map attendances (autoAbsent jan1_last_ms (fun _ => jan1_last_ms) st)
  = Some [e; entry_of alice jan1_last_ms Absent].
Proof. vm_compute. repeat split; reflexivity. Qed.

(** C5 on the code: a sweep begun at 23:59:59.990 whose document is stamped
    at 23:59:59.999, followed by a sweep at 23:59:59.999 of the same day,
    leaves two Absent entries of the identity for that day; and a sweep at
    23:59:59.999 puts an Absent entry next to a Present one stamped in that
    millisecond. *)
Theorem autoAbsent_twice_last_millisecond :
  let st0 := store_of [alice] [] in
  let e := entry_of alice jan1_last_ms Absent in
  autoAbsent (jan1_last_ms - 9) (fun _ => jan1_last_ms) st0
  = Some (store_of [alice] [e]) /\
  Day jan1_last_ms = Day (jan1_last_ms - 9) /\
  autoAbsent jan1_last_ms (fun _ => jan1_last_ms) (store_of [alice] [e])
  = Some (store_of [alice] [e; e]) /\
  entries_of_day (str "U1") jan1_last_ms [e; e] = [e; e] /\
  autoAbsent jan1_last_ms (fun _ => jan1_last_ms)
    (store_of [alice] [entry_of alice jan1_last_ms Present])
  = Some (store_of [alice] [entry_of alice jan1_last_ms Present; e]).
Proof. vm_compute. repeat split; reflexivity. Qed.

(** Alice's registration data through the codec. *)
Lemma encode_decode_roundtrip_witness :
  str "U1" <> [] /\
  decode (JStr alice_qr)
  = DecodedOk (qrData (str "U1") (str "Alice") (str "B1") (str "user")) /\
  get_prop (qrData (str "U1") (str "Alice") (str "B1") (str "user"))
    (str "userId") = Some (JStr (str "U1")) /\
  get_prop (qrData (str "U1") (str "Alice") (str "B1") (str "user"))
    (str "name") = Some (JStr (str "Alice")) /\
  get_prop (qrData (str "U1") (str "Alice") (str "B1") (str "user"))
    (str "bus") = Some (JStr (str "B1")) /\
  get_prop (qrData (str "U1") (str "Alice") (str "B1") (str "user"))
    (str "role") = Some (JStr (str "user")).
Proof.
  assert (H1 : str "U1" <> []) by (vm_compute; discriminate).
  split; [exact H1|].
  exact (encode_decode_roundtrip (str "U1") (str "Alice") (str "B1")
           (str "user") H1).
Defined.

(** C7 on the code: the text [null] parses, reading [userId] off the result
    throws, and the scan is answered 500 by the outer handler: a decode
    failure that is neither MalformedPayload nor MissingIdentityField. *)
Theorem decode_null_payload :
  JSON_parse (str "null") = Some JNull /\
  decode (JStr (str "null")) = DecodeThrows /\
  scan jan1_noon jan1_noon (JStr (str "null")) (JStr (str "B1"))
    (store_of [alice] [])
  = (ScanFailure, store_of [alice] []).
Proof. vm_compute. repeat split; reflexivity. Qed.

(** A stale QR code: Alice has moved to group B2, her code still says B1
    and is scanned at a station of group B1.  The entry is of group B2. *)
Lemma scan_entry_group_witness :
  let st := store_of [alice_moved] [] in
  let r := scan jan1_noon jan1_noon (JStr alice_qr) (JStr (str "B1")) st in
  decoded_group (JStr alice_qr) = Some (JStr (str "B1")) /\
  fst r = ScanSuccess (str "Alice") (str "B2") /\
  attendances (snd r) <> attendances st /\
  exists e,
    attendances (snd r) = attendances st ++ [e] /\
    Attendance.bus e = str "B2" /\
    Attendance.userId e = str "U1" /\
    Attendance.status e = Present /\
    Attendance.date e = jan1_noon.
Proof.
  cbv zeta. split; [vm_compute; reflexivity|]. split; [vm_compute; reflexivity|].
  assert (Hnew : attendances
                   (snd (scan jan1_noon jan1_noon (JStr alice_qr)
                           (JStr (str "B1")) (store_of [alice_moved] [])))
                 <> attendances (store_of [alice_moved] []))
    by (vm_compute; discriminate).
  split; [exact Hnew|].
  apply (scan_entry_group jan1_noon jan1_noon (JStr alice_qr) (JStr (str "B1"))
           (store_of [alice_moved] []) (str "Alice") (str "B2")
           (snd (scan jan1_noon jan1_noon (JStr alice_qr) (JStr (str "B1"))
                   (store_of [alice_moved] [])))
           O alice_moved);
    [vm_compute; reflexivity | vm_compute; reflexivity | exact Hnew].
Defined.

(* ================================================================= *)
(** ** The further properties on concrete requests *)

#[local] Existing Instance example_accounts.

Lemma morning_stamps_timely k : before_last_ms jan1_morning (morning_stamps k).
Proof.
  unfold before_last_ms, morning_stamps, Day, TimeWithinDay, msPerDay,
    jan1_morning.
  lia.
Qed.

Lemma alice_qr_key_well_formed : key_well_formed (JStr alice_qr).
Proof.
  intros parsed s Hd Hg.
  assert (Hp : decode (JStr alice_qr)
               = DecodedOk (qrData (str "U1") (str "Alice") (str "B1")
                              (str "user")))
    by (vm_compute; reflexivity).
  rewrite Hp in Hd. inversion Hd; subst parsed.
  vm_compute in Hg. inversion Hg; subst s. vm_compute. reflexivity.
Qed.

(** Alice's QR code scanned at noon at a station of her group. *)
Lemma scan_effect_witness :
  let st := store_of [alice] [] in
  let r := scan jan1_noon jan1_noon (JStr alice_qr) (JStr (str "B1")) st in
  key_well_formed (JStr alice_qr) /\
  (snd r = st \/
   exists i u,
     scanned_identity (JStr alice_qr) st = Some (i, u) /\
     users (snd r)
     = replace_at i (User.set_attendance u (str "Present")) (users st) /\
     (attendances (snd r) = attendances st \/
      attendances (snd r)
      = attendances st ++ [present_entry u jan1_noon])).
Proof.
  cbv zeta. split; [exact alice_qr_key_well_formed|].
  exact (scan_effect jan1_noon jan1_noon (JStr alice_qr) (JStr (str "B1"))
           (store_of [alice] []) alice_qr_key_well_formed).
Defined.

(** A text that is no JSON, scanned at a station of group B1. *)
Lemma scan_rejection_pure_witness :
  is_rejection
    (fst (scan jan1_noon jan1_noon (JStr (str "not json")) (JStr (str "B1"))
            (store_of [alice] []))) = true /\
  snd (scan jan1_noon jan1_noon (JStr (str "not json")) (JStr (str "B1"))
         (store_of [alice] [])) = store_of [alice] [].
Proof.
  assert (H1 : is_rejection
                 (fst (scan jan1_noon jan1_noon (JStr (str "not json"))
                         (JStr (str "B1")) (store_of [alice] []))) = true)
    by (vm_compute; reflexivity).
  split; [exact H1|].
  exact (scan_rejection_pure jan1_noon jan1_noon (JStr (str "not json"))
           (JStr (str "B1")) (store_of [alice] []) H1).
Defined.

(** A payload written by hand with Alice's key and the group B7, scanned
    at a station of group B7: Alice, of group B1, is marked Present. *)
Lemma scan_accepts_payload_of_station_group_witness :
  let st := store_of [alice] [] in
  let r := scan jan1_noon jan1_noon
             (JStr (encode (str "U1") (str "Anyone") (str "B7") (str "user")))
             (JStr (str "B7")) st in
  day_window jan1_noon = Some (jan1_midnight, jan1_last_ms) /\
  fst r = ScanSuccess (str "Alice") (str "B1") /\
  users (snd r) = replace_at 0 (User.set_attendance alice (str "Present"))
                    (users st) /\
  (Attendance.findOne (str "U1") jan1_midnight jan1_last_ms (attendances st)
   = None ->
   attendances (snd r) = attendances st ++ [present_entry alice jan1_noon]).
Proof.
  cbv zeta.
  assert (H1 : User.findOne (fun id => jsstring_eqb id (User.userId alice))
                 (users (store_of [alice] [])) = Some (O, alice))
    by (vm_compute; reflexivity).
  assert (H2 : User.userId alice <> []) by (vm_compute; discriminate).
  assert (H3 : str "B7" <> []) by (vm_compute; discriminate).
  assert (H4 : day_window jan1_noon = Some (jan1_midnight, jan1_last_ms))
    by (vm_compute; reflexivity).
  split; [exact H4|].
  exact (scan_accepts_payload_of_station_group jan1_noon jan1_noon
           (store_of [alice] []) O alice (str "Anyone") (str "B7")
           (str "user") jan1_midnight jan1_last_ms H1 H2 H3 H4).
Defined.

(** Alice's QR code as text and as the object the text stands for. *)
Lemma scan_payload_text_or_value_witness :
  JSON_parse alice_qr
  = Some (qrData (str "U1") (str "Alice") (str "B1") (str "user")) /\
  scan jan1_noon jan1_noon (JStr alice_qr) (JStr (str "B1"))
    (store_of [alice] [])
  = scan jan1_noon jan1_noon
      (qrData (str "U1") (str "Alice") (str "B1") (str "user"))
      (JStr (str "B1")) (store_of [alice] []).
Proof.
  assert (H1 : JSON_parse alice_qr
               = Some (qrData (str "U1") (str "Alice") (str "B1")
                         (str "user")))
    by (vm_compute; reflexivity).
  assert (H2 : truthy (qrData (str "U1") (str "Alice") (str "B1")
                         (str "user")) = true)
    by reflexivity.
  assert (H3 : forall s, qrData (str "U1") (str "Alice") (str "B1")
                           (str "user") <> JStr s)
    by (intros s; discriminate).
  split; [exact H1|].
  exact (scan_payload_text_or_value jan1_noon jan1_noon alice_qr _
           (JStr (str "B1")) (store_of [alice] []) H1 H2 H3).
Defined.

(** Bob registers, and his QR code is scanned at noon at a station of his
    group. *)
Lemma register_then_scan_witness :
  let st := store_of [alice] [] in
  let st' := serve bob_registers st in
  well_formed (str "U2") /\
  (exists d, In d (users st') /\ User.userId d = str "U2" /\
             User.qrCode d = Some bob_qr) /\
  fst (scan jan1_noon jan1_noon (JStr bob_qr) (JStr (str "B1")) st')
  = ScanSuccess (toWellFormed (str "Bob")) (toWellFormed (str "B1")) /\
  (ledger_refers_to_identities st ->
   attendances (snd (scan jan1_noon jan1_noon (JStr bob_qr)
                       (JStr (str "B1")) st'))
   = attendances st
     ++ [Attendance.create (str "U2") (toWellFormed (str "B1")) Present
           jan1_noon]).
Proof.
  cbv zeta.
  assert (H1 : register (str "salt") (str "uuid") (JStr (str "Bob"))
                 (JStr (str "U2")) (JStr (str "B1")) (JStr (str "user"))
                 (JStr (str "secret")) (store_of [alice] [])
               = (Registered (str "U2") (JStr (str "user")),
                  serve bob_registers (store_of [alice] [])))
    by (vm_compute; reflexivity).
  assert (H2 : well_formed (str "U2")) by (vm_compute; reflexivity).
  assert (H3 : day_window jan1_noon = Some (jan1_midnight, jan1_last_ms))
    by (vm_compute; reflexivity).
  split; [exact H2|].
  exact (register_then_scan (str "salt") (str "uuid") (str "Bob") (str "U2")
           (str "B1") (JStr (str "secret")) (store_of [alice] []) _
           jan1_noon jan1_noon jan1_midnight jan1_last_ms H1 H2 H3).
Defined.

(** Kay registers and logs in with the ID she registered, spaces around
    it: the store holds her key with U+FFFD in place of the surrogate, and
    the login finds her. *)
Lemma register_then_login_witness :
  let st' := serve kay_registers (store_of [alice] []) in
  let id := (str " " ++ kay_key ++ str " ")%list in
  toWellFormed kay_key = [75; 65533]%N /\
  toWellFormed (trim id) = toWellFormed kay_key /\
  exists d pw,
    In d (users st') /\ User.userId d = toWellFormed kay_key /\
    JStr (str "secret") = JStr pw /\
    User.password d = toWellFormed (bcrypt_hash (str "salt") pw) /\
    login (JStr id) (JStr (str "secret")) st'
    = if bcrypt_compare (str "secret") (User.password d)
      then LoginOk (User.name d) (toWellFormed kay_key) (User.bus d)
             (User.role d) (User.qrCode d)
      else LoginInvalidPassword.
Proof.
  cbv zeta.
  assert (H1 : register (str "salt") (str "uuid") (JStr (str "Kay"))
                 (JStr kay_key) (JStr (str "B1")) (JStr (str "user"))
                 (JStr (str "secret")) (store_of [alice] [])
               = (Registered kay_key (JStr (str "user")),
                  serve kay_registers (store_of [alice] [])))
    by (vm_compute; reflexivity).
  assert (H2 : toWellFormed (trim (str " " ++ kay_key ++ str " ")%list)
               = toWellFormed kay_key)
    by (vm_compute; reflexivity).
  assert (H3 : str "secret" <> []) by (vm_compute; discriminate).
  split; [vm_compute; reflexivity|]. split; [exact H2|].
  exact (register_then_login (str "salt") (str "uuid") (JStr (str "Kay"))
           (JStr kay_key) (JStr (str "B1")) (JStr (str "user"))
           (JStr (str "secret")) (store_of [alice] []) kay_key _
           (str " " ++ kay_key ++ str " ")%list (str "secret") H1 H2 H3).
Defined.

(** Carol's key ends with a space: she is registered and cannot log in. *)
Lemma register_untrimmed_key_cannot_login_witness :
  let st' := serve carol_registers (store_of [alice] []) in
  ~ trimmed (str "U3 ") /\
  known_identity (toWellFormed (str "U3 ")) st' /\
  forall userId' password' n b r q,
    login userId' password' st'
    <> LoginOk n (toWellFormed (str "U3 ")) b r q.
Proof.
  cbv zeta.
  assert (H1 : register (str "salt") (str "uuid") (JStr (str "Carol"))
                 (JStr (str "U3 ")) (JStr (str "B1")) (JStr (str "user"))
                 (JStr (str "secret")) (store_of [alice] [])
               = (Registered (str "U3 ") (JStr (str "user")),
                  serve carol_registers (store_of [alice] [])))
    by (vm_compute; reflexivity).
  assert (H2 : ~ trimmed (str "U3 "))
    by (unfold trimmed; vm_compute; discriminate).
  split; [exact H2|].
  exact (register_untrimmed_key_cannot_login (str "salt") (str "uuid")
           (JStr (str "Carol")) (JStr (str "U3 ")) (JStr (str "B1"))
           (JStr (str "user")) (JStr (str "secret")) (store_of [alice] [])
           (str "U3 ") _ H1 H2).
Defined.

(** After Kay's registration, a login under the ID she registered: the
    store holds it with U+FFFD, the filter looks for it with U+FFFD, and
    the answer is not 404. *)
Lemma login_not_found_iff_witness :
  let st := serve kay_registers (store_of [alice] []) in
  kay_key <> [] /\
  known_identity (toWellFormed (trim kay_key)) st /\
  (login (JStr kay_key) (JStr (str "x")) st = LoginNotFound <->
   ~ known_identity (toWellFormed (trim kay_key)) st).
Proof.
  cbv zeta.
  assert (H1 : kay_key <> []) by (vm_compute; discriminate).
  assert (H2 : truthy (JStr (str "x")) = true) by reflexivity.
  split; [exact H1|]. split.
  - eexists. split; [right; left; reflexivity|]. vm_compute. reflexivity.
  - exact (login_not_found_iff kay_key (JStr (str "x"))
             (serve kay_registers (store_of [alice] [])) H1 H2).
Defined.

(** Bob registers; the listings afterwards. *)
Lemma register_then_listByGroup_witness :
  let st := store_of [alice] [] in
  let st' := serve bob_registers st in
  exists d n b,
    In d (users st') /\
    required_String (JStr (str "Bob")) = Some n /\
    required_String (JStr (str "B1")) = Some b /\
    role_path (JStr (str "user")) = Some (User.role d) /\
    User.userId d = toWellFormed (str "U2") /\
    User.name d = toWellFormed n /\
    User.bus d = toWellFormed b /\
    User.attendance d = str "Absent" /\
    forall g,
      fst (listByGroup g st')
      = fst (listByGroup g st)
        ++ (if jsstring_eqb (toWellFormed b) g
               && Role_eqb (User.role d) RoleUser
            then [public_view d] else []).
Proof.
  cbv zeta.
  assert (H1 : register (str "salt") (str "uuid") (JStr (str "Bob"))
                 (JStr (str "U2")) (JStr (str "B1")) (JStr (str "user"))
                 (JStr (str "secret")) (store_of [alice] [])
               = (Registered (str "U2") (JStr (str "user")),
                  serve bob_registers (store_of [alice] [])))
    by (vm_compute; reflexivity).
  exact (register_then_listByGroup (str "salt") (str "uuid")
           (JStr (str "Bob")) (JStr (str "U2")) (JStr (str "B1"))
           (JStr (str "user")) (JStr (str "secret")) (store_of [alice] [])
           (str "U2") _ H1).
Defined.

(** The sweep of 06:00 on a store with Alice and no entry. *)
Lemma autoAbsent_effect_witness :
  let st := store_of [alice] [] in
  let st' := store_of [alice] [absent_entry alice jan1_morning] in
  autoAbsent jan1_morning morning_stamps st = Some st' /\
  users st' = users st /\
  exists extra,
    attendances st' = attendances st ++ extra /\
    Forall (fun a =>
              Attendance.status a = Absent /\
              exists u,
                In u (users st) /\ User.role u = RoleUser /\
                Attendance.userId a = User.userId u /\
                Attendance.bus a = User.bus u /\
                forall lo hi,
                  day_window jan1_morning = Some (lo, hi) ->
                  Attendance.findOne (User.userId u) lo hi (attendances st)
                  = None)
           extra.
Proof.
  cbv zeta.
  assert (H1 : autoAbsent jan1_morning morning_stamps (store_of [alice] [])
               = Some (store_of [alice] [absent_entry alice jan1_morning]))
    by (vm_compute; reflexivity).
  split; [exact H1|].
  exact (autoAbsent_effect jan1_morning morning_stamps (store_of [alice] [])
           _ H1).
Defined.

Lemma autoAbsent_covers_roster_witness :
  let st := store_of [alice] [] in
  let st' := store_of [alice] [absent_entry alice jan1_morning] in
  autoAbsent jan1_morning morning_stamps st = Some st' /\
  entries_of_day (str "U1") jan1_morning (attendances st') <> [].
Proof.
  cbv zeta.
  assert (H1 : autoAbsent jan1_morning morning_stamps (store_of [alice] [])
               = Some (store_of [alice] [absent_entry alice jan1_morning]))
    by (vm_compute; reflexivity).
  split; [exact H1|].
  exact (autoAbsent_covers_roster jan1_morning morning_stamps
           (store_of [alice] []) _ H1 morning_stamps_timely alice
           (or_introl eq_refl) eq_refl).
Defined.

(** A second sweep at noon of the same day. *)
Lemma autoAbsent_idempotent_before_last_ms_witness :
  let st := store_of [alice] [] in
  let st1 := store_of [alice] [absent_entry alice jan1_morning] in
  autoAbsent jan1_morning morning_stamps st = Some st1 /\
  Day jan1_noon = Day jan1_morning /\
  autoAbsent jan1_noon (fun _ => jan1_noon) st1 = Some st1.
Proof.
  cbv zeta.
  assert (H1 : autoAbsent jan1_morning morning_stamps (store_of [alice] [])
               = Some (store_of [alice] [absent_entry alice jan1_morning]))
    by (vm_compute; reflexivity).
  assert (H2 : Day jan1_noon = Day jan1_morning) by (vm_compute; reflexivity).
  split; [exact H1|]. split; [exact H2|].
  exact (autoAbsent_idempotent_before_last_ms jan1_morning morning_stamps
           jan1_noon (fun _ => jan1_noon) (store_of [alice] []) _ H1
           morning_stamps_timely H2).
Defined.

(** Alice and Bob are registered, Alice is scanned in the morning, the
    sweep runs at noon: it writes for Bob only. *)
Lemma scan_then_autoAbsent_witness :
  let st := serve bob_registers (store_of [alice] []) in
  let st1 := snd (scan jan1_morning jan1_morning (JStr alice_qr)
                    (JStr (str "B1")) st) in
  let st2 := {| users := users st1;
                attendances := attendances st1
                               ++ [Attendance.create (str "U2") (str "B1")
                                     Absent jan1_noon] |} in
  autoAbsent jan1_noon (fun _ => jan1_noon) st1 = Some st2 /\
  exists extra,
    attendances st2 = attendances st1 ++ extra /\
    Forall (fun a => Attendance.userId a <> User.userId alice) extra.
Proof.
  cbv zeta.
  assert (H1 : scan jan1_morning jan1_morning (JStr alice_qr)
                 (JStr (str "B1")) (serve bob_registers (store_of [alice] []))
               = (ScanSuccess (str "Alice") (str "B1"),
                  snd (scan jan1_morning jan1_morning (JStr alice_qr)
                         (JStr (str "B1"))
                         (serve bob_registers (store_of [alice] [])))))
    by (vm_compute; reflexivity).
  assert (H2 : scanned_identity (JStr alice_qr)
                 (serve bob_registers (store_of [alice] []))
               = Some (O, alice))
    by (vm_compute; reflexivity).
  assert (H3 : before_last_ms jan1_morning jan1_morning)
    by (split; vm_compute; reflexivity).
  assert (H4 : Day jan1_noon = Day jan1_morning) by (vm_compute; reflexivity).
  match goal with |- ?a = Some ?s /\ _ =>
    assert (H5 : a = Some s) by (vm_compute; reflexivity)
  end.
  split; [exact H5|].
  exact (scan_then_autoAbsent jan1_morning jan1_morning (JStr alice_qr)
           (JStr (str "B1")) _ (str "Alice") (str "B1") _ O alice
           jan1_noon (fun _ => jan1_noon) _ H1 H2 H3 H4 H5).
Defined.

(** The report of January 2024 for Alice before and after a sweep. *)
Lemma autoAbsent_keeps_report_witness :
  let st := store_of [alice] [] in
  let st' := store_of [alice] [absent_entry alice jan1_morning] in
  autoAbsent jan1_morning morning_stamps st = Some st' /\
  match monthlySummary (str "U1") 1 2024 st,
        monthlySummary (str "U1") 1 2024 st' with
  | Some s, Some s' =>
      totalDays s' = totalDays s /\ presentDays s' = presentDays s /\
      absentDays s' = absentDays s
  | None, None => True
  | _, _ => False
  end.
Proof.
  cbv zeta.
  assert (H1 : autoAbsent jan1_morning morning_stamps (store_of [alice] [])
               = Some (store_of [alice] [absent_entry alice jan1_morning]))
    by (vm_compute; reflexivity).
  split; [exact H1|].
  exact (autoAbsent_keeps_report jan1_morning morning_stamps
           (store_of [alice] []) _ (str "U1") 1 2024 H1).
Defined.

(** January 2024 with one entry of Alice. *)
Lemma monthlySummary_within_bounds_witness :
  let st := store_of [alice] [entry_of alice jan1_noon Present] in
  exists s,
    monthlySummary (str "U1") 1 2024 st = Some s /\
    one_entry_per_day (attendances st) /\
    0 <= presentDays s <= totalDays s /\
    0 <= absentDays s <= totalDays s /\
    Z.of_nat (List.length (details s)) <= totalDays s.
Proof.
  cbv zeta.
  assert (H1 : 1 <= 1 <= 12) by lia.
  assert (H2 : valid_year 2024) by (unfold valid_year; lia).
  assert (H3 : one_entry_per_day
                 (attendances
                    (store_of [alice] [entry_of alice jan1_noon Present]))).
  { unfold one_entry_per_day. cbn [attendances store_of map].
    constructor; [intros []|constructor]. }
  destruct (monthlySummary (str "U1") 1 2024
              (store_of [alice] [entry_of alice jan1_noon Present]))
    as [s|] eqn:H4; [|vm_compute in H4; discriminate].
  exists s. split; [reflexivity|]. split; [exact H3|].
  exact (monthlySummary_within_bounds (str "U1") 1 2024
           (store_of [alice] [entry_of alice jan1_noon Present]) s
           H1 H2 H3 H4).
Defined.


(** Alice's first scan of 1 January 2024 and the report of January. *)
Lemma scan_then_monthlySummary_witness :
  let st := store_of [alice] [] in
  let st1 := snd (scan jan1_noon jan1_noon (JStr alice_qr)
                    (JStr (str "B1")) st) in
  spec_in_month_window 2024 1 jan1_noon = true /\
  exists s s1,
    monthlySummary (User.userId alice) 1 2024 st = Some s /\
    monthlySummary (User.userId alice) 1 2024 st1 = Some s1 /\
    totalDays s1 = totalDays s /\
    presentDays s1
    = presentDays s
      + (if spec_in_month_window 2024 1 jan1_noon then 1 else 0).
Proof.
  cbv zeta.
  assert (H1 : scan jan1_noon jan1_noon (JStr alice_qr) (JStr (str "B1"))
                 (store_of [alice] [])
               = (ScanSuccess (str "Alice") (str "B1"),
                  snd (scan jan1_noon jan1_noon (JStr alice_qr)
                         (JStr (str "B1")) (store_of [alice] []))))
    by (vm_compute; reflexivity).
  assert (H2 : scanned_identity (JStr alice_qr) (store_of [alice] [])
               = Some (O, alice))
    by (vm_compute; reflexivity).
  assert (H3 : entries_of_day (User.userId alice) jan1_noon
                 (attendances (store_of [alice] [])) = [])
    by reflexivity.
  assert (H4 : 1 <= 1 <= 12) by lia.
  assert (H5 : valid_year 2024) by (unfold valid_year; lia).
  split; [vm_compute; reflexivity|].
  exact (scan_then_monthlySummary jan1_noon jan1_noon (JStr alice_qr)
           (JStr (str "B1")) (store_of [alice] []) (str "Alice") (str "B1")
           _ O alice 1 2024 H1 H2 H3 H4 H5).
Defined.

(** Alice is scanned; the listing of group B1 afterwards. *)
Lemma scan_then_listByGroup_witness :
  let st1 := snd (scan jan1_noon jan1_noon (JStr alice_qr)
                    (JStr (str "B1")) (store_of [alice] [])) in
  User.role alice = RoleUser /\
  In (public_view (User.set_attendance alice (str "Present")))
     (fst (listByGroup (User.bus alice) st1)).
Proof.
  cbv zeta.
  assert (H1 : scan jan1_noon jan1_noon (JStr alice_qr) (JStr (str "B1"))
                 (store_of [alice] [])
               = (ScanSuccess (str "Alice") (str "B1"),
                  snd (scan jan1_noon jan1_noon (JStr alice_qr)
                         (JStr (str "B1")) (store_of [alice] []))))
    by (vm_compute; reflexivity).
  assert (H2 : scanned_identity (JStr alice_qr) (store_of [alice] [])
               = Some (O, alice))
    by (vm_compute; reflexivity).
  split; [reflexivity|].
  exact (scan_then_listByGroup jan1_noon jan1_noon (JStr alice_qr)
           (JStr (str "B1")) (store_of [alice] []) (str "Alice") (str "B1")
           _ O alice H1 H2 eq_refl).
Defined.

(** A morning of requests: Bob registers, registers again, logs in, is
    scanned, the sweep runs, a report and a listing are read. *)
Lemma serve_all_keeps_keys_witness :
  let rs := [bob_registers; bob_registers;
             ReqLogin (JStr (str "U2")) (JStr (str "secret"));
             ReqScan jan1_morning jan1_morning (JStr bob_qr) (JStr (str "B1"));
             ReqAutoAbsent jan1_noon (fun _ => jan1_noon);
             ReqSummary (str "U2") 1 2024; ReqListByGroup (str "B1")] in
  let st := store_of [alice] [] in
  identity_keys_unique st /\
  ledger_refers_to_identities st /\
  identity_keys_unique (serve_all rs st) /\
  ledger_refers_to_identities (serve_all rs st).
Proof.
  cbv zeta.
  assert (H1 : identity_keys_unique (store_of [alice] [])).
  { unfold identity_keys_unique. cbn [users store_of map].
    constructor; [intros []|constructor]. }
  assert (H2 : ledger_refers_to_identities (store_of [alice] []))
    by (intros a []).
  split; [exact H1|]. split; [exact H2|].
  exact (serve_all_keeps_keys _ (store_of [alice] []) H1 H2).
Defined.

Lemma serve_all_one_entry_per_day_witness :
  let rs := [bob_registers;
             ReqScan jan1_morning jan1_morning (JStr bob_qr) (JStr (str "B1"));
             ReqAutoAbsent jan1_morning morning_stamps;
             ReqScan jan1_noon jan1_noon (JStr alice_qr) (JStr (str "B1"))] in
  let st := store_of [alice] [] in
  Forall timely rs /\
  one_entry_per_day (attendances (serve_all rs st)) /\
  none_in_last_ms (attendances (serve_all rs st)).
Proof.
  cbv zeta.
  assert (H1 : Forall timely
                 [bob_registers;
                  ReqScan jan1_morning jan1_morning (JStr bob_qr)
                    (JStr (str "B1"));
                  ReqAutoAbsent jan1_morning morning_stamps;
                  ReqScan jan1_noon jan1_noon (JStr alice_qr)
                    (JStr (str "B1"))]).
  { constructor; [exact I|].
    constructor; [split; vm_compute; reflexivity|].
    constructor; [exact morning_stamps_timely|].
    constructor; [split; vm_compute; reflexivity|constructor]. }
  assert (H2 : one_entry_per_day (attendances (store_of [alice] [])))
    by constructor.
  assert (H3 : none_in_last_ms (attendances (store_of [alice] [])))
    by constructor.
  split; [exact H1|].
  exact (serve_all_one_entry_per_day _ (store_of [alice] []) H1 H2 H3).
Defined.

(** Alice's scan at noon, and the same scan when the query of the
    ledger fails: 500, her flag written, no entry. *)
Lemma scan_under_failure_witness :
  let st := store_of [alice] [] in
  valid_clock jan1_noon /\
  scan_under (Some 2%nat) jan1_noon jan1_noon (JStr alice_qr)
    (JStr (str "B1")) st
  = (ScanFailure,
     store_of [User.set_attendance alice (str "Present")] []) /\
  attendances (snd (scan_under (Some 2%nat) jan1_noon jan1_noon
                      (JStr alice_qr) (JStr (str "B1")) st))
  = attendances st /\
  (snd (scan_under (Some 2%nat) jan1_noon jan1_noon (JStr alice_qr)
          (JStr (str "B1")) st) = st \/
   exists i u,
     (Some 2%nat = Some 2%nat \/ Some 2%nat = Some 3%nat) /\
     fst (scan_under (Some 2%nat) jan1_noon jan1_noon (JStr alice_qr)
            (JStr (str "B1")) st) = ScanFailure /\
     scanned_identity (JStr alice_qr) st = Some (i, u) /\
     users (snd (scan_under (Some 2%nat) jan1_noon jan1_noon (JStr alice_qr)
                   (JStr (str "B1")) st))
     = replace_at i (User.set_attendance u (str "Present")) (users st)).
Proof.
  cbv zeta.
  assert (H1 : valid_clock jan1_noon)
    by (unfold valid_clock, jan1_noon; lia).
  assert (H2 : key_well_formed (JStr alice_qr))
    by exact alice_qr_key_well_formed.
  assert (H3 : forall n b,
            fst (scan_under (Some 2%nat) jan1_noon jan1_noon (JStr alice_qr)
                   (JStr (str "B1")) (store_of [alice] []))
            <> ScanSuccess n b)
    by (intros n b; vm_compute; discriminate).
  split; [exact H1|]. split; [vm_compute; reflexivity|].
  exact (proj1 (scan_under_failure (Some 2%nat) jan1_noon jan1_noon
                  (JStr alice_qr) (JStr (str "B1")) (store_of [alice] [])
                  H1 H2) H3).
Defined.

(** The sweep of Alice and Bob when the insertion of Bob's entry fails:
    Alice's entry is written, the sweep that is served writes both. *)
Lemma autoAbsent_under_prefix_witness :
  let st := serve bob_registers (store_of [alice] []) in
  valid_clock jan1_morning /\
  fst (autoAbsent_under (Some 4%nat) jan1_morning morning_stamps st) = false /\
  attendances
    (snd (autoAbsent_under (Some 4%nat) jan1_morning morning_stamps st))
  = [absent_entry alice jan1_morning] /\
  exists full done rest,
    autoAbsent jan1_morning morning_stamps st = Some full /\
    users (snd (autoAbsent_under (Some 4%nat) jan1_morning morning_stamps st))
    = users st /\
    users full = users st /\
    attendances
      (snd (autoAbsent_under (Some 4%nat) jan1_morning morning_stamps st))
    = attendances st ++ done /\
    attendances full = attendances st ++ done ++ rest /\
    (fst (autoAbsent_under (Some 4%nat) jan1_morning morning_stamps st) = true
     -> rest = []) /\
    (Some 4%nat = None ->
     fst (autoAbsent_under (Some 4%nat) jan1_morning morning_stamps st)
     = true).
Proof.
  cbv zeta.
  assert (H1 : valid_clock jan1_morning)
    by (unfold valid_clock, jan1_morning; lia).
  split; [exact H1|]. split; [vm_compute; reflexivity|].
  split; [vm_compute; reflexivity|].
  exact (autoAbsent_under_prefix (Some 4%nat) jan1_morning morning_stamps
           (serve bob_registers (store_of [alice] [])) H1).
Defined.

(** January of the year 275761. *)
Lemma monthlySummary_year_out_of_range_witness :
  (275761 < -271821 \/ 275760 < 275761) /\
  monthlySummary (str "U1") 1 275761 (store_of [alice] []) = None.
Proof.
  assert (H1 : 1 <= 1 <= 12) by lia.
  assert (H2 : 275761 < -271821 \/ 275760 < 275761) by (right; lia).
  split; [exact H2|].
  exact (monthlySummary_year_out_of_range (str "U1") 1 275761
           (store_of [alice] []) H1 H2).
Defined.
